(** * Metadata resolution cascade of the paper RAG pipeline

    A shallow embedding of [src/utils.py] (identifier extractors, citation
    key generator) and [src/metadata_extractor.py] (lookup strategies,
    citation normaliser, resolution orchestrator), with the properties of
    the design document stated and settled against it.

    Conventions of the embedding.
    - A Python [str] is a [string]; every [ascii] stands for the code point
      of the same number, so the texts covered are those over
      U+0000..U+00FF.  The character classes of [re] and of the [str]
      methods are the CPython ones restricted to that range.
    - A Python [int] is a [Z]; [len] is a [nat].
    - A Python [set] of strings is a [gset string].
    - A computation that may raise returns an [option]; [None] stands for
      an exception leaving the function.
    - The network, the PDF readers and the BibTeX parser are outside the
      repository: they are taken as oracles (record [world]). *)

From Stdlib Require Import ZArith QArith Lqa Ascii String List.
From stdpp Require Import base option gmap sets list strings pretty.

Local Open Scope string_scope.

(** ** Python built-ins used by the two modules *)

Module Py.

Definition code (c : ascii) : N := N_of_ascii c.

Definition between (lo hi : N) (c : ascii) : bool :=
  ((lo <=? code c) && (code c <=? hi))%N.

(** [str.isspace] on one character: TAB..CR, FS..US, SPACE, NEL, NBSP. *)
Definition isspace (c : ascii) : bool :=
  between 9 13 c || between 28 31 c || (code c =? 32)%N
  || (code c =? 133)%N || (code c =? 160)%N.

(** [str.isdecimal] on one character. *)
Definition isdecimal (c : ascii) : bool := between 48 57 c.

(** [a-zA-Z]. *)
Definition is_ascii_letter (c : ascii) : bool :=
  between 65 90 c || between 97 122 c.

(** [str.isalnum] on one character: letters, decimals, digits and
    numerics of the range (superscripts 1 2 3, vulgar fractions,
    feminine and masculine ordinal, micro sign, accented letters). *)
Definition isalnum (c : ascii) : bool :=
  isdecimal c || is_ascii_letter c
  || (code c =? 170)%N || between 178 179 c || (code c =? 181)%N
  || between 185 186 c || between 188 190 c
  || between 192 214 c || between 216 246 c || between 248 255 c.

(** ASCII case folding, enough for the letters of the patterns below. *)
Definition lower (c : ascii) : ascii :=
  if between 65 90 c then ascii_of_N (code c + 32) else c.

Definition chr (n : Z) : ascii := ascii_of_N (Z.to_N n).
Definition ord (c : ascii) : Z := Z.of_N (code c).

Definition to_list : string -> list ascii := list_ascii_of_string.
Definition of_list : list ascii -> string := string_of_list_ascii.

(** [c in s] for a one-character [c]. *)
Definition contains (c : ascii) (s : string) : bool :=
  existsb (Ascii.eqb c) (to_list s).

(** [s.split(sep)] for a one-character separator: never empty. *)
Fixpoint split_on (sep : ascii) (cur : list ascii) (l : list ascii)
  : list string :=
  match l with
  | [] => [of_list (rev cur)]
  | c :: t =>
      if Ascii.eqb c sep then of_list (rev cur) :: split_on sep [] t
      else split_on sep (c :: cur) t
  end.

Definition split (sep : ascii) (s : string) : list string :=
  split_on sep [] (to_list s).

(** [s.split()]: the maximal runs of non-space characters. *)
Fixpoint words_go (cur : list ascii) (l : list ascii) : list string :=
  match l with
  | [] => match cur with [] => [] | _ => [of_list (rev cur)] end
  | c :: t =>
      if isspace c then
        match cur with
        | [] => words_go [] t
        | _ => of_list (rev cur) :: words_go [] t
        end
      else words_go (c :: cur) t
  end.

Definition split_ws (s : string) : list string := words_go [] (to_list s).

Fixpoint lstrip_by (p : ascii -> bool) (l : list ascii) : list ascii :=
  match l with
  | c :: t => if p c then lstrip_by p t else l
  | [] => []
  end.

Definition rstrip_by (p : ascii -> bool) (l : list ascii) : list ascii :=
  rev (lstrip_by p (rev l)).

(** [s.strip()]. *)
Definition strip (s : string) : string :=
  of_list (rstrip_by isspace (lstrip_by isspace (to_list s))).

(** [s.rstrip(chars)]. *)
Definition rstrip (chars : string) (s : string) : string :=
  of_list (rstrip_by (fun c => contains c chars) (to_list s)).

(** [l[-1]]: [None] is IndexError. *)
Definition last_item {A} (l : list A) : option A := last l.

(** [str(n)] and the [{n}] of an f-string, for an int. *)
Definition str_of_int (n : Z) : string := pretty n.
Definition str_of_len (n : nat) : string := pretty n.

(** [int(s)] for a string [s]: surrounding white space is dropped, one
    sign is allowed, then decimal digits, single underscores allowed
    between digits.  [None] is ValueError.  The white space [int] drops
    is TAB..CR, SPACE, NEL and NBSP: the separators FS..US, which
    [str.isspace] accepts, are refused. *)
Definition int_space (c : ascii) : bool :=
  between 9 13 c || (code c =? 32)%N || (code c =? 133)%N
  || (code c =? 160)%N.

Definition digit_val (c : ascii) : Z := Z.of_N (code c) - 48.

Fixpoint int_digits (acc : Z) (after_digit : bool) (l : list ascii)
  : option Z :=
  match l with
  | [] => if after_digit then Some acc else None
  | c :: t =>
      if isdecimal c then int_digits (10 * acc + digit_val c) true t
      else if Ascii.eqb c "_" then
        if after_digit then int_digits acc false t else None
      else None
  end.

Definition int_of_str (s : string) : option Z :=
  match rstrip_by int_space (lstrip_by int_space (to_list s)) with
  | [] => None
  | c :: t =>
      if Ascii.eqb c "-" then Z.opp <$> int_digits 0 false t
      else if Ascii.eqb c "+" then int_digits 0 false t
      else int_digits 0 false (c :: t)
  end.

(** [Path(p).name] and [Path(p).stem] of a POSIX path. *)
Definition path_name (p : string) : string :=
  match last_item (filter (fun s => bool_decide (s <> "" /\ s <> "."))
                          (split "/" p)) with
  | Some n => n
  | None => ""
  end.

Fixpoint drop_suffix (l : list ascii) : option (list ascii) :=
  match l with
  | [] => None
  | c :: t =>
      match drop_suffix t with
      | Some r => Some (c :: r)
      | None => if Ascii.eqb c "." then Some [] else None
      end
  end.

Definition path_stem (p : string) : string :=
  let n := to_list (path_name p) in
  match drop_suffix n with
  | Some (c :: r) =>
      if (length (c :: r) + 1 <? length n)%nat then of_list (c :: r)
      else of_list n
  | _ => of_list n
  end.

(** [s.strip(chars)]. *)
Definition strip_chars (chars : string) (s : string) : string :=
  of_list (rstrip_by (fun c => contains c chars)
             (lstrip_by (fun c => contains c chars) (to_list s))).

(** [s[:n]]. *)
Definition prefix_of (n : nat) (s : string) : string :=
  of_list (take n (to_list s)).

End Py.

(** ** A backtracking matcher for the fragment of [re] the code uses

    Greedy repetition, ordered alternation, [^], [\b] and one capturing
    group, explored in the order of CPython's engine: the first successful
    path wins. *)

Module Re.

Inductive regex :=
| Eps
| Chr (p : ascii -> bool)
| Cat (r1 r2 : regex)
| Alt (r1 r2 : regex)
| Star (r : regex)
| Bol
| WordB
| Grp (r : regex).

(** A position in the subject: the characters before it (nearest first),
    the characters after it, and the span of group 1 if it is set. *)
Record pos := MkPos {
  before : list ascii;
  after : list ascii;
  group1 : option (nat * nat)
}.

Definition offset (s : pos) : nat := length (before s).

Definition isword (c : ascii) : bool := Py.isalnum c || Ascii.eqb c "_".

Definition word_at (l : list ascii) : bool :=
  match l with c :: _ => isword c | [] => false end.

Definition at_boundary (s : pos) : bool :=
  xorb (word_at (before s)) (word_at (after s)).

Section Run.
Context {A : Type}.

Fixpoint star_run (step : pos -> (pos -> option A) -> option A)
    (fuel : nat) (s : pos) (k : pos -> option A) : option A :=
  match fuel with
  | O => k s
  | S f =>
      match step s (fun s' =>
                      if (length (after s') <? length (after s))%nat
                      then star_run step f s' k else None) with
      | Some x => Some x
      | None => k s
      end
  end.

Fixpoint run (r : regex) (s : pos) (k : pos -> option A) : option A :=
  match r with
  | Eps => k s
  | Chr p =>
      match after s with
      | c :: t =>
          if p c then k (MkPos (c :: before s) t (group1 s)) else None
      | [] => None
      end
  | Cat r1 r2 => run r1 s (fun s' => run r2 s' k)
  | Alt r1 r2 =>
      match run r1 s k with
      | Some x => Some x
      | None => run r2 s k
      end
  | Star r1 => star_run (run r1) (length (after s)) s k
  | Bol => match before s with [] => k s | _ => None end
  | WordB => if at_boundary s then k s else None
  | Grp r1 =>
      run r1 s (fun s' =>
        k (MkPos (before s') (after s') (Some (offset s, offset s'))))
  end.
End Run.

(** A match object: where it starts and the position where it ends. *)
Record match_obj := MkMatch { m_start : nat; m_end : pos }.

(** The text of a span of the subject, read back from a position at or
    after its end. *)
Definition span (e : pos) (i j : nat) : string :=
  Py.of_list (take (j - i) (drop i (rev (before e) ++ after e))).

(** [m.group(0)] and [m.group(1)]. *)
Definition group0 (m : match_obj) : string :=
  span (m_end m) (m_start m) (offset (m_end m)).

Definition group_1 (m : match_obj) : option string :=
  match group1 (m_end m) with
  | Some (i, j) => Some (span (m_end m) i j)
  | None => None
  end.

(** [re.search]: the leftmost starting point with a match. *)
Fixpoint search_from (r : regex) (bef aft : list ascii) : option match_obj :=
  match run r (MkPos bef aft None) Some with
  | Some e => Some (MkMatch (length bef) e)
  | None =>
      match aft with
      | [] => None
      | c :: t => search_from r (c :: bef) t
      end
  end.

Definition search (r : regex) (text : string) : option match_obj :=
  search_from r [] (Py.to_list text).

(** [re.sub(r, repl, text, count)] where [repl] builds the replacement
    from the match object; [count = None] is Python's [count=0]
    (replace all).  After an empty match one character is copied. *)
Fixpoint sub_from (r : regex) (repl : match_obj -> string)
    (count : option nat) (fuel : nat) (bef aft : list ascii) : string :=
  match fuel with
  | O => Py.of_list aft
  | S f =>
      match count with
      | Some O => Py.of_list aft
      | _ =>
          match run r (MkPos bef aft None) Some with
          | Some e =>
              let m := MkMatch (length bef) e in
              let count' := pred <$> count in
              if (length (after e) <? length aft)%nat then
                repl m +:+ sub_from r repl count' f (before e) (after e)
              else
                match aft with
                | [] => repl m
                | c :: t =>
                    repl m +:+ String c (sub_from r repl count' f (c :: bef) t)
                end
          | None =>
              match aft with
              | [] => ""
              | c :: t => String c (sub_from r repl count f (c :: bef) t)
              end
          end
      end
  end.

Definition sub (r : regex) (repl : match_obj -> string)
    (count : option nat) (text : string) : string :=
  sub_from r repl count (S (String.length text)) [] (Py.to_list text).

(** Pattern syntax. *)
Definition lit (c : ascii) : regex := Chr (Ascii.eqb c).
Definition lit_i (c : ascii) : regex :=
  Chr (fun x => Ascii.eqb (Py.lower x) (Py.lower c)).
Definition plus (r : regex) : regex := Cat r (Star r).
Definition digit : regex := Chr Py.isdecimal.
Definition space : regex := Chr Py.isspace.
Definition nonspace : regex := Chr (fun c => negb (Py.isspace c)).
Definition wordc : regex := Chr isword.

Fixpoint lits (l : list ascii) : regex :=
  match l with
  | [] => Eps
  | [c] => lit c
  | c :: t => Cat (lit c) (lits t)
  end.

Fixpoint lits_i (l : list ascii) : regex :=
  match l with
  | [] => Eps
  | [c] => lit_i c
  | c :: t => Cat (lit_i c) (lits_i t)
  end.

Definition str (s : string) : regex := lits (Py.to_list s).
Definition str_i (s : string) : regex := lits_i (Py.to_list s).

(** [r{n,}] and [r{n,m}]. *)
Fixpoint at_least (n : nat) (r : regex) : regex :=
  match n with
  | O => Star r
  | S n' => Cat r (at_least n' r)
  end.

Fixpoint at_most (n : nat) (r : regex) : regex :=
  match n with
  | O => Eps
  | S n' => Alt (Cat r (at_most n' r)) Eps
  end.

Fixpoint exactly (n : nat) (r : regex) : regex :=
  match n with
  | O => Eps
  | S n' => Cat r (exactly n' r)
  end.

Definition rep (n m : nat) (r : regex) : regex :=
  Cat (exactly n r) (at_most (m - n) r).

(** [re.match]: a match that starts at the first character. *)
Definition match_at_start (r : regex) (text : string) : option match_obj :=
  match run r (MkPos [] (Py.to_list text) None) Some with
  | Some e => Some (MkMatch 0 e)
  | None => None
  end.

End Re.

(** ** [src/utils.py] *)

Module Utils.
Import Re.

(** [10\.\d{4,}/[^\s]+], compiled with [re.IGNORECASE]. *)
Definition doi_core : regex :=
  Cat (str_i "10.") (Cat (at_least 4 digit) (Cat (lit_i "/") (plus nonspace))).

(** The three entries of [patterns], in the order of the list. *)
Definition doi_patterns : list regex :=
  [ doi_core;
    Cat (str_i "doi:") (Cat (Star space) doi_core);
    Cat (str_i "DOI:") (Cat (Star space) doi_core) ].

(** [^(doi|DOI):\s*], compiled without flags. *)
Definition doi_prefix : regex :=
  Cat Bol (Cat (Grp (Alt (str "doi") (str "DOI")))
               (Cat (lit ":") (Star space))).

Definition clean_doi (doi : string) : string :=
  let doi := sub doi_prefix (fun _ => "") None doi in
  Py.rstrip ".,;:" doi.

Fixpoint first_match (patterns : list regex) (text : string)
  : option match_obj :=
  match patterns with
  | [] => None
  | pattern :: rest =>
      match search pattern text with
      | Some m => Some m
      | None => first_match rest text
      end
  end.

Definition extract_doi_from_text (text : string) : option string :=
  match first_match doi_patterns text with
  | Some m => Some (clean_doi (group0 m))
  | None => None
  end.

(** [(\d{4}\.\d{4,5})]. *)
Definition arxiv_number : regex :=
  Grp (Cat (exactly 4 digit) (Cat (lit_i ".") (rep 4 5 digit))).

Definition arxiv_patterns : list regex :=
  [ Cat (str_i "arXiv:") (Cat (Star space) arxiv_number);
    Cat (str_i "arxiv.org/abs/") arxiv_number ].

(** [m.group(1)] of the first pattern that matches; the group takes part
    in every match of these patterns. *)
Definition extract_arxiv_id_from_text (text : string) : option string :=
  match first_match arxiv_patterns text with
  | Some m => group_1 m
  | None => None
  end.

Definition pubmed_number : regex := Grp (rep 7 8 digit).

Definition pubmed_patterns : list regex :=
  [ Cat (str_i "PMID:") (Cat (Star space) pubmed_number);
    Cat (str_i "pubmed.ncbi.nlm.nih.gov/") pubmed_number ].

Definition extract_pubmed_id_from_text (text : string) : option string :=
  match first_match pubmed_patterns text with
  | Some m => group_1 m
  | None => None
  end.

(** [re.sub(r'[^a-zA-Z]', '', last_name)]. *)
Definition non_letter : regex := Chr (fun c => negb (Py.is_ascii_letter c)).

Definition clean_last_name (last_name : string) : string :=
  sub non_letter (fun _ => "") None last_name.

(** The surname of the first author, before cleaning. *)
Definition last_name_of (first_author : string) : option string :=
  if Py.contains "," first_author then
    Py.strip <$> (Py.split "," first_author !! 0%nat)
  else
    let parts := Py.split_ws first_author in
    match parts with
    | [] => Some "Unknown"
    | _ => Py.last_item parts
    end.

Definition base_key_of (authors : list string) (year : Z) : option string :=
  match authors with
  | [] => Some ("Unknown" +:+ Py.str_of_int year)
  | first_author :: _ =>
      last_name ← last_name_of first_author;
      Some (clean_last_name last_name +:+ Py.str_of_int year)
  end.

Definition fallback_key (base_key : string) (existing_keys : gset string)
  : string :=
  base_key +:+ "_" +:+ Py.str_of_len (size existing_keys).

(** The [while key in existing_keys] loop.  [fuel] bounds the number of
    further iterations; [None] when it runs out. *)
Fixpoint collision_loop (existing_keys : gset string) (base_key : string)
    (fuel : nat) (key : string) (suffix : Z) : option string :=
  if decide (key ∈ existing_keys) then
    let key := base_key +:+ String (Py.chr suffix) "" in
    let suffix := (suffix + 1)%Z in
    if (suffix >? Py.ord "z")%Z then
      Some (fallback_key base_key existing_keys)
    else
      match fuel with
      | O => None
      | S fuel' => collision_loop existing_keys base_key fuel' key suffix
      end
  else Some key.

Definition resolve_collisions (base_key : string)
    (existing_keys : gset string) : option string :=
  collision_loop existing_keys base_key 26 base_key (Py.ord "a").

Definition generate_bibtex_key (authors : list string) (year : Z)
    (existing_keys : gset string) : option string :=
  base_key ← base_key_of authors year;
  resolve_collisions base_key existing_keys.

(** [[\x00-\x08\x0b-\x0c\x0e-\x1f\x7f-\x9f]] *)
Definition control_char (c : ascii) : bool :=
  Py.between 0 8 c || Py.between 11 12 c || Py.between 14 31 c
  || Py.between 127 159 c.

Definition clean_text_for_embedding (text : string) : string :=
  let text := sub (plus space) (fun _ => " ") None text in
  let text := sub (Chr control_char) (fun _ => "") None text in
  Py.strip text.

(** [@\w+\{[\w-]+,] *)
Definition entry_head : regex :=
  Cat (lit "@")
    (Cat (plus wordc)
       (Cat (lit "{")
          (Cat (plus (Chr (fun c => isword c || Ascii.eqb c "-")))
             (lit ",")))).

(** [title\s*=\s*\{[^}]+\}], compiled with [re.IGNORECASE]. *)
Definition title_field : regex :=
  Cat (str_i "title")
    (Cat (Star space)
       (Cat (lit_i "=")
          (Cat (Star space)
             (Cat (lit_i "{")
                (Cat (plus (Chr (fun c => negb (Ascii.eqb c "}"))))
                   (lit_i "}")))))).

(** [year\s*=\s*\{?\d{4}\}?], compiled with [re.IGNORECASE]. *)
Definition year_field : regex :=
  Cat (str_i "year")
    (Cat (Star space)
       (Cat (lit_i "=")
          (Cat (Star space)
             (Cat (at_most 1 (lit_i "{"))
                (Cat (exactly 4 digit) (at_most 1 (lit_i "}"))))))).

Definition validate_bibtex_entry (entry : string) : bool :=
  match match_at_start entry_head entry with
  | None => false
  | Some _ =>
      let has_title := bool_decide (is_Some (search title_field entry)) in
      let has_year := bool_decide (is_Some (search year_field entry)) in
      has_title && has_year
  end.

(** The class of [re.sub] in [sanitize_filename]: the characters
    < > : / \ | ? * and the double quote (code 34). *)
Definition forbidden_in_filename (c : ascii) : bool :=
  existsb (Ascii.eqb c)
    ["<"; ">"; ":"; "034"; "/"; "\"; "|"; "?"; "*"]%char.

Definition sanitize_filename (filename : string) : string :=
  let filename := sub (Chr forbidden_in_filename) (fun _ => "_") None filename in
  let filename := Py.strip_chars ". " filename in
  if (255 <? String.length filename)%nat then Py.prefix_of 255 filename
  else filename.

(** The names of the files [copy_pdf_to_database] and [save_bibtex_file]
    write in [output_dir]: [f"{base_name}.pdf"] and [f"{base_name}.bib"]. *)
Definition pdf_file_name (bibtex_key : string) : string :=
  sanitize_filename bibtex_key +:+ ".pdf".

Definition bib_file_name (bibtex_key : string) : string :=
  sanitize_filename bibtex_key +:+ ".bib".

(** *** Hashing.  [hashlib.sha256] is taken as given: a state, [update]
    and [hexdigest]. *)
Record hasher := MkHasher {
  hash_state : Type;
  sha256 : hash_state;
  update : hash_state -> list ascii -> hash_state;
  hexdigest : hash_state -> string
}.

Definition compute_hash_from_bytes (H : hasher) (data : list ascii) : string :=
  hexdigest H (update H (sha256 H) data).

(** The loop over [f.read(4096)], which ends at the first empty block:
    [rest] is what of the file has not been read yet.  [None] when the
    fuel runs out. *)
Fixpoint read_blocks (H : hasher) (fuel : nat) (rest : list ascii)
    (h : hash_state H) : option (hash_state H) :=
  match fuel with
  | O => None
  | S fuel' =>
      let byte_block := take 4096 rest in
      match byte_block with
      | [] => Some h
      | _ => read_blocks H fuel' (drop 4096 rest) (update H h byte_block)
      end
  end.

(** [content] is what the opened file gives to read; [None]: the file
    cannot be opened and the exception leaves the function. *)
Definition compute_file_hash (H : hasher) (content : option (list ascii))
  : option string :=
  content ← content;
  h ← read_blocks H (S (length content)) content (sha256 H);
  Some (hexdigest H h).

End Utils.

(** ** [src/metadata_extractor.py] *)

Module Extractor.
Import Re.
Export Utils.

Inductive ExtractionMethod :=
| PDF2BIB | CROSSREF | ARXIV | PUBMED | PDF_METADATA | PARSED | MANUAL.

Global Instance ExtractionMethod_eq_dec : EqDecision ExtractionMethod.
Proof. solve_decision. Defined.

Record PaperMetadata := MkPaper {
  title : string;
  authors : list string;
  year : Z;
  bibtex_key : string;
  bibtex_entry : string;
  journal : option string;
  volume : option string;
  pages : option string;
  doi : option string;
  url : option string;
  abstract : option string;
  publisher : option string;
  extraction_method : ExtractionMethod
}.

(** *** What the module consumes from outside the repository *)

(** The value [pdf2bib.pdf2bib] hands back for one file: the entries of
    the dictionary the code reads ([None]: key absent or value [None]). *)
Record pdf2bib_payload := MkPayload {
  p_identifier : option string;
  p_identifier_type : option string;
  p_bibtex : option string;
  p_url : option string
}.

Inductive pdf2bib_outcome :=
| Pdf2bibRaises
| Pdf2bibNotDict
| Pdf2bibDirect (r : pdf2bib_payload)
| Pdf2bibByPath (r : option pdf2bib_payload)
| Pdf2bibOtherDict.

Inductive http_outcome :=
| Response (status_code : Z) (text : string)
| RequestException.

(** One entry as pybtex presents it: the persons under the role
    [author], each rendered by [str], and the fields by lower-case name. *)
Record bib_entry := MkEntry {
  persons_author : option (list string);
  fields : gmap string string
}.

(** The first [atom:entry] of an arXiv feed; [None] where reading the
    element raises. *)
Record arxiv_entry := MkArxiv {
  a_title : option string;
  a_authors : option (list string);
  a_published : option string;
  a_summary : option string
}.

(** [doc.metadata] of PyMuPDF. *)
Record pdf_properties := MkProps {
  d_title : option string;
  d_author : option string;
  d_creationDate : option string
}.

Record world := MkWorld {
  PDF2BIB_AVAILABLE : bool;
  (** [pdf2bib.pdf2bib(path)] *)
  pdf2bib_call : string -> pdf2bib_outcome;
  (** [session.get(url, timeout=10)], by number of earlier requests *)
  session_get : nat -> string -> http_outcome;
  (** [parse_string(s, 'bibtex').entries.values()]; [None]: it raises *)
  parse_bibtex : string -> option (list bib_entry);
  (** [ET.fromstring(content).find('atom:entry')]; [None]: it raises *)
  arxiv_feed : string -> option (option arxiv_entry);
  (** [fitz.open(path).metadata]; [None]: it raises *)
  fitz_metadata : string -> option (option pdf_properties)
}.

(** *** Effects: the requests sent, the sleeps, the strategies entered *)

(** [HttpGet] is a call of [self.session.get]; [Pdf2bibCall] is a call
    of [pdf2bib.pdf2bib], which fetches metadata over the network on its
    own: what it sends does not go through the session and is inside
    this one event. *)
Inductive event :=
| Call (m : ExtractionMethod)
| Return (m : ExtractionMethod) (found : bool)
| HttpGet (url : string)
| Pdf2bibCall (pdf_path : string)
| Sleep (seconds : Q).

Record state := MkState { trace : list event; requests : nat }.

Definition M (A : Type) : Type := state -> A * state.

Definition ret {A} (a : A) : M A := fun s => (a, s).

Definition bind {A B} (m : M A) (k : A -> M B) : M B :=
  fun s => let (a, s') := m s in k a s'.

Definition emit (e : event) : M unit :=
  fun s => (tt, MkState (trace s ++ [e]) (requests s)).

Definition http_get (w : world) (url : string) : M http_outcome :=
  fun s => (session_get w (requests s) url,
            MkState (trace s ++ [HttpGet url]) (S (requests s))).

(** [time.sleep(seconds)]: a negative argument raises ValueError
    ([None]) and nothing is slept. *)
Definition time_sleep (seconds : Q) : M (option unit) :=
  fun s =>
    if Qle_bool 0 seconds
    then (Some tt, MkState (trace s ++ [Sleep seconds]) (requests s))
    else (None, s).

Declare Scope m_scope.
Delimit Scope m_scope with M.
Notation "'let*' x := m 'in' k" := (bind m (fun x => k))
  (at level 10, x name, m at level 100, k at level 200,
   only parsing) : m_scope.

(** [bool(x)] for an optional string: [None] and [''] are falsy. *)
Definition truthy (o : option string) : bool :=
  match o with
  | Some s => negb (String.eqb s "")
  | None => false
  end.

(** [a or b] on optional strings. *)
Definition or_else (a b : option string) : option string :=
  if truthy a then a else b.

(** *** Citation normaliser *)

Record parsed_entry := MkParsed {
  e_title : string;
  e_authors : list string;
  e_year : Z;
  e_journal : option string;
  e_volume : option string;
  e_pages : option string;
  e_publisher : option string;
  e_doi : option string
}.

(** [int(fields.get('year', 2024))]; [None]: ValueError. *)
Definition year_of_fields (f : gmap string string) : option Z :=
  match f !! "year" with
  | Some y => Py.int_of_str y
  | None => Some 2024%Z
  end.

(** [None] is the [None] the method returns, also from its handler. *)
Definition _parse_bibtex_entry (w : world) (bibtex_str : string)
  : option parsed_entry :=
  match parse_bibtex w bibtex_str with
  | None => None
  | Some [] => None
  | Some (entry :: _) =>
      let authors := default [] (persons_author entry) in
      let f := fields entry in
      match year_of_fields f with
      | None => None
      | Some y =>
          Some (MkParsed (default "" (f !! "title")) authors y
                  (f !! "journal") (f !! "volume") (f !! "pages")
                  (f !! "publisher") (f !! "doi"))
      end
  end.

(** *** BibTeX text *)

Definition LF : ascii := "010"%char.

Fixpoint join (sep : string) (l : list string) : string :=
  match l with
  | [] => ""
  | [x] => x
  | x :: t => x +:+ sep +:+ join sep t
  end.

Definition optional_line (kv : string * option string) : list string :=
  if truthy kv.2 then ["  " +:+ kv.1 +:+ " = {" +:+ default "" kv.2 +:+ "},"]
  else [].

Definition _create_bibtex_entry (entry_type key title : string)
    (authors : list string) (year : Z)
    (kwargs : list (string * option string)) : string :=
  let author_str :=
    match authors with [] => "Unknown" | _ => join " and " authors end in
  let entry_lines :=
    ([ "@" +:+ entry_type +:+ "{" +:+ key +:+ ",";
      if String.eqb title "" then "  title = {Untitled},"
      else "  title = {" +:+ title +:+ "},";
      if String.eqb author_str "" then "  author = {Unknown},"
      else "  author = {" +:+ author_str +:+ "},";
      "  year = {" +:+ Py.str_of_int year +:+ "}," ]
    ++ concat (optional_line <$> kwargs)
    ++ [ "}" ])%list in
  join (String LF "") entry_lines.

(** [(@\w+\{)[^,]+,] *)
Definition key_pattern : regex :=
  Cat (Grp (Cat (lit "@") (Cat (plus wordc) (lit "{"))))
      (Cat (plus (Chr (fun c => negb (Ascii.eqb c ",")))) (lit ",")).

(** The replacement template is [\g<1>], then the key, then a comma.  A
    key without a backslash is copied by the template as it stands, and
    this is what the definition gives.  In a key with a backslash [re]
    would read an escape, a group reference or an error: the definition
    does not say what happens then, and is used for keys without a
    backslash only.  The keys the module passes are generated ones, which
    hold none (lemma [generated_key_has_no_backslash] below). *)
Definition _replace_bibtex_key (bibtex_entry new_key : string) : string :=
  sub key_pattern
      (fun m => default "" (group_1 m) +:+ new_key +:+ ",")
      (Some 1%nat) bibtex_entry.

(** The key a BibTeX text carries, read with the pattern the module
    itself uses to find it: what stands between the first [@type{] and
    the comma that ends the match. *)
Definition embedded_key (bibtex_entry : string) : option string :=
  match search key_pattern bibtex_entry with
  | Some m =>
      match group1 (m_end m) with
      | Some (_, j) => Some (span (m_end m) j (offset (m_end m) - 1))
      | None => None
      end
  | None => None
  end.

(** *** The extractor object and its strategies *)

Record MetadataExtractor := MkExtractor {
  max_retries : Z;
  retry_delay : Q
}.

(** The defaults of [__init__], which every caller in the repository
    keeps. *)
Definition default_extractor : MetadataExtractor := MkExtractor 3 1.

Section Strategies.
Variable w : world.
Variable self : MetadataExtractor.

Local Open Scope m_scope.

(** The body of the [try]; the outer [None] is an exception, which
    the handler turns into a returned [None]. *)
Definition pdf2bib_body (pdf_path : string) (existing_keys : gset string)
  : option (option PaperMetadata) :=
  match pdf2bib_call w pdf_path with
  | Pdf2bibRaises => None
  | Pdf2bibNotDict => Some None
  | Pdf2bibOtherDict => Some None
  | Pdf2bibByPath None => None
  | Pdf2bibDirect pdf_result | Pdf2bibByPath (Some pdf_result) =>
      let identifier := p_identifier pdf_result in
      if negb (truthy identifier) then Some None else
      let identifier_type := default "unknown" (p_identifier_type pdf_result) in
      let bibtex_entry := p_bibtex pdf_result in
      if negb (truthy bibtex_entry) then Some None else
      let bibtex_entry := default "" bibtex_entry in
      match _parse_bibtex_entry w bibtex_entry with
      | None => Some None
      | Some parsed =>
          match generate_bibtex_key (e_authors parsed) (e_year parsed)
                  existing_keys with
          | None => None
          | Some bibtex_key =>
              let bibtex_entry := _replace_bibtex_key bibtex_entry bibtex_key in
              let doi :=
                or_else (e_doi parsed)
                  (if String.eqb identifier_type "doi" then identifier
                   else None) in
              let url_link :=
                if truthy doi then
                  Some ("https://doi.org/" +:+ default "" doi)
                else if String.eqb identifier_type "arxiv" then
                  Some ("https://arxiv.org/abs/" +:+ default "" identifier)
                else p_url pdf_result in
              Some (Some (MkPaper (e_title parsed) (e_authors parsed)
                (e_year parsed) bibtex_key bibtex_entry
                (e_journal parsed) (e_volume parsed) (e_pages parsed)
                doi url_link None (e_publisher parsed) PDF2BIB))
          end
      end
  end.

(** What the method returns, given what the library handed back. *)
Definition pdf2bib_result (pdf_path : string)
    (existing_keys : gset string) : option PaperMetadata :=
  default None (pdf2bib_body pdf_path existing_keys).

Definition _get_metadata_from_pdf2bib (pdf_path : string)
    (existing_keys : gset string) : M (option PaperMetadata) :=
  let* _ := emit (Pdf2bibCall pdf_path) in
  ret (pdf2bib_result pdf_path existing_keys).

Definition crossref_url (doi : string) : string :=
  "https://api.crossref.org/works/" +:+ doi
    +:+ "/transform/application/x-bibtex".

(** [retry_delay * (2 ** attempt)], as an exact number: the float product
    is this number as long as [2 ** attempt] is a float and the delay is
    a finite one. *)
Definition backoff (attempt : nat) : Q :=
  (retry_delay self * inject_Z (2 ^ Z.of_nat attempt))%Q.

(** The record built on status 200 when the text parses; the outer
    [None] is an exception, which this method does not handle. *)
Definition crossref_record (doi bibtex_entry : string)
    (parsed : parsed_entry) (existing_keys : gset string)
  : option PaperMetadata :=
  bibtex_key ← generate_bibtex_key (e_authors parsed) (e_year parsed)
                 existing_keys;
  let bibtex_entry := _replace_bibtex_key bibtex_entry bibtex_key in
  let url_link := "https://doi.org/" +:+ doi in
  Some (MkPaper (e_title parsed) (e_authors parsed) (e_year parsed)
          bibtex_key bibtex_entry
          (e_journal parsed) (e_volume parsed) (e_pages parsed)
          (Some doi) (Some url_link) None (e_publisher parsed) CROSSREF).

(** The [for attempt in range(self.max_retries)] loop over the attempt
    numbers still to come.  The outer [None] of the result is an
    exception leaving the method. *)
Fixpoint crossref_loop (doi : string) (existing_keys : gset string)
    (attempts : list nat) : M (option (option PaperMetadata)) :=
  match attempts with
  | [] => ret (Some None)
  | attempt :: rest =>
      let* response := http_get w (crossref_url doi) in
      match response with
      | Response status_code text =>
          if (status_code =? 200)%Z then
            match _parse_bibtex_entry w text with
            | Some parsed =>
                ret (Some <$> crossref_record doi text parsed existing_keys)
            | None => crossref_loop doi existing_keys rest
            end
          else if (status_code =? 404)%Z then ret (Some None)
          else crossref_loop doi existing_keys rest
      | RequestException =>
          if (Z.of_nat attempt <? max_retries self - 1)%Z then
            let* slept := time_sleep (backoff attempt) in
            match slept with
            | Some _ => crossref_loop doi existing_keys rest
            | None => ret None
            end
          else crossref_loop doi existing_keys rest
      end
  end.

Definition _get_metadata_from_crossref (doi : string)
    (existing_keys : gset string) : M (option (option PaperMetadata)) :=
  crossref_loop doi existing_keys (seq 0 (Z.to_nat (max_retries self))).

Definition arxiv_url (arxiv_id : string) : string :=
  "http://export.arxiv.org/api/query?id_list=" +:+ arxiv_id.

Definition arxiv_abs (arxiv_id : string) : string :=
  "https://arxiv.org/abs/" +:+ arxiv_id.

(** [published[:4]] *)
Definition first4 (s : string) : string := Py.of_list (take 4 (Py.to_list s)).

(** The body of the [try] once the response is there. *)
Definition arxiv_body (arxiv_id : string) (response : http_outcome)
    (existing_keys : gset string) : option (option PaperMetadata) :=
  match response with
  | RequestException => None
  | Response status_code content =>
      if (status_code =? 200)%Z then
        feed ← arxiv_feed w content;
        match feed with
        | None => Some None
        | Some entry =>
            title ← Py.strip <$> a_title entry;
            authors ← a_authors entry;
            published ← a_published entry;
            year ← Py.int_of_str (first4 published);
            abstract ← Py.strip <$> a_summary entry;
            bibtex_key ← generate_bibtex_key authors year existing_keys;
            let bibtex_entry :=
              _create_bibtex_entry "article" bibtex_key title authors year
                [("journal", Some "arXiv preprint");
                 ("url", Some (arxiv_abs arxiv_id))] in
            Some (Some (MkPaper title authors year bibtex_key bibtex_entry
              (Some "arXiv preprint") None None None
              (Some (arxiv_abs arxiv_id)) (Some abstract) None ARXIV))
        end
      else Some None
  end.

Definition _get_metadata_from_arxiv (arxiv_id : string)
    (existing_keys : gset string) : M (option PaperMetadata) :=
  let* response := http_get w (arxiv_url arxiv_id) in
  ret (default None (arxiv_body arxiv_id response existing_keys)).

Definition _get_metadata_from_pubmed (pmid : string)
    (existing_keys : gset string) : option PaperMetadata := None.

(** [metadata['creationDate'][2:6]] *)
Definition slice_2_6 (s : string) : string :=
  Py.of_list (take 4 (drop 2 (Py.to_list s))).

Definition pdf_metadata_body (pdf_path : string)
    (existing_keys : gset string) : option (option PaperMetadata) :=
  metadata ← fitz_metadata w pdf_path;
  match metadata with
  | None => Some None
  | Some metadata =>
      let title := d_title metadata in
      let author := d_author metadata in
      let year :=
        if truthy (d_creationDate metadata) then
          Py.int_of_str (slice_2_6 (default "" (d_creationDate metadata)))
        else None in
      match year with
      | Some year =>
          if truthy title && truthy author && negb (year =? 0)%Z then
            let title := default "" title in
            let authors := [default "" author] in
            bibtex_key ← generate_bibtex_key authors year existing_keys;
            let bibtex_entry :=
              _create_bibtex_entry "article" bibtex_key title authors year
                [] in
            Some (Some (MkPaper title authors year bibtex_key bibtex_entry
              None None None None None None None PDF_METADATA))
          else Some None
      | None => Some None
      end
  end.

Definition _extract_from_pdf_metadata (pdf_path : string)
    (existing_keys : gset string) : option PaperMetadata :=
  default None (pdf_metadata_body pdf_path existing_keys).

(** [\b(19|20)\d{2}\b] *)
Definition year_pattern : regex :=
  Cat WordB (Cat (Grp (Alt (str "19") (str "20")))
                 (Cat (exactly 2 digit) WordB)).

(** No handler here: [None] is an exception leaving the method. *)
Definition _parse_metadata_from_text (text pdf_path : string)
    (existing_keys : gset string) : option PaperMetadata :=
  let lines := Py.split LF text in
  title ← match lines with
          | [] => Some (Py.path_stem pdf_path)
          | _ => lines !! 0%nat
          end;
  let year_match := search year_pattern text in
  year ← match year_match with
         | Some m => Py.int_of_str (group0 m)
         | None => Some 2024%Z
         end;
  let authors := ["Unknown"] in
  bibtex_key ← generate_bibtex_key authors year existing_keys;
  let bibtex_entry :=
    _create_bibtex_entry "article" bibtex_key title authors year [] in
  Some (MkPaper title authors year bibtex_key bibtex_entry
          None None None None None None None PARSED).

(** *** The orchestrator

    [attempt m run next] is the recurring shape
    [metadata = strategy(...); if metadata: return metadata], with the
    entry into the strategy and its outcome put on the trace.  The
    outer [None] of a result is an exception leaving [extract_metadata]. *)
Definition attempt (m : ExtractionMethod)
    (run : M (option (option PaperMetadata)))
    (next : M (option PaperMetadata)) : M (option PaperMetadata) :=
  let* _ := emit (Call m) in
  let* metadata := run in
  match metadata with
  | None => ret None
  | Some (Some metadata) =>
      let* _ := emit (Return m true) in ret (Some metadata)
  | Some None =>
      let* _ := emit (Return m false) in next
  end.

Section Cascade.
Variable pdf_path : string.
Variable first_pages_text : option string.
Variable existing_keys : gset string.

(** Strategy 1 *)
Definition try_pdf2bib (next : M (option PaperMetadata)) :=
  if PDF2BIB_AVAILABLE w then
    attempt PDF2BIB
      (let* r := _get_metadata_from_pdf2bib pdf_path existing_keys in
       ret (Some r))
      next
  else next.

(** Strategy 2 *)
Definition try_crossref (next : M (option PaperMetadata)) :=
  if truthy first_pages_text then
    let doi := extract_doi_from_text (default "" first_pages_text) in
    if truthy doi then
      attempt CROSSREF
        (_get_metadata_from_crossref (default "" doi) existing_keys)
        next
    else next
  else next.

(** Strategy 3 *)
Definition try_arxiv (next : M (option PaperMetadata)) :=
  if truthy first_pages_text then
    let arxiv_id :=
      extract_arxiv_id_from_text (default "" first_pages_text) in
    if truthy arxiv_id then
      attempt ARXIV
        (let* r := _get_metadata_from_arxiv (default "" arxiv_id)
                     existing_keys in ret (Some r))
        next
    else next
  else next.

(** Strategy 4 *)
Definition try_pubmed (next : M (option PaperMetadata)) :=
  if truthy first_pages_text then
    let pmid :=
      extract_pubmed_id_from_text (default "" first_pages_text) in
    if truthy pmid then
      attempt PUBMED
        (ret (Some (_get_metadata_from_pubmed (default "" pmid)
                      existing_keys)))
        next
    else next
  else next.

(** Strategy 5 *)
Definition try_pdf_metadata (next : M (option PaperMetadata)) :=
  attempt PDF_METADATA
    (ret (Some (_extract_from_pdf_metadata pdf_path existing_keys)))
    next.

(** Strategy 6: whatever it returns is returned. *)
Definition parse_text : M (option PaperMetadata) :=
  let* _ := emit (Call PARSED) in
  match _parse_metadata_from_text
          (default "" (or_else first_pages_text (Some "")))
          pdf_path existing_keys with
  | Some metadata =>
      let* _ := emit (Return PARSED true) in ret (Some metadata)
  | None => ret None
  end.

Definition cascade : M (option PaperMetadata) :=
  try_pdf2bib (try_crossref (try_arxiv (try_pubmed
    (try_pdf_metadata parse_text)))).
End Cascade.

Definition extract_metadata (pdf_path : string)
    (first_pages_text : option string)
    (existing_keys : option (gset string)) : M (option PaperMetadata) :=
  let existing_keys := default ∅ existing_keys in
  cascade pdf_path first_pages_text existing_keys.

End Strategies.

Definition start : state := MkState [] 0.

(** The strategies entered, in order, and their outcomes. *)
Definition calls (tr : list event) : list ExtractionMethod :=
  omap (fun e => match e with Call m => Some m | _ => None end) tr.

Definition outcomes (tr : list event) : list (ExtractionMethod * bool) :=
  omap (fun e => match e with Return m b => Some (m, b) | _ => None end) tr.

Definition gets (tr : list event) : list string :=
  omap (fun e => match e with HttpGet u => Some u | _ => None end) tr.


End Extractor.

(** * Properties *)

Import Re Extractor.
Local Open Scope list_scope.

(** ** The citation key generator *)

Section KeyGenerator.
Implicit Types (base key : string) (E : gset string).

Definition suffixed (base : string) (c : ascii) : string :=
  base +:+ String c "".

(** The keys the loop can test, in the order it tests them: the base
    key, then the base key with one of [a] .. [y]. *)
Definition tested_letters : list ascii :=
  Py.to_list "abcdefghijklmnopqrstuvwxy".

Definition candidates (base : string) : list string :=
  base :: (suffixed base <$> tested_letters).

Definition free (E : gset string) (key : string) : bool :=
  bool_decide (key ∉ E).

(** [existing_keys] made of a base key and its 26 lettered variants. *)
Definition all_letters : list ascii :=
  Py.to_list "abcdefghijklmnopqrstuvwxyz".

Definition exhausted (base : string) : gset string :=
  list_to_set (base :: (suffixed base <$> all_letters)).

Lemma last_name_of_total first_author :
  is_Some (last_name_of first_author).
Proof.
  unfold last_name_of. destruct (Py.contains _ _).
  - unfold Py.split. generalize (@nil ascii).
    induction (Py.to_list first_author) as [|c t IH]; intros cur; simpl.
    + eauto.
    + destruct (Ascii.eqb c ","); simpl; eauto.
  - destruct (Py.split_ws first_author) as [|p ps] eqn:E; [eauto|].
    unfold Py.last_item. rewrite last_is_Some. done.
Qed.

Lemma base_key_of_total authors year :
  is_Some (base_key_of authors year).
Proof.
  destruct authors as [|a l]; simpl; [eauto|].
  destruct (last_name_of_total a) as [n ->]. simpl. eauto.
Qed.

Lemma collision_loop_free E base fuel key suffix :
  key ∉ E → collision_loop E base fuel key suffix = Some key.
Proof. intros H. destruct fuel; simpl; case_decide; done. Qed.

(** The loop in closed form: with [n] letters left before [z] and at
    least that much fuel, it returns the first free key among the one
    in hand and the [n] next lettered ones, and the count-based key when
    none is free. *)
Lemma collision_loop_find E base n :
  ∀ (fuel : nat) key suffix,
    (suffix + Z.of_nat n = 122)%Z → (n ≤ fuel)%nat →
    collision_loop E base fuel key suffix =
    Some (default (fallback_key base E)
            (find (free E)
               (key :: ((λ i, suffixed base (Py.chr i))
                          <$> seqZ suffix (Z.of_nat n))))).
Proof.
  induction n as [|n IH]; intros fuel key suffix Hs Hf.
  - assert (suffix = 122%Z) as -> by lia.
    destruct fuel; simpl; unfold free; case_decide;
      rewrite ?bool_decide_eq_true_2, ?bool_decide_eq_false_2 by tauto;
      done.
  - destruct fuel as [|fuel]; [lia|].
    rewrite seqZ_cons by lia. simpl.
    unfold free at 1. case_decide.
    + rewrite bool_decide_eq_false_2 by tauto.
      assert ((suffix + 1 >? Py.ord "z")%Z = false) as ->.
      { change (Py.ord "z") with 122%Z. rewrite Z.gtb_ltb.
        apply Z.ltb_ge. lia. }
      rewrite (IH fuel _ (suffix + 1)%Z) by lia.
      replace (Z.succ suffix) with (suffix + 1)%Z by lia.
      replace (Z.pred (Z.of_nat (S n))) with (Z.of_nat n) by lia.
      reflexivity.
    + rewrite bool_decide_eq_true_2 by tauto. done.
Qed.

Lemma resolve_collisions_find base E :
  resolve_collisions base E =
  Some (default (fallback_key base E) (find (free E) (candidates base))).
Proof.
  unfold resolve_collisions.
  rewrite (collision_loop_find E base 25) by (change (Py.ord "a") with 97%Z; lia).
  reflexivity.
Qed.

Lemma generate_bibtex_key_find authors year E base :
  base_key_of authors year = Some base →
  generate_bibtex_key authors year E =
  Some (default (fallback_key base E) (find (free E) (candidates base))).
Proof.
  intros H. unfold generate_bibtex_key. rewrite H. simpl.
  apply resolve_collisions_find.
Qed.

(** The loop always ends with a key: the fuel given is never used up. *)
Lemma generate_bibtex_key_total authors year E :
  is_Some (generate_bibtex_key authors year E).
Proof.
  destruct (base_key_of_total authors year) as [base H].
  rewrite (generate_bibtex_key_find _ _ _ _ H). eauto.
Qed.

(** A key that is not the count-based one is not in [existing_keys]. *)
Lemma generate_bibtex_key_fresh authors year E base key :
  base_key_of authors year = Some base →
  generate_bibtex_key authors year E = Some key →
  key ≠ fallback_key base E → key ∉ E.
Proof.
  intros Hb Hk Hne. rewrite (generate_bibtex_key_find _ _ _ _ Hb) in Hk.
  destruct (find (free E) (candidates base)) as [k|] eqn:F; simpl in Hk.
  - apply find_some in F as [_ F]. unfold free in F.
    apply bool_decide_eq_true in F. congruence.
  - congruence.
Qed.

End KeyGenerator.

Section KeyGeneratorClaims.

Lemma string_length_app (s1 s2 : string) :
  String.length (s1 +:+ s2) = (String.length s1 + String.length s2)%nat.
Proof. induction s1 as [|c s1 IH]; simpl; [done | by rewrite IH]. Qed.

Lemma suffixed_inj base : Inj (=) (=) (suffixed base).
Proof.
  intros c1 c2 H. unfold suffixed in H.
  apply (inj (String.append base)) in H. congruence.
Qed.

Lemma suffixed_ne_base base c : suffixed base c ≠ base.
Proof.
  intros H. apply (f_equal String.length) in H.
  unfold suffixed in H. rewrite string_length_app in H. simpl in H. lia.
Qed.

Lemma exhausted_NoDup base :
  NoDup (base :: (suffixed base <$> all_letters)).
Proof.
  apply NoDup_cons. split.
  - intros [c [H _]]%list_elem_of_fmap. by eapply suffixed_ne_base.
  - apply NoDup_fmap_2; [apply suffixed_inj|].
    apply (bool_decide_unpack _). by vm_compute.
Qed.

Lemma size_exhausted base : size (exhausted base) = 27%nat.
Proof.
  unfold exhausted. rewrite size_list_to_set by apply exhausted_NoDup.
  reflexivity.
Qed.

Lemma find_none_intro {A} (f : A → bool) (l : list A) :
  (∀ x, x ∈ l → f x = false) → find f l = None.
Proof.
  induction l as [|a l IH]; intros H; simpl; [done|].
  rewrite (H a) by left. apply IH. intros x Hx. apply H. by right.
Qed.

Lemma candidates_exhausted base key :
  key ∈ candidates base → key ∈ exhausted base.
Proof.
  unfold candidates, exhausted. rewrite elem_of_list_to_set.
  rewrite !elem_of_cons, !list_elem_of_fmap.
  intros [-> | (c & -> & Hc)]; [by left|right].
  exists c. split; [done|].
  revert c Hc. apply Forall_forall.
  apply (bool_decide_unpack _). by vm_compute.
Qed.

(** C5. When [existing_keys] is a base key together with its 26 lettered
    variants [base+a] .. [base+z] (27 keys), the generator returns
    [base + "_" + "27"] for authors and a year with that base key: the
    count-based key, not a further letter. *)
Theorem collision_exhaustion_returns_count_key authors year :
  ∃ base,
    base_key_of authors year = Some base
    ∧ size (exhausted base) = 27%nat
    ∧ generate_bibtex_key authors year (exhausted base)
      = Some (base +:+ "_" +:+ "27").
Proof.
  destruct (base_key_of_total authors year) as [base Hb].
  exists base. split; [done|]. split; [apply size_exhausted|].
  rewrite (generate_bibtex_key_find _ _ _ _ Hb).
  rewrite find_none_intro.
  - simpl. unfold fallback_key. by rewrite size_exhausted.
  - intros key Hk. unfold free. apply bool_decide_eq_false_2.
    intros Hn. apply Hn. by apply candidates_exhausted.
Qed.

(** A base key and its variants [a] .. [y]: 26 keys, [z] still free. *)
Definition letters_to_y : gset string :=
  list_to_set (candidates "Smith2024").

(** C4, at the input where it fails.  With [Smith2024] and
    [Smith2024a] .. [Smith2024y] taken and [Smith2024z] free, the
    generator does not return [Smith2024z]: it returns the count-based
    key [Smith2024_26]. *)
Theorem letter_z_is_never_returned :
  ("Smith2024z" ∉ letters_to_y)
  ∧ generate_bibtex_key ["Smith"] 2024 letters_to_y = Some "Smith2024_26".
Proof.
  split.
  - apply (bool_decide_unpack _). by vm_compute.
  - by vm_compute.
Qed.

(** The same 26 keys and the count-based key for 27 entries. *)
Definition with_count_key : gset string :=
  letters_to_y ∪ {["Smith2024_27"]}.

(** C1, at the input where it fails.  The key returned is already in
    [existing_keys]; adding it changes nothing, so the next call returns
    the same key again. *)
Theorem count_key_can_collide :
  generate_bibtex_key ["Smith"] 2024 with_count_key = Some "Smith2024_27"
  ∧ "Smith2024_27" ∈ with_count_key
  ∧ generate_bibtex_key ["Smith"] 2024 (with_count_key ∪ {["Smith2024_27"]})
    = Some "Smith2024_27".
Proof.
  split; [by vm_compute|]. split; [|by vm_compute].
  apply (bool_decide_unpack _). by vm_compute.
Qed.

End KeyGeneratorClaims.

(** ** The matcher against a declarative reading of the patterns *)

Section Matcher.

(** [matches r s e]: the pattern [r] can match from position [s] to
    position [e].  A repetition only counts rounds that consume input,
    as the engine does. *)
Inductive matches : regex → pos → pos → Prop :=
| M_eps s : matches Eps s s
| M_chr p c t b g :
    p c = true → matches (Chr p) (MkPos b (c :: t) g) (MkPos (c :: b) t g)
| M_cat r1 r2 s s1 s2 :
    matches r1 s s1 → matches r2 s1 s2 → matches (Cat r1 r2) s s2
| M_alt_l r1 r2 s e : matches r1 s e → matches (Alt r1 r2) s e
| M_alt_r r1 r2 s e : matches r2 s e → matches (Alt r1 r2) s e
| M_star_0 r s : matches (Star r) s s
| M_star_S r s s1 e :
    matches r s s1 → (length (after s1) < length (after s))%nat →
    matches (Star r) s1 e → matches (Star r) s e
| M_bol s : before s = [] → matches Bol s s
| M_wordb s : at_boundary s = true → matches WordB s s
| M_grp r s e :
    matches r s e →
    matches (Grp r) s (MkPos (before e) (after e) (Some (offset s, offset e))).

Lemma star_run_sound {A} (step : pos → (pos → option A) → option A) r :
  (∀ s k x, step s k = Some x → ∃ e, matches r s e ∧ k e = Some x) →
  ∀ fuel s k x,
    star_run step fuel s k = Some x →
    ∃ e, matches (Star r) s e ∧ k e = Some x.
Proof.
  intros Hstep. induction fuel as [|fuel IH]; intros s k x H; simpl in H.
  - exists s. split; [constructor | done].
  - destruct (step s _) as [y|] eqn:Hs.
    + injection H as ->. apply Hstep in Hs as (s1 & Hm & Hk).
      destruct (_ <? _)%nat eqn:Hlt; [|done].
      apply Nat.ltb_lt in Hlt.
      apply IH in Hk as (e & He & Hk). exists e. split; [|done].
      by eapply M_star_S.
    + exists s. split; [constructor | done].
Qed.

Lemma star_run_complete {A} (step : pos → (pos → option A) → option A) r :
  (∀ s k, step s k = None → ∀ e, matches r s e → k e = None) →
  ∀ fuel s k,
    (length (after s) ≤ fuel)%nat →
    star_run step fuel s k = None →
    ∀ e, matches (Star r) s e → k e = None.
Proof.
  intros Hstep. induction fuel as [|fuel IH]; intros s k Hlen H e He;
    simpl in H.
  - inversion He; subst; [done | lia].
  - destruct (step s _) as [y|] eqn:Hs; [done|].
    inversion He as [| | | | | |r' s' s1 e' Hm Hlt Hrest| | |]; subst;
      [done|].
    specialize (Hstep _ _ Hs _ Hm). simpl in Hstep.
    apply Nat.ltb_lt in Hlt as Hlt'. rewrite Hlt' in Hstep.
    eapply IH; [|exact Hstep|exact Hrest]. lia.
Qed.

Lemma run_sound {A} r :
  ∀ s (k : pos → option A) x,
    run r s k = Some x → ∃ e, matches r s e ∧ k e = Some x.
Proof.
  induction r as [|p|r1 IH1 r2 IH2|r1 IH1 r2 IH2|r IH| | |r IH];
    intros s k x H; simpl in H.
  - exists s. split; [constructor | done].
  - destruct s as [b [|c t] g]; simpl in H; [done|].
    destruct (p c) eqn:Hp; [|done].
    eexists. split; [by constructor | done].
  - apply IH1 in H as (s1 & H1 & H). apply IH2 in H as (e & H2 & H).
    exists e. split; [by econstructor | done].
  - destruct (run r1 s k) as [y|] eqn:H1.
    + injection H as ->. apply IH1 in H1 as (e & H1 & H).
      exists e. split; [by apply M_alt_l | done].
    + apply IH2 in H as (e & H2 & H).
      exists e. split; [by apply M_alt_r | done].
  - eapply star_run_sound; eauto.
  - destruct (before s) eqn:Hb; [|done].
    exists s. split; [by constructor | done].
  - destruct (at_boundary s) eqn:Hb; [|done].
    exists s. split; [by constructor | done].
  - apply IH in H as (e & He & H).
    eexists. split; [by apply M_grp | done].
Qed.

Lemma run_complete {A} r :
  ∀ s (k : pos → option A),
    run r s k = None → ∀ e, matches r s e → k e = None.
Proof.
  induction r as [|p|r1 IH1 r2 IH2|r1 IH1 r2 IH2|r IH| | |r IH];
    intros s k H e He; simpl in H.
  - by inversion He; subst.
  - inversion He as [|p' c t b g Hp| | | | | | | |]; subst; simpl in H.
    by rewrite Hp in H.
  - inversion He as [| |r1' r2' s' s1 s2 H1 H2| | | | | | |]; subst.
    specialize (IH1 _ _ H _ H1). simpl in IH1. by eapply IH2.
  - destruct (run r1 s k) eqn:H1; [done|].
    inversion He; subst; eauto.
  - eapply star_run_complete; eauto.
  - inversion He as [| | | | | | |s' Hb| |]; subst. by rewrite Hb in H.
  - inversion He as [| | | | | | | |s' Hb|]; subst. by rewrite Hb in H.
  - inversion He as [| | | | | | | | |r' s' e' Hm]; subst.
    by apply (IH _ _ H _ Hm).
Qed.

(** A match only moves forward over the subject. *)
Lemma matches_consumed r s e :
  matches r s e →
  ∃ l, after s = l ++ after e ∧ before e = rev l ++ before s.
Proof.
  induction 1 as [s|p c t b g Hp|r1 r2 s s1 s2 _ IH1 _ IH2
                  |r1 r2 s e _ IH|r1 r2 s e _ IH|r s
                  |r s s1 e _ IH1 _ _ IH2|s _|s _|r s e _ IH]; simpl.
  - by exists [].
  - by exists [c].
  - destruct IH1 as (l1 & A1 & B1), IH2 as (l2 & A2 & B2).
    exists (l1 ++ l2). rewrite A1, A2, B2, B1, rev_app_distr.
    by rewrite !app_assoc.
  - done.
  - done.
  - by exists [].
  - destruct IH1 as (l1 & A1 & B1), IH2 as (l2 & A2 & B2).
    exists (l1 ++ l2). rewrite A1, A2, B2, B1, rev_app_distr.
    by rewrite !app_assoc.
  - by exists [].
  - by exists [].
  - done.
Qed.

(** The positions [re.search] tries from [(bef, aft)]: [l] more
    characters moved from the front of [aft] onto [bef]. *)
Definition later (bef aft bef' aft' : list ascii) : Prop :=
  ∃ l, aft = l ++ aft' ∧ bef' = rev l ++ bef.

Lemma later_refl bef aft : later bef aft bef aft.
Proof. exists (@nil ascii). split; reflexivity. Qed.

Lemma later_step c bef aft bef' aft' :
  later (c :: bef) aft bef' aft' → later bef (c :: aft) bef' aft'.
Proof.
  intros (l & -> & ->). exists (c :: l). split; [done|].
  simpl. by rewrite <- app_assoc.
Qed.

Lemma later_inv c bef aft bef' aft' :
  later bef (c :: aft) bef' aft' →
  (bef' = bef ∧ aft' = c :: aft) ∨ later (c :: bef) aft bef' aft'.
Proof.
  intros ([|c' l] & Ha & ->); simpl in *.
  - left. by subst aft'.
  - right. injection Ha as <- ->. exists l. split; [done|].
    by rewrite <- app_assoc.
Qed.

Lemma later_length bef aft bef' aft' :
  later bef aft bef' aft' → (length bef ≤ length bef')%nat.
Proof. intros (l & -> & ->). rewrite length_app. lia. Qed.

Lemma search_from_sound r :
  ∀ aft bef m,
    search_from r bef aft = Some m →
    ∃ bef' aft',
      later bef aft bef' aft'
      ∧ m_start m = length bef'
      ∧ matches r (MkPos bef' aft' None) (m_end m)
      ∧ (∀ b a, later bef aft b a → (length b < length bef')%nat →
                run r (MkPos b a None) Some = None).
Proof.
  induction aft as [|c t IH]; intros bef m H; simpl in H.
  - destruct (run r _ Some) as [e|] eqn:Hr; [|done].
    injection H as <-. apply run_sound in Hr as (e' & He & [= ->]).
    exists bef, []. split; [apply later_refl|]. split; [done|].
    split; [done|]. intros b a Hl%later_length Hlt. lia.
  - destruct (run r _ Some) as [e|] eqn:Hr.
    + injection H as <-. apply run_sound in Hr as (e' & He & [= ->]).
      exists bef, (c :: t). split; [apply later_refl|]. split; [done|].
      split; [done|]. intros b a Hl%later_length Hlt. lia.
    + apply IH in H as (bef' & aft' & Hl & Hs & Hm & Hleft).
      exists bef', aft'. split; [by apply later_step|].
      split; [done|]. split; [done|].
      intros b a [[-> ->]|Hb]%later_inv Hlt; [done|].
      by apply Hleft.
Qed.

Lemma search_from_complete r :
  ∀ aft bef,
    search_from r bef aft = None →
    ∀ bef' aft' e,
      later bef aft bef' aft' → ¬ matches r (MkPos bef' aft' None) e.
Proof.
  induction aft as [|c t IH]; intros bef H bef' aft' e Hl He;
    simpl in H.
  - destruct (run r _ Some) as [x|] eqn:Hr; [done|].
    destruct Hl as (l & Ha & ->).
    symmetry in Ha. apply app_eq_nil in Ha as [-> ->]. simpl in He.
    by apply (run_complete _ _ _ Hr) in He.
  - destruct (run r _ Some) as [x|] eqn:Hr; [done|].
    apply later_inv in Hl as [[-> ->]|Hl].
    + by apply (run_complete _ _ _ Hr) in He.
    + by eapply (IH _ H).
Qed.

(** Patterns without a group leave group 1 as it is. *)
Fixpoint no_group (r : regex) : bool :=
  match r with
  | Eps | Chr _ | Bol | WordB => true
  | Cat r1 r2 | Alt r1 r2 => no_group r1 && no_group r2
  | Star r1 => no_group r1
  | Grp _ => false
  end.

Lemma matches_group_kept r s e :
  matches r s e → no_group r = true → group1 e = group1 s.
Proof.
  induction 1 as [s|p c t b g Hp|r1 r2 s s1 s2 _ IH1 _ IH2
                  |r1 r2 s e _ IH|r1 r2 s e _ IH|r s
                  |r s s1 e _ IH1 _ _ IH2|s _|s _|r s e _ IH]; simpl;
    try done.
  - intros [H1 H2]%andb_true_iff. by rewrite IH2, IH1.
  - intros [H1 H2]%andb_true_iff. by apply IH.
  - intros [H1 H2]%andb_true_iff. by apply IH.
  - intros Hr. by rewrite IH2, IH1.
Qed.

Lemma later_trans bef aft bef1 aft1 bef2 aft2 :
  later bef aft bef1 aft1 → later bef1 aft1 bef2 aft2 →
  later bef aft bef2 aft2.
Proof.
  intros (l1 & -> & ->) (l2 & -> & ->). exists (l1 ++ l2).
  by rewrite rev_app_distr, <- !app_assoc.
Qed.

(** A match over a pattern without groups, started with group 1 unset,
    ends at a position the search also tries. *)
Lemma matches_later r bef aft e :
  matches r (MkPos bef aft None) e → no_group r = true →
  e = MkPos (before e) (after e) None ∧ later bef aft (before e) (after e).
Proof.
  intros Hm Hg. pose proof (matches_group_kept _ _ _ Hm Hg) as Hk.
  apply matches_consumed in Hm as (l & Ha & Hb). simpl in *.
  destruct e as [b a g]. simpl in *. subst g. split; [done|].
  by exists l.
Qed.

End Matcher.

Ltac inv_matches :=
  repeat match goal with
    | H : matches (Cat _ _) _ _ |- _ => inversion H; subst; clear H
    | H : matches (Alt _ _) _ _ |- _ => inversion H; subst; clear H
    | H : matches (Chr _) _ _ |- _ => inversion H; subst; clear H
    | H : matches (Grp _) _ _ |- _ => inversion H; subst; clear H
    | H : matches Eps _ _ |- _ => inversion H; subst; clear H
    | H : matches WordB _ _ |- _ => inversion H; subst; clear H
    | H : matches Bol _ _ |- _ => inversion H; subst; clear H
    end.


(** ** The text heuristic *)

Section TextHeuristic.

(** The first line of a text: what stands before the first line feed. *)
Fixpoint up_to (sep : ascii) (l : list ascii) : list ascii :=
  match l with
  | [] => []
  | c :: t => if Ascii.eqb c sep then [] else c :: up_to sep t
  end.

Definition first_line (text : string) : string :=
  Py.of_list (up_to LF (Py.to_list text)).

(** A four-digit token starting with 19 or 20: four such digits with no
    word character on either side.  [bef] are the characters before it,
    nearest first. *)
Definition century (c1 c2 : ascii) : bool :=
  Ascii.eqb c1 "1" && Ascii.eqb c2 "9" || Ascii.eqb c1 "2" && Ascii.eqb c2 "0".

Definition year_token_at (bef aft : list ascii) : option Z :=
  match aft with
  | c1 :: c2 :: c3 :: c4 :: rest =>
      if negb (word_at bef) && century c1 c2 && Py.isdecimal c3
         && Py.isdecimal c4 && negb (word_at rest)
      then Some (1000 * Py.digit_val c1 + 100 * Py.digit_val c2
                 + 10 * Py.digit_val c3 + Py.digit_val c4)%Z
      else None
  | _ => None
  end.

Fixpoint first_year_token_from (bef aft : list ascii) : option Z :=
  match year_token_at bef aft with
  | Some y => Some y
  | None =>
      match aft with
      | [] => None
      | c :: t => first_year_token_from (c :: bef) t
      end
  end.

Definition first_year_token (text : string) : option Z :=
  first_year_token_from [] (Py.to_list text).

Lemma to_list_of_list l : Py.to_list (Py.of_list l) = l.
Proof. apply list_ascii_of_string_of_list_ascii. Qed.

Lemma of_list_to_list s : Py.of_list (Py.to_list s) = s.
Proof. apply string_of_list_ascii_of_string. Qed.

Lemma split_on_head sep :
  ∀ l cur,
    Py.split_on sep cur l !! 0%nat = Some (Py.of_list (rev cur ++ up_to sep l)).
Proof.
  induction l as [|c t IH]; intros cur; simpl.
  - by rewrite app_nil_r.
  - destruct (Ascii.eqb c sep); simpl.
    + by rewrite app_nil_r.
    + rewrite IH. simpl. by rewrite <- app_assoc.
Qed.

Lemma split_first_line text :
  Py.split LF text !! 0%nat = Some (first_line text).
Proof. apply split_on_head. Qed.

(** What [m.group(0)] is, from the characters the match went over. *)
Lemma group0_consumed bef l e :
  before e = rev l ++ bef →
  group0 (MkMatch (length bef) e) = Py.of_list l.
Proof.
  intros H. unfold group0, span, offset. simpl. rewrite H.
  rewrite rev_app_distr, rev_involutive, <- app_assoc.
  rewrite length_app, length_rev.
  replace (length l + length bef - length bef)%nat with (length l) by lia.
  rewrite <- (length_rev bef) at 1. rewrite drop_app_length.
  by rewrite take_app_length.
Qed.

Lemma decimal_isword c : Py.isdecimal c = true → isword c = true.
Proof. intros H. unfold isword, Py.isalnum. by rewrite H. Qed.

Lemma year_match_inv bef aft e :
  matches year_pattern (MkPos bef aft None) e →
  ∃ c1 c2 c3 c4 rest,
    aft = c1 :: c2 :: c3 :: c4 :: rest
    ∧ before e = rev [c1; c2; c3; c4] ++ bef
    ∧ negb (word_at bef) && century c1 c2 && Py.isdecimal c3
      && Py.isdecimal c4 && negb (word_at rest) = true.
Proof.
  intros H.
  cbv [year_pattern str lits lit digit exactly Py.to_list
       list_ascii_of_string] in H.
  inv_matches.
  all: repeat match goal with
      | H : Ascii.eqb _ _ = true |- _ => apply Ascii.eqb_eq in H; subst
      end.
  all: simpl in *; simplify_eq.
  all: do 5 eexists; (split; [reflexivity|]); (split; [reflexivity|]).
  all: unfold at_boundary in *; simpl in *.
  all: repeat match goal with
      | H : Py.isdecimal ?c = true |- _ =>
          pose proof (decimal_isword c H) as Hw;
          rewrite ?Hw in *; rewrite H; clear H Hw
      end.
  all: change (isword "1") with true in *;
    change (isword "2") with true in *.
  all: repeat match goal with
      | H : xorb _ _ = true |- _ => revert H
      end.
  all: repeat match goal with
      | |- context [word_at ?x] => generalize (word_at x)
      end.
  all: by intros [] [].
Qed.

Lemma year_match_intro bef c1 c2 c3 c4 rest :
  negb (word_at bef) && century c1 c2 && Py.isdecimal c3
    && Py.isdecimal c4 && negb (word_at rest) = true →
  ∃ e, matches year_pattern (MkPos bef (c1 :: c2 :: c3 :: c4 :: rest) None) e.
Proof.
  rewrite !andb_true_iff, !negb_true_iff.
  intros [[[[Hb Hc] H3] H4] Hr].
  assert (isword c1 = true ∧
          matches (Alt (str "19") (str "20"))
            (MkPos bef (c1 :: c2 :: c3 :: c4 :: rest) None)
            (MkPos (c2 :: c1 :: bef) (c3 :: c4 :: rest) None))
    as [Hw1 Hcent].
  { unfold century in Hc.
    apply orb_true_iff in Hc as [Hc|Hc];
      apply andb_true_iff in Hc as [->%Ascii.eqb_eq ->%Ascii.eqb_eq];
      (split; [done|]); [apply M_alt_l | apply M_alt_r];
      (eapply M_cat; apply M_chr; reflexivity). }
  eexists. unfold year_pattern.
  eapply M_cat.
  { apply M_wordb. unfold at_boundary. simpl. by rewrite Hb, Hw1. }
  eapply M_cat; [apply M_grp, Hcent|]. simpl.
  eapply M_cat.
  { eapply M_cat; [by apply M_chr|].
    eapply M_cat; [by apply M_chr | apply M_eps]. }
  apply M_wordb. unfold at_boundary. simpl.
  by rewrite (decimal_isword _ H4), Hr.
Qed.

Lemma decimal_not_space c : Py.isdecimal c = true → Py.isspace c = false.
Proof. destruct c as [[] [] [] [] [] [] [] []]; vm_compute; congruence. Qed.

Lemma decimal_not_int_space c :
  Py.isdecimal c = true → Py.int_space c = false.
Proof. destruct c as [[] [] [] [] [] [] [] []]; vm_compute; congruence. Qed.

Lemma decimal_not_sign c :
  Py.isdecimal c = true → Ascii.eqb c "-" = false ∧ Ascii.eqb c "+" = false.
Proof.
  destruct c as [[] [] [] [] [] [] [] []]; vm_compute; intros; split;
    congruence.
Qed.

(** [int] on four decimal digits. *)
Lemma int_of_four_digits c1 c2 c3 c4 :
  Py.isdecimal c1 = true → Py.isdecimal c2 = true →
  Py.isdecimal c3 = true → Py.isdecimal c4 = true →
  Py.int_of_str (Py.of_list [c1; c2; c3; c4])
  = Some (1000 * Py.digit_val c1 + 100 * Py.digit_val c2
          + 10 * Py.digit_val c3 + Py.digit_val c4)%Z.
Proof.
  intros H1 H2 H3 H4. unfold Py.int_of_str. rewrite to_list_of_list.
  unfold Py.rstrip_by. simpl.
  rewrite (decimal_not_int_space _ H1). simpl.
  rewrite (decimal_not_int_space _ H4). simpl.
  destruct (decimal_not_sign _ H1) as [-> ->].
  rewrite H1, H2, H3, H4. f_equal. lia.
Qed.

Lemma century_decimal c1 c2 :
  century c1 c2 = true → Py.isdecimal c1 = true ∧ Py.isdecimal c2 = true.
Proof.
  unfold century. intros [H|H]%orb_true_iff;
    apply andb_true_iff in H as [->%Ascii.eqb_eq ->%Ascii.eqb_eq]; done.
Qed.

Lemma search_from_unfold r bef aft :
  search_from r bef aft =
  match run r (MkPos bef aft None) Some with
  | Some e => Some (MkMatch (length bef) e)
  | None =>
      match aft with
      | [] => None
      | c :: t => search_from r (c :: bef) t
      end
  end.
Proof. by destruct aft. Qed.

Lemma first_year_token_from_unfold bef aft :
  first_year_token_from bef aft =
  match year_token_at bef aft with
  | Some y => Some y
  | None =>
      match aft with
      | [] => None
      | c :: t => first_year_token_from (c :: bef) t
      end
  end.
Proof. by destruct aft. Qed.

Lemma year_hit bef aft e :
  run year_pattern (MkPos bef aft None) Some = Some e →
  ∃ y, year_token_at bef aft = Some y
       ∧ Py.int_of_str (group0 (MkMatch (length bef) e)) = Some y.
Proof.
  intros Hr. apply run_sound in Hr as (e' & Hm & [= ->]).
  apply year_match_inv in Hm as (c1 & c2 & c3 & c4 & rest & -> & Hb & Hc).
  unfold year_token_at. rewrite Hc.
  eexists. split; [reflexivity|].
  rewrite (group0_consumed bef [c1; c2; c3; c4]) by done.
  apply andb_true_iff in Hc as [Hc _].
  apply andb_true_iff in Hc as [Hc H4].
  apply andb_true_iff in Hc as [Hc H3].
  apply andb_true_iff in Hc as [_ Hc].
  destruct (century_decimal _ _ Hc).
  by apply int_of_four_digits.
Qed.

Lemma year_miss bef aft :
  run year_pattern (MkPos bef aft None) Some = None →
  year_token_at bef aft = None.
Proof.
  intros Hr. unfold year_token_at.
  destruct aft as [|c1 [|c2 [|c3 [|c4 rest]]]]; try done.
  destruct (_ && _) eqn:Hc; [|done].
  apply year_match_intro in Hc as [e He].
  by apply (run_complete _ _ _ Hr) in He.
Qed.

(** The search for the year pattern finds the first four-digit token,
    and [int] reads its value. *)
Lemma search_year_spec :
  ∀ aft bef,
    match search_from year_pattern bef aft with
    | Some m =>
        ∃ y, first_year_token_from bef aft = Some y
             ∧ Py.int_of_str (group0 m) = Some y
    | None => first_year_token_from bef aft = None
    end.
Proof.
  induction aft as [|c t IH]; intros bef;
    rewrite search_from_unfold, first_year_token_from_unfold;
    destruct (run year_pattern _ Some) as [e|] eqn:Hr.
  - apply year_hit in Hr as (y & -> & Hy). by exists y.
  - by rewrite (year_miss _ _ Hr).
  - apply year_hit in Hr as (y & -> & Hy). by exists y.
  - rewrite (year_miss _ _ Hr). apply IH.
Qed.

(** The record the text heuristic builds, field by field. *)
Lemma parse_metadata_from_text_spec text pdf_path E :
  ∃ key,
    generate_bibtex_key ["Unknown"] (default 2024%Z (first_year_token text)) E
    = Some key
    ∧ _parse_metadata_from_text text pdf_path E
      = Some (MkPaper (first_line text) ["Unknown"]
                (default 2024%Z (first_year_token text)) key
                (_create_bibtex_entry "article" key (first_line text)
                   ["Unknown"] (default 2024%Z (first_year_token text)) [])
                None None None None None None None PARSED).
Proof.
  destruct (generate_bibtex_key_total ["Unknown"]
              (default 2024%Z (first_year_token text)) E) as [key Hk].
  exists key. split; [done|].
  unfold _parse_metadata_from_text.
  pose proof (split_first_line text) as Hl.
  destruct (Py.split LF text) as [|l ls] eqn:Hs; [done|].
  rewrite Hl. simpl.
  pose proof (search_year_spec (Py.to_list text) []) as Hy.
  unfold search, first_year_token in *.
  destruct (search_from year_pattern [] (Py.to_list text)) as [m|].
  - destruct Hy as (y & Hy1 & ->). rewrite Hy1 in *. simpl in *.
    by rewrite Hk.
  - rewrite Hy in *. simpl in *. by rewrite Hk.
Qed.

(** C3. For every text (the empty one too) and every path, the text
    heuristic returns a record and raises nothing; the record is marked
    as parsed from the text, its authors are ["Unknown"], and its year is
    the first four-digit token starting with 19 or 20 in the text, or
    2024 when the text has none. *)
Theorem text_heuristic_always_succeeds text pdf_path existing_keys :
  ∃ r,
    _parse_metadata_from_text text pdf_path existing_keys = Some r
    ∧ extraction_method r = PARSED
    ∧ authors r = ["Unknown"]
    ∧ year r = default 2024%Z (first_year_token text).
Proof.
  destruct (parse_metadata_from_text_spec text pdf_path existing_keys)
    as (key & _ & H).
  eexists. split; [exact H|]. done.
Qed.

(** The first non-empty line of a text, if it has one. *)
Definition first_nonempty_line (text : string) : option string :=
  head (filter (λ l, l ≠ "") (Py.split LF text)).

(** The title as the design document states it. *)
Definition stated_title (text pdf_path : string) : string :=
  default (Py.path_stem pdf_path) (first_nonempty_line text).

(** C7 as stated fails: with no text the title is the empty string, not
    the stem of the file name, and a leading empty line is taken as the
    title. *)
Lemma title_is_not_as_stated :
  (∃ r, _parse_metadata_from_text "" "/papers/smith2020.pdf" ∅ = Some r
        ∧ title r = ""
        ∧ stated_title "" "/papers/smith2020.pdf" = "smith2020")
  ∧ (∃ r, _parse_metadata_from_text (String LF "Deep Learning")
            "/papers/smith2020.pdf" ∅ = Some r
          ∧ title r = ""
          ∧ stated_title (String LF "Deep Learning") "/papers/smith2020.pdf"
            = "Deep Learning").
Proof. split; eexists; (split; [by vm_compute|]); split; by vm_compute. Qed.

(** C7, amended. For a text that is not empty, the title of the record
    is the first line of the text: what stands before the first line
    feed, be it empty or not. *)
Theorem title_is_first_line text pdf_path existing_keys :
  text ≠ "" →
  ∃ r,
    _parse_metadata_from_text text pdf_path existing_keys = Some r
    ∧ title r = first_line text.
Proof.
  intros _.
  destruct (parse_metadata_from_text_spec text pdf_path existing_keys)
    as (key & _ & H).
  eexists. split; [exact H|]. done.
Qed.

Lemma title_is_first_line_witness :
  "Deep Learning" ≠ ""
  ∧ ∃ r,
      _parse_metadata_from_text "Deep Learning" "/papers/smith2020.pdf" ∅
      = Some r
      ∧ title r = first_line "Deep Learning".
Proof.
  split; [by vm_compute|].
  apply (title_is_first_line "Deep Learning" "/papers/smith2020.pdf" ∅).
  by vm_compute.
Defined.

End TextHeuristic.

(** ** The CrossRef lookup: attempts, back-off, definitive miss *)

Section Crossref.
Variable w : world.
Variable self : MetadataExtractor.
Variable doi : string.
Variable existing_keys : gset string.

(** The lookup is followed for a delay that is not negative: with a
    negative one [time.sleep] raises and the exception leaves the method. *)
Hypothesis delay_not_negative : (0 <= retry_delay self)%Q.

Let url : string := crossref_url doi.

Lemma time_sleep_backoff attempt s :
  time_sleep (backoff self attempt) s
  = (Some tt,
     MkState (trace s ++ [Sleep (backoff self attempt)]) (requests s)).
Proof.
  unfold time_sleep.
  assert (Qle_bool 0 (backoff self attempt) = true) as ->; [|done].
  apply Qle_bool_iff. unfold backoff.
  apply Qmult_le_0_compat; [done|].
  change 0%Q with (inject_Z 0). rewrite <- Zle_Qle.
  apply Z.pow_nonneg. lia.
Qed.

(** What one attempt puts on the trace: the request, and after a transport
    failure that is not the last attempt, the sleep. *)
Definition attempt_events (attempt : nat) (r : http_outcome) : list event :=
  HttpGet url ::
  match r with
  | RequestException =>
      if (Z.of_nat attempt <? max_retries self - 1)%Z
      then [Sleep (retry_delay self * inject_Z (2 ^ Z.of_nat attempt))%Q]
      else []
  | Response _ _ => []
  end.

(** The responses that end the loop: 200 with a text that parses, and 404. *)
Definition ends_loop (r : http_outcome) : bool :=
  match r with
  | Response status_code text =>
      if (status_code =? 200)%Z
      then bool_decide (is_Some (_parse_bibtex_entry w text))
      else (status_code =? 404)%Z
  | RequestException => false
  end.

(** What the method returns after a last response [r]. *)
Definition result_after (r : http_outcome)
  : option (option PaperMetadata) :=
  match r with
  | Response status_code text =>
      if (status_code =? 200)%Z then
        match _parse_bibtex_entry w text with
        | Some parsed => Some <$> crossref_record doi text parsed existing_keys
        | None => Some None
        end
      else Some None
  | RequestException => Some None
  end.

Lemma map_seq_shift2 {A} (F : nat → nat → A) k q n :
  map (λ j, F (k + j)%nat (q + j)%nat) (seq 0 (S n))
  = F k q :: map (λ j, F (S k + j)%nat (S q + j)%nat) (seq 0 n).
Proof.
  simpl. rewrite !Nat.add_0_r. f_equal.
  rewrite <- seq_shift, map_map. apply map_ext. intros j.
  f_equal; lia.
Qed.

(** What is known of a run of [n] attempts that started at request number
    [q] and ended with the result [res]: the trace it added, that only its
    last response can be an ending one, that it stopped short of [m] only
    on an ending response, and what it returned. *)
Definition loop_outcome (m k q n : nat) (added : list event)
    (res : option (option PaperMetadata)) : Prop :=
  (n ≤ m)%nat
  ∧ added = concat (map (λ j, attempt_events (k + j)
                               (session_get w (q + j) url))
                       (seq 0 n))
  ∧ (∀ j, (j < n)%nat →
          ends_loop (session_get w (q + j) url) = true → n = S j)
  ∧ ((n < m)%nat →
     ∃ j, n = S j ∧ ends_loop (session_get w (q + j) url) = true)
  ∧ res = match n with
          | O => Some None
          | S j => result_after (session_get w (q + j) url)
          end.

Lemma loop_outcome_stop m k q :
  ends_loop (session_get w q url) = true →
  attempt_events k (session_get w q url) = [HttpGet url] →
  loop_outcome (S m) k q 1 [HttpGet url] (result_after (session_get w q url)).
Proof.
  intros Hends Hev. unfold loop_outcome. cbn [seq map concat].
  rewrite !Nat.add_0_r, Hev.
  split; [lia|]. split; [done|]. split; [intros j Hj _; lia|].
  split; [|done]. intros _. exists 0%nat. by rewrite Nat.add_0_r.
Qed.

Lemma loop_outcome_go m k q n tail added res :
  ends_loop (session_get w q url) = false →
  result_after (session_get w q url) = Some None →
  attempt_events k (session_get w q url) = HttpGet url :: tail →
  loop_outcome m (S k) (S q) n added res →
  loop_outcome (S m) k q (S n) ((HttpGet url :: tail) ++ added) res.
Proof.
  intros Hends Hres Hev (Hn & -> & Hlast & Hshort & ->).
  unfold loop_outcome. split; [lia|]. split.
  { pose proof (map_seq_shift2
                  (λ a b, attempt_events a (session_get w b url)) k q n)
      as Hsh.
    cbv beta in Hsh. rewrite Hsh, Hev. reflexivity. }
  split.
  { intros [|j] Hj He.
    - rewrite Nat.add_0_r in He. congruence.
    - f_equal. apply Hlast; [lia|].
      by replace (S q + j)%nat with (q + S j)%nat by lia. }
  split.
  { intros Hlt. destruct Hshort as (j & -> & He); [lia|].
    exists (S j). split; [done|].
    by replace (q + S j)%nat with (S q + j)%nat by lia. }
  destruct n as [|j].
  - by rewrite Nat.add_0_r, Hres.
  - by replace (q + S j)%nat with (S q + j)%nat by lia.
Qed.

(** The loop from attempt number [k] on, with [m] attempts left. *)
Lemma crossref_loop_spec m :
  ∀ k s res s',
    crossref_loop w self doi existing_keys (seq k m) s = (res, s') →
    ∃ n added,
      trace s' = trace s ++ added
      ∧ requests s' = (requests s + n)%nat
      ∧ loop_outcome m k (requests s) n added res.
Proof.
  induction m as [|m IH]; intros k s res s' H.
  { injection H as <- <-. exists 0%nat, []. rewrite app_nil_r, Nat.add_0_r.
    split; [done|]. split; [done|].
    unfold loop_outcome. repeat split; try done; intros; lia. }
  cbn [seq crossref_loop] in H. unfold bind, http_get in H. fold url in H.
  set (s1 := MkState (trace s ++ [HttpGet url]) (S (requests s))) in H.
  assert (∀ tail s2,
    ends_loop (session_get w (requests s) url) = false →
    result_after (session_get w (requests s) url) = Some None →
    attempt_events k (session_get w (requests s) url) = HttpGet url :: tail →
    trace s2 = trace s1 ++ tail → requests s2 = requests s1 →
    crossref_loop w self doi existing_keys (seq (S k) m) s2 = (res, s') →
    ∃ n added,
      trace s' = trace s ++ added
      ∧ requests s' = (requests s + n)%nat
      ∧ loop_outcome (S m) k (requests s) n added res) as Hgo.
  { intros tail s2 Hends Hres Hev Ht Hq Hrun.
    apply IH in Hrun as (n & added & Htr & Hrq & Hout).
    exists (S n), ((HttpGet url :: tail) ++ added).
    split. { rewrite Htr, Ht. simpl. by rewrite <- !app_assoc. }
    split. { rewrite Hrq, Hq. simpl. lia. }
    rewrite Hq in Hout. by apply loop_outcome_go. }
  assert (
    ends_loop (session_get w (requests s) url) = true →
    attempt_events k (session_get w (requests s) url) = [HttpGet url] →
    (result_after (session_get w (requests s) url), s1) = (res, s') →
    ∃ n added,
      trace s' = trace s ++ added
      ∧ requests s' = (requests s + n)%nat
      ∧ loop_outcome (S m) k (requests s) n added res) as Hstop.
  { intros Hends Hev [= <- <-]. exists 1%nat, [HttpGet url].
    split; [done|]. split; [simpl; lia|]. by apply loop_outcome_stop. }
  destruct (session_get w (requests s) url) as [status_code text|] eqn:Hresp;
    simpl in Hgo, Hstop, H.
  - destruct (status_code =? 200)%Z eqn:H200.
    + destruct (_parse_bibtex_entry w text) as [parsed|] eqn:Hp.
      * by apply Hstop.
      * apply (Hgo [] s1); try done. by rewrite app_nil_r.
    + destruct (status_code =? 404)%Z eqn:H404.
      * by apply Hstop.
      * apply (Hgo [] s1); try done. by rewrite app_nil_r.
  - destruct (Z.of_nat k <? max_retries self - 1)%Z eqn:Hk.
    + rewrite time_sleep_backoff in H. simpl in H.
      eapply (Hgo [Sleep (backoff self k)] _ eq_refl eq_refl);
        [|..|exact H]; try done.
      unfold attempt_events. by rewrite Hk.
    + simpl in H.
      apply (Hgo [] s1 eq_refl eq_refl); try done.
      * unfold attempt_events. by rewrite Hk.
      * by rewrite app_nil_r.
Qed.

(** C6. For a delay that is not negative, the lookup makes [n]
    requests, at most [max_retries] of them (3 with the defaults every
    caller keeps) and at least one when [max_retries] is 1 or more.  It
    stops before the bound only on a response that ends it, a 404 or a
    200 whose text parses, and it returns what its last response gives:
    failure after any response other than such a 200.  A 404 response is
    the last request and the method returns failure.  A transport failure
    on attempt [j] that is not the last attempt is followed by a sleep of
    [retry_delay * 2^j] and then by the next request.  Any other status
    than 200 and 404 is followed at once by the next request while
    attempts remain, so that responses none of which ends the lookup
    make it use all [max_retries] attempts. *)
Theorem crossref_retry_policy (s : state) :
  let run := _get_metadata_from_crossref w self doi existing_keys s in
  let resp := λ j : nat, session_get w (requests s + j) url in
  ∃ n : nat,
    trace run.2
    = trace s ++ concat (map (λ j, attempt_events j (resp j)) (seq 0 n))
    ∧ (n ≤ Z.to_nat (max_retries self))%nat
    ∧ Z.to_nat (max_retries default_extractor) = 3%nat
    ∧ ((1 ≤ max_retries self)%Z → (1 ≤ n)%nat)
    ∧ ((n < Z.to_nat (max_retries self))%nat →
       ∃ j text,
         n = S j
         ∧ (resp j = Response 404 text
            ∨ (resp j = Response 200 text
               ∧ is_Some (_parse_bibtex_entry w text))))
    ∧ ((∀ j, (j < Z.to_nat (max_retries self))%nat →
             ends_loop (resp j) = false) →
       n = Z.to_nat (max_retries self) ∧ run.1 = Some None)
    ∧ run.1 = match n with
              | O => Some None
              | S j => result_after (resp j)
              end
    ∧ (∀ j body, (j < n)%nat → resp j = Response 404 body →
                 n = S j ∧ run.1 = Some None)
    ∧ (∀ j, (j < n)%nat → resp j = RequestException →
            (Z.of_nat j < max_retries self - 1)%Z →
            attempt_events j (resp j)
            = [HttpGet url;
               Sleep (retry_delay self * inject_Z (2 ^ Z.of_nat j))%Q]
            ∧ (S j < n)%nat)
    ∧ (∀ j status_code body, (j < n)%nat →
            resp j = Response status_code body →
            status_code ≠ 200%Z → status_code ≠ 404%Z →
            (S j < Z.to_nat (max_retries self))%nat →
            attempt_events j (resp j) = [HttpGet url] ∧ (S j < n)%nat).
Proof.
  intros run resp. subst run.
  destruct (_get_metadata_from_crossref w self doi existing_keys s)
    as [res s'] eqn:Hrun.
  apply crossref_loop_spec in Hrun
    as (n & added & Htr & _ & Hn & -> & Hlast & Hshort & Hres).
  exists n. cbn [fst snd]. split; [done|]. split; [done|]. split; [done|].
  assert (∀ j, (j < n)%nat → ends_loop (resp j) = false →
               (S j < Z.to_nat (max_retries self))%nat → (S j < n)%nat)
    as Hnext.
  { intros j Hj He Hm. destruct (decide (S j < n)%nat) as [|Hge]; [done|].
    destruct Hshort as (j' & -> & He'); [lia|].
    assert (j' = j) as -> by lia. unfold resp in He. congruence. }
  assert (∀ r, ends_loop r = false → result_after r = Some None) as Hfound.
  { intros [status_code text|]; simpl; [|done].
    destruct (status_code =? 200)%Z; [|done].
    destruct (_parse_bibtex_entry w text); [|done].
    intros He. apply bool_decide_eq_false in He. destruct He. by eexists. }
  split.
  { intros Hm. destruct n as [|n']; [|lia].
    destruct Hshort as (j & Hj & _); [lia|discriminate Hj]. }
  split.
  { intros Hlt. destruct (Hshort Hlt) as (j & -> & He).
    fold (resp j) in He. unfold ends_loop in He.
    destruct (resp j) as [status_code text|] eqn:Hr; [|done].
    exists j, text. split; [done|].
    destruct (status_code =? 200)%Z eqn:H200.
    - right. apply Z.eqb_eq in H200. subst status_code.
      split; [done|]. by apply bool_decide_eq_true in He.
    - left. apply Z.eqb_eq in He. by subst status_code. }
  split.
  { intros Hnone.
    assert (n = Z.to_nat (max_retries self)) as Heq.
    { destruct (decide (n < Z.to_nat (max_retries self))%nat) as [Hlt|]; [|lia].
      destruct (Hshort Hlt) as (j & -> & He).
      fold (resp j) in He. rewrite Hnone in He by lia. done. }
    split; [done|]. rewrite Hres. destruct n as [|j]; [done|].
    fold (resp j). apply Hfound, Hnone. lia. }
  split; [done|].
  split; [|split].
  - intros j body Hj Hr.
    assert (ends_loop (resp j) = true) as He by (by rewrite Hr).
    specialize (Hlast j Hj He). subst n. split; [done|].
    rewrite Hres. fold (resp j). by rewrite Hr.
  - intros j Hj Hr Hlt. split.
    + rewrite Hr. unfold attempt_events.
      by rewrite (proj2 (Z.ltb_lt _ _) Hlt).
    + apply Hnext; [done|by rewrite Hr|lia].
  - intros j status_code body Hj Hr H200 H404 Hm. split.
    + by rewrite Hr.
    + apply Hnext; [done| |done]. rewrite Hr. simpl.
      rewrite (proj2 (Z.eqb_neq _ _) H200).
      by apply Z.eqb_neq.
Qed.

End Crossref.

(** A world for the examples: pdf2bib is not installed, the first two
    requests fail in transport, every later one is answered 404, and the
    PDF has no readable properties. *)
Definition flaky_world : world :=
  MkWorld false (λ _, Pdf2bibNotDict)
    (λ q _, if (q <? 2)%nat then RequestException else Response 404 "")
    (λ _, None) (λ _, None) (λ _, None).

Lemma crossref_retry_policy_witness :
  let w := flaky_world in
  let self := default_extractor in
  let doi := "10.1234/abcd" in
  let run := _get_metadata_from_crossref w self doi ∅ start in
  let resp := λ j : nat, session_get w (requests start + j) (crossref_url doi) in
  ∃ n : nat,
    trace run.2
    = trace start
      ++ concat (map (λ j, attempt_events self doi j (resp j)) (seq 0 n))
    ∧ (n ≤ Z.to_nat (max_retries self))%nat
    ∧ Z.to_nat (max_retries default_extractor) = 3%nat
    ∧ ((1 ≤ max_retries self)%Z → (1 ≤ n)%nat)
    ∧ ((n < Z.to_nat (max_retries self))%nat →
       ∃ j text,
         n = S j
         ∧ (resp j = Response 404 text
            ∨ (resp j = Response 200 text
               ∧ is_Some (_parse_bibtex_entry w text))))
    ∧ ((∀ j, (j < Z.to_nat (max_retries self))%nat →
             ends_loop w (resp j) = false) →
       n = Z.to_nat (max_retries self) ∧ run.1 = Some None)
    ∧ run.1 = match n with
              | O => Some None
              | S j => result_after w doi ∅ (resp j)
              end
    ∧ (∀ j body, (j < n)%nat → resp j = Response 404 body →
                 n = S j ∧ run.1 = Some None)
    ∧ (∀ j, (j < n)%nat → resp j = RequestException →
            (Z.of_nat j < max_retries self - 1)%Z →
            attempt_events self doi j (resp j)
            = [HttpGet (crossref_url doi);
               Sleep (retry_delay self * inject_Z (2 ^ Z.of_nat j))%Q]
            ∧ (S j < n)%nat)
    ∧ (∀ j status_code body, (j < n)%nat →
            resp j = Response status_code body →
            status_code ≠ 200%Z → status_code ≠ 404%Z →
            (S j < Z.to_nat (max_retries self))%nat →
            attempt_events self doi j (resp j) = [HttpGet (crossref_url doi)]
            ∧ (S j < n)%nat).
Proof.
  intros w self doi.
  apply (crossref_retry_policy w self doi ∅). by vm_compute.
Defined.

(** ** The orchestrator: order of the strategies, first success wins *)

Section Orchestrator.
Variable w : world.
Variable self : MetadataExtractor.
Hypothesis delay_not_negative : (0 <= retry_delay self)%Q.

(** A strategy as the orchestrator sees it: it returns (no exception
    leaves it), it puts no strategy event on the trace, and a record it
    returns carries its own method. *)
Definition strategy_ok (m : ExtractionMethod)
    (run : M (option (option PaperMetadata))) : Prop :=
  ∀ s, ∃ res added,
    (run s).1 = Some res
    ∧ trace (run s).2 = trace s ++ added
    ∧ calls added = []
    ∧ outcomes added = []
    ∧ (∀ md, res = Some md → extraction_method md = m).

(** A tail of the cascade: it returns a record [r], after entering the
    strategies [failed], which all returned nothing, and then [m], which
    returned [r]; these are the first of [allowed], the strategies whose
    guard holds, with none of them left out. *)
Definition cascade_ok (allowed : list ExtractionMethod)
    (c : M (option PaperMetadata)) : Prop :=
  ∀ s, ∃ r failed m added,
    (c s).1 = Some r
    ∧ trace (c s).2 = trace s ++ added
    ∧ calls added = failed ++ [m]
    ∧ outcomes added = ((λ x, (x, false)) <$> failed) ++ [(m, true)]
    ∧ extraction_method r = m
    ∧ (failed ++ [m]) `prefix_of` allowed.

Lemma calls_app a b : calls (a ++ b) = calls a ++ calls b.
Proof. apply omap_app. Qed.

Lemma outcomes_app a b : outcomes (a ++ b) = outcomes a ++ outcomes b.
Proof. apply omap_app. Qed.

Lemma cascade_ok_attempt m run next allowed :
  strategy_ok m run → cascade_ok allowed next →
  cascade_ok (m :: allowed) (attempt m run next).
Proof.
  intros Hrun Hnext s. unfold attempt, bind, emit.
  set (s0 := MkState (trace s ++ [Call m]) (requests s)).
  destruct (Hrun s0) as (res & ev & Hres & Htr & Hc & Ho & Hm).
  destruct (run s0) as [res' s1]. simpl in Hres, Htr. subst res'.
  destruct res as [md|].
  - exists md, [], m, ([Call m] ++ ev ++ [Return m true]). simpl.
    rewrite Htr. simpl. rewrite <- !app_assoc. simpl.
    split; [done|]. split; [done|].
    rewrite calls_app, outcomes_app, Hc, Ho. simpl.
    repeat split; try done; [by apply Hm|].
    by exists allowed.
  - set (s2 := MkState (trace s1 ++ [Return m false]) (requests s1)).
    destruct (Hnext s2)
      as (r & failed & m' & added & Hr & Htr' & Hc' & Ho' & Hm' & Hsub).
    exists r, (m :: failed), m', ([Call m] ++ ev ++ [Return m false] ++ added).
    simpl. split; [done|].
    split. { rewrite Htr'. simpl. rewrite Htr. simpl. by rewrite <- !app_assoc. }
    rewrite calls_app, outcomes_app, Hc, Ho. simpl.
    rewrite Hc', Ho'. repeat split; try done.
    destruct Hsub as [rest ->]. by exists rest.
Qed.

Lemma parse_text_ok pdf_path first_pages_text existing_keys :
  cascade_ok [PARSED] (parse_text pdf_path first_pages_text existing_keys).
Proof.
  intros s. unfold parse_text, bind, emit.
  destruct (parse_metadata_from_text_spec
              (default "" (or_else first_pages_text (Some "")))
              pdf_path existing_keys) as (key & _ & ->).
  eexists _, [], PARSED, [Call PARSED; Return PARSED true]. simpl.
  rewrite <- app_assoc. repeat split; try done.
Qed.

Lemma pure_strategy_ok m (res : option PaperMetadata) :
  (∀ md, res = Some md → extraction_method md = m) →
  strategy_ok m (ret (Some res)).
Proof.
  intros H s. exists res, []. simpl. rewrite app_nil_r. repeat split; done.
Qed.

Lemma pdf2bib_ok pdf_path existing_keys :
  strategy_ok PDF2BIB
    (bind (_get_metadata_from_pdf2bib w pdf_path existing_keys)
          (λ r, ret (Some r))).
Proof.
  intros s. unfold _get_metadata_from_pdf2bib, bind, emit, ret. simpl.
  eexists _, [Pdf2bibCall _]. repeat split; try done.
  intros md.
  unfold pdf2bib_result, pdf2bib_body.
  repeat (case_match; simpl; try done); by intros [= <-].
Qed.

Lemma pdf_metadata_ok pdf_path existing_keys :
  strategy_ok PDF_METADATA
    (ret (Some (_extract_from_pdf_metadata w pdf_path existing_keys))).
Proof.
  apply pure_strategy_ok. intros md.
  unfold _extract_from_pdf_metadata, pdf_metadata_body.
  destruct (fitz_metadata w pdf_path) as [[metadata|]|]; simpl; try done.
  repeat (case_match; simpl; try done).
  destruct (generate_bibtex_key _ _ _); simpl; [|done]. by intros [= <-].
Qed.

Lemma pubmed_ok pmid existing_keys :
  strategy_ok PUBMED (ret (Some (_get_metadata_from_pubmed pmid existing_keys))).
Proof. by apply pure_strategy_ok. Qed.

Lemma arxiv_ok arxiv_id existing_keys :
  strategy_ok ARXIV
    (bind (_get_metadata_from_arxiv w arxiv_id existing_keys)
          (λ r, ret (Some r))).
Proof.
  intros s. unfold _get_metadata_from_arxiv, bind, http_get, ret. simpl.
  eexists _, [HttpGet _]. repeat split; try done.
  intros md. unfold arxiv_body.
  destruct (session_get _ _ _) as [status_code content|]; simpl; [|done].
  destruct (status_code =? 200)%Z; simpl; [|done].
  destruct (arxiv_feed w content) as [[entry|]|]; simpl; try done.
  destruct (a_title entry); simpl; [|done].
  destruct (a_authors entry); simpl; [|done].
  destruct (a_published entry); simpl; [|done].
  destruct (Py.int_of_str _); simpl; [|done].
  destruct (a_summary entry); simpl; [|done].
  destruct (generate_bibtex_key _ _ _); simpl; [|done].
  by intros [= <-].
Qed.

Lemma attempt_events_quiet doi l :
  calls (concat (map (λ jr, attempt_events self doi jr.1 jr.2) l)) = []
  ∧ outcomes (concat (map (λ jr, attempt_events self doi jr.1 jr.2) l)) = [].
Proof.
  induction l as [|[j r] l [IH1 IH2]]; [done|]. simpl.
  rewrite calls_app, outcomes_app, IH1, IH2.
  unfold attempt_events. destruct r; [done|]. by case_match.
Qed.

Lemma crossref_ok doi existing_keys :
  strategy_ok CROSSREF (_get_metadata_from_crossref w self doi existing_keys).
Proof.
  intros s.
  destruct (_get_metadata_from_crossref w self doi existing_keys s)
    as [res s'] eqn:Hrun.
  apply (crossref_loop_spec w self doi existing_keys delay_not_negative)
    in Hrun as (n & added & Htr & _ & _ & -> & _ & _ & Hres).
  simpl.
  assert (∃ res', res = Some res'
                  ∧ ∀ md, res' = Some md → extraction_method md = CROSSREF)
    as (res' & -> & Hm).
  { subst res. destruct n as [|j]; [by exists None|].
    unfold result_after. case_match; [|by exists None].
    case_match; [|by exists None].
    case_match; [|by exists None].
    unfold crossref_record.
    destruct (generate_bibtex_key_total (e_authors p) (e_year p) existing_keys)
      as [key ->].
    simpl. eexists. split; [done|]. by intros md [= <-]. }
  exists res'. eexists. split; [done|]. split; [exact Htr|].
  rewrite <- (map_map (λ j, (j, session_get w (requests s + j) (crossref_url doi)))
                (λ jr, attempt_events self doi jr.1 jr.2)).
  destruct (attempt_events_quiet doi
              (map (λ j, (j, session_get w (requests s + j) (crossref_url doi)))
                   (seq 0 n))) as [-> ->].
  done.
Qed.

(** The strategies whose guard holds for a document, in the order of the
    method: pdf2bib when it is installed, the lookups when the first-page
    text holds their identifier, the PDF properties and the text heuristic
    always. *)
Definition eligible (first_pages_text : option string)
  : list ExtractionMethod :=
  let text := default "" first_pages_text in
  (if PDF2BIB_AVAILABLE w then [PDF2BIB] else [])
  ++ (if truthy first_pages_text && truthy (extract_doi_from_text text)
      then [CROSSREF] else [])
  ++ (if truthy first_pages_text && truthy (extract_arxiv_id_from_text text)
      then [ARXIV] else [])
  ++ (if truthy first_pages_text && truthy (extract_pubmed_id_from_text text)
      then [PUBMED] else [])
  ++ [PDF_METADATA; PARSED].


Lemma cascade_is_ok pdf_path first_pages_text existing_keys :
  cascade_ok (eligible first_pages_text)
    (cascade w self pdf_path first_pages_text existing_keys).
Proof.
  unfold cascade, eligible. cbv zeta.
  unfold try_pdf2bib, try_crossref, try_arxiv, try_pubmed, try_pdf_metadata.
  destruct (PDF2BIB_AVAILABLE w);
    destruct (truthy first_pages_text);
    destruct (truthy (extract_doi_from_text _));
    destruct (truthy (extract_arxiv_id_from_text _));
    destruct (truthy (extract_pubmed_id_from_text _));
    cbn [andb app];
    repeat match goal with
      | |- cascade_ok (?m :: _) (attempt ?m _ _) => apply cascade_ok_attempt
      | |- cascade_ok [PARSED] (parse_text _ _ _) => apply parse_text_ok
      | |- strategy_ok PDF2BIB _ => apply pdf2bib_ok
      | |- strategy_ok CROSSREF _ => apply crossref_ok
      | |- strategy_ok ARXIV _ => apply arxiv_ok
      | |- strategy_ok PUBMED _ => apply pubmed_ok
      | |- strategy_ok PDF_METADATA _ => apply pdf_metadata_ok
      end.
Qed.



End Orchestrator.


(** ** The citation normaliser and the year field *)

Section Normaliser.

(** A parser outcome with one entry. *)
Definition parses_to (entry : bib_entry) : world :=
  MkWorld false (λ _, Pdf2bibNotDict) (λ _ _, Response 200 "")
    (λ _, Some [entry]) (λ _, None) (λ _, None).

Definition entry_in_press : bib_entry :=
  MkEntry (Some ["Smith, John"])
    {[ "title" := "A Title"; "year" := "in press" ]}.

Definition entry_without_year : bib_entry :=
  MkEntry (Some ["Smith, John"]) {[ "title" := "A Title" ]}.

(** C8 as stated, for one accepted entry text. *)
Definition year_falls_back (w : world) (bibtex_str : string) : Prop :=
  ∀ entry rest,
    parse_bibtex w bibtex_str = Some (entry :: rest) →
    (fields entry !! "year" = None
     ∨ ∃ y, fields entry !! "year" = Some y ∧ Py.int_of_str y = None) →
    ∃ parsed, _parse_bibtex_entry w bibtex_str = Some parsed
              ∧ e_year parsed = 2024%Z.

(** C8 fails where the year is there but is no integer: the entry is
    dropped. *)
Lemma unparseable_year_fails_the_entry :
  _parse_bibtex_entry (parses_to entry_in_press)
    "@article{k, title={A Title}, year={in press}}" = None
  ∧ ¬ year_falls_back (parses_to entry_in_press)
        "@article{k, title={A Title}, year={in press}}".
Proof.
  split; [by vm_compute|].
  intros H. destruct (H entry_in_press []) as (parsed & Hp & _).
  - reflexivity.
  - right. exists "in press". split; by vm_compute.
  - vm_compute in Hp. discriminate Hp.
Qed.

(** C8, amended. For a text the parser accepts: when the first entry has
    no year field, normalisation succeeds with the year 2024; when it has
    one that [int] reads, with that value; when it has one that [int]
    does not read, normalisation fails and returns nothing. *)
Theorem year_defaults_only_when_absent w bibtex_str entry rest :
  parse_bibtex w bibtex_str = Some (entry :: rest) →
  (fields entry !! "year" = None →
   ∃ parsed, _parse_bibtex_entry w bibtex_str = Some parsed
             ∧ e_year parsed = 2024%Z)
  ∧ (∀ y n, fields entry !! "year" = Some y → Py.int_of_str y = Some n →
            ∃ parsed, _parse_bibtex_entry w bibtex_str = Some parsed
                      ∧ e_year parsed = n)
  ∧ (∀ y, fields entry !! "year" = Some y → Py.int_of_str y = None →
          _parse_bibtex_entry w bibtex_str = None).
Proof.
  intros Hp. unfold _parse_bibtex_entry, year_of_fields. rewrite Hp.
  split; [|split].
  - intros ->. eexists. split; [reflexivity|done].
  - intros y n -> ->. eexists. split; [reflexivity|done].
  - by intros y -> ->.
Qed.

Lemma year_defaults_only_when_absent_witness :
  parse_bibtex (parses_to entry_without_year) "@article{k, title={A Title}}"
  = Some [entry_without_year]
  ∧ ((fields entry_without_year !! "year" = None →
      ∃ parsed,
        _parse_bibtex_entry (parses_to entry_without_year)
          "@article{k, title={A Title}}" = Some parsed
        ∧ e_year parsed = 2024%Z)
     ∧ (∀ y n, fields entry_without_year !! "year" = Some y →
               Py.int_of_str y = Some n →
               ∃ parsed,
                 _parse_bibtex_entry (parses_to entry_without_year)
                   "@article{k, title={A Title}}" = Some parsed
                 ∧ e_year parsed = n)
     ∧ (∀ y, fields entry_without_year !! "year" = Some y →
             Py.int_of_str y = None →
             _parse_bibtex_entry (parses_to entry_without_year)
               "@article{k, title={A Title}}" = None)).
Proof.
  split; [reflexivity|].
  apply (year_defaults_only_when_absent (parses_to entry_without_year)
           "@article{k, title={A Title}}" entry_without_year []).
  reflexivity.
Defined.

End Normaliser.

(** ** The key inside the BibTeX text *)

Section KeyInEntry.

(** A CrossRef answer whose entry has a blank between the entry type and
    the brace, which BibTeX allows. *)
Definition spaced_entry : string :=
  "@article {Old_2020, title={A Title}, author={Smith, John}, year={2020}}".

Definition entry_2020 : bib_entry :=
  MkEntry (Some ["Smith, John"])
    {[ "title" := "A Title"; "year" := "2020" ]}.

Definition crossref_answers : world :=
  MkWorld false (λ _, Pdf2bibNotDict) (λ _ _, Response 200 spaced_entry)
    (λ _, Some [entry_2020]) (λ _, None) (λ _, None).

(** C9, at the input where it fails.  The pattern of
    [_replace_bibtex_key] finds nothing to replace, the text comes back
    unchanged, and the record carries the key [Smith2020] next to a text
    whose key is still [Old_2020]. *)
Theorem record_key_and_entry_key_differ :
  _replace_bibtex_key spaced_entry "Smith2020" = spaced_entry
  ∧ embedded_key spaced_entry ≠ Some "Smith2020"
  ∧ ∃ r,
      (extract_metadata crossref_answers default_extractor "/papers/a.pdf"
         (Some "doi:10.1234/abc") None start).1 = Some r
      ∧ extraction_method r = CROSSREF
      ∧ bibtex_key r = "Smith2020"
      ∧ bibtex_entry r = spaced_entry.
Proof.
  split; [by vm_compute|]. split; [by vm_compute|].
  eexists. split; [by vm_compute|]. done.
Qed.

Lemma string_app_assoc (s1 s2 s3 : string) :
  (s1 +:+ s2) +:+ s3 = s1 +:+ (s2 +:+ s3).
Proof.
  induction s1 as [|c s1 IH]; [done|].
  change (String c ((s1 +:+ s2) +:+ s3) = String c (s1 +:+ (s2 +:+ s3))).
  by f_equal.
Qed.

(** The entries the module writes itself start with their key. *)
Lemma created_entry_starts_with_key entry_type key title authors year kwargs :
  ∃ rest,
    _create_bibtex_entry entry_type key title authors year kwargs
    = "@" +:+ entry_type +:+ "{" +:+ key +:+ "," +:+ rest.
Proof.
  unfold _create_bibtex_entry. cbn [app join].
  eexists. rewrite !string_app_assoc. reflexivity.
Qed.

End KeyInEntry.

(** ** The DOI extractor *)

Section DoiExtractor.

Definition is_punct (c : ascii) : bool := Py.contains c ".,;:".

Lemma lit_i_one c :
  Ascii.eqb (Py.lower c) (Py.lower "1") = true → c = "1"%char.
Proof.
  destruct c as [[] [] [] [] [] [] [] []]; vm_compute; intros;
    congruence.
Qed.

Lemma lit_i_zero c :
  Ascii.eqb (Py.lower c) (Py.lower "0") = true → c = "0"%char.
Proof.
  destruct c as [[] [] [] [] [] [] [] []]; vm_compute; intros;
    congruence.
Qed.

Lemma lit_i_dot c :
  Ascii.eqb (Py.lower c) (Py.lower ".") = true → c = "."%char.
Proof.
  destruct c as [[] [] [] [] [] [] [] []]; vm_compute; intros;
    congruence.
Qed.

Lemma decimal_not_punct c : Py.isdecimal c = true → is_punct c = false.
Proof. destruct c as [[] [] [] [] [] [] [] []]; vm_compute; congruence. Qed.

(** [rstrip] keeps everything up to a character outside the set. *)
Lemma lstrip_by_app p x c y :
  p c = false → Py.lstrip_by p (x ++ c :: y) = Py.lstrip_by p x ++ c :: y.
Proof.
  intros Hc. induction x as [|a x IH]; simpl.
  - by rewrite Hc.
  - destruct (p a); [apply IH | done].
Qed.

Lemma rstrip_by_app p x c y :
  p c = false → Py.rstrip_by p (x ++ c :: y) = x ++ c :: Py.rstrip_by p y.
Proof.
  intros Hc. unfold Py.rstrip_by.
  rewrite rev_app_distr. simpl. rewrite <- app_assoc. simpl.
  rewrite (lstrip_by_app p _ c) by done.
  rewrite rev_app_distr. simpl. rewrite rev_involutive.
  by rewrite <- app_assoc.
Qed.

Lemma lstrip_by_head p l c t :
  Py.lstrip_by p l = c :: t → p c = false.
Proof.
  induction l as [|a l IH]; simpl; [done|].
  destruct (p a) eqn:Ha; [apply IH|]. by intros [= <- _].
Qed.

Lemma rstrip_by_last p l x c :
  Py.rstrip_by p l = x ++ [c] → p c = false.
Proof.
  unfold Py.rstrip_by. intros H.
  apply (f_equal (@rev ascii)) in H.
  rewrite rev_involutive, rev_app_distr in H. simpl in H.
  by apply lstrip_by_head in H.
Qed.

(** The prefix pattern is anchored: it matches nowhere but at the start,
    and there only before [doi:] or [DOI:]. *)
Lemma sub_doi_prefix_later repl count fuel :
  ∀ bef aft, bef ≠ [] →
    sub_from doi_prefix repl count fuel bef aft = Py.of_list aft.
Proof.
  induction fuel as [|fuel IH]; intros bef aft Hb; [done|].
  destruct bef as [|b bef]; [done|].
  destruct count as [[|c]|]; [done| |];
    (destruct aft as [|a t]; simpl; [done|]; by rewrite IH).
Qed.

Lemma clean_doi_digits c l :
  Py.isdecimal c = true →
  clean_doi (Py.of_list (c :: l)) = Py.of_list (Py.rstrip_by is_punct (c :: l)).
Proof.
  intros Hc. unfold clean_doi, sub, Py.rstrip.
  rewrite to_list_of_list. cbn [sub_from].
  assert (run doi_prefix (MkPos [] (c :: l) None) Some = None) as ->.
  { destruct c as [[] [] [] [] [] [] [] []]; try discriminate Hc;
      reflexivity. }
  rewrite sub_doi_prefix_later by done.
  change (String c (Py.of_list l)) with (Py.of_list (c :: l)).
  by rewrite to_list_of_list.
Qed.

(** Every match of the core pattern starts with [10.] and a digit. *)
Lemma doi_core_shape bef aft e :
  matches doi_core (MkPos bef aft None) e →
  ∃ d l, Py.isdecimal d = true
         ∧ before e = rev ("1" :: "0" :: "." :: d :: l)%char ++ bef.
Proof.
  intros H. unfold doi_core in H.
  inversion H as [| |r1 r2 s0 s1 s2 H1 H2| | | | | | |]; subst; clear H.
  cbv [str_i lits_i lit_i Py.to_list list_ascii_of_string] in H1.
  revert H2. inv_matches.
  repeat match goal with
    | H : Ascii.eqb (Py.lower _) (Py.lower "1") = true |- _ =>
        apply lit_i_one in H; subst
    | H : Ascii.eqb (Py.lower _) (Py.lower "0") = true |- _ =>
        apply lit_i_zero in H; subst
    | H : Ascii.eqb (Py.lower _) (Py.lower ".") = true |- _ =>
        apply lit_i_dot in H; subst
    end.
  intros H2. cbn [at_least] in H2.
  inversion H2 as [| |? ? ? ? ? H3 H4| | | | | | |]; subst; clear H2.
  inversion H3 as [| |? ? ? ? ? H5 H6| | | | | | |]; subst; clear H3.
  unfold digit in H5.
  inversion H5 as [|? d ? ? ? Hd| | | | | | | |]; subst; clear H5.
  apply matches_consumed in H6 as (l6 & A6 & B6).
  apply matches_consumed in H4 as (l4 & A4 & B4).
  simpl in *. exists d, (l6 ++ l4). split; [done|].
  rewrite B4, B6. simpl. rewrite rev_app_distr, <- !app_assoc. done.
Qed.

(** A pattern that ends with the core pattern matches only where the core
    pattern matches too, so the second and third entries of [patterns]
    are never the ones that match. *)
Lemma prefixed_needs_core a b text m :
  no_group a = true → no_group b = true →
  search (Cat a (Cat b doi_core)) text = Some m →
  search doi_core text ≠ None.
Proof.
  intros Ha Hb Hs Hnone. unfold search in *.
  apply search_from_sound in Hs as (bef' & aft' & Hl & _ & Hm & _).
  inversion Hm as [| |r1 r2 s0 s1 s2 H1 H2| | | | | | |]; subst; clear Hm.
  inversion H2 as [| |? ? ? s1' ? H3 H4| | | | | | |]; subst; clear H2.
  assert (matches (Cat a b) (MkPos bef' aft' None) s1') as H5
    by by econstructor.
  apply matches_later in H5 as [He Hl']; [|by simpl; rewrite Ha, Hb].
  rewrite He in H4.
  eapply (search_from_complete _ _ _ Hnone); [|exact H4].
  by eapply later_trans.
Qed.

Lemma extract_doi_is_core_match text d :
  extract_doi_from_text text = Some d →
  ∃ m, search doi_core text = Some m ∧ d = clean_doi (group0 m).
Proof.
  unfold extract_doi_from_text, doi_patterns, first_match.
  destruct (search doi_core text) as [m|] eqn:H1.
  { intros [= <-]. by exists m. }
  destruct (search (Cat (str_i "doi:") _) text) as [m|] eqn:H2.
  { by apply prefixed_needs_core in H2. }
  destruct (search (Cat (str_i "DOI:") _) text) as [m|] eqn:H3.
  { by apply prefixed_needs_core in H3. }
  done.
Qed.

Lemma to_list_app (s1 s2 : string) :
  Py.to_list (s1 +:+ s2) = Py.to_list s1 ++ Py.to_list s2.
Proof.
  induction s1 as [|c s1 IH]; [done|].
  change (c :: Py.to_list (s1 +:+ s2) = c :: (Py.to_list s1 ++ Py.to_list s2)).
  by f_equal.
Qed.

(** What the extractor returns: [10.], a digit, and a rest whose last
    character, like the digit, is none of [. , ; :]. *)
Lemma extract_doi_shape text d :
  extract_doi_from_text text = Some d →
  ∃ c l, Py.isdecimal c = true
         ∧ d = Py.of_list ("1" :: "0" :: "." :: c :: Py.rstrip_by is_punct l)%char.
Proof.
  intros (m & Hs & ->)%extract_doi_is_core_match.
  unfold search in Hs.
  apply search_from_sound in Hs as (bef' & aft' & _ & Hst & Hm & _).
  apply doi_core_shape in Hm as (c & l & Hc & Hb).
  destruct m as [st e]. cbn [m_start m_end] in *. subst st.
  rewrite (group0_consumed bef' _ e Hb).
  exists c, l. split; [done|].
  rewrite clean_doi_digits by done.
  change ("1" :: "0" :: "." :: c :: l)%char
    with (["1"; "0"; "."]%char ++ c :: l).
  by rewrite rstrip_by_app by by apply decimal_not_punct.
Qed.

End DoiExtractor.

(** ** The characters of a generated key

    A generated key is made of ASCII letters, digits, [_] and [-] only; in
    particular it has no backslash, so that [re.sub] copies it from the
    replacement template as it stands. *)

Section GeneratedKeys.

Definition key_char (c : ascii) : bool :=
  Py.is_ascii_letter c || Py.isdecimal c || Ascii.eqb c "_" || Ascii.eqb c "-".

Definition plain (s : string) : Prop :=
  Forall (λ c, key_char c = true) (Py.to_list s).

Lemma plain_app s1 s2 : plain s1 → plain s2 → plain (s1 +:+ s2).
Proof. unfold plain. rewrite to_list_app. apply Forall_app_2. Qed.

Lemma plain_cons c s : key_char c = true → plain s → plain (String c s).
Proof. intros Hc Hs. by apply Forall_cons. Qed.

Lemma pretty_N_go_plain x :
  ∀ s, plain s → plain (pretty_N_go x s).
Proof.
  induction (N.lt_wf_0 x) as [x _ IH]; intros s Hs.
  assert (x = 0 ∨ 0 < x)%N as [->|Hx] by lia.
  - by rewrite pretty_N_go_0.
  - rewrite pretty_N_go_step by done. apply IH.
    + by apply N.div_lt.
    + apply plain_cons; [|done]. unfold pretty_N_char.
      by repeat case_match.
Qed.

Lemma pretty_N_plain (x : N) : plain (pretty x).
Proof.
  unfold pretty, pretty_N. case_decide.
  - by apply plain_cons; [|constructor].
  - apply pretty_N_go_plain. constructor.
Qed.

Lemma str_of_len_plain n : plain (Py.str_of_len n).
Proof. apply pretty_N_plain. Qed.

Lemma str_of_int_plain n : plain (Py.str_of_int n).
Proof.
  unfold Py.str_of_int, pretty, pretty_Z. destruct n as [|p|p].
  - by apply plain_cons; [|constructor].
  - apply pretty_N_plain.
  - apply plain_cons; [done|]. apply pretty_N_plain.
Qed.

Lemma clean_last_name_from_plain fuel :
  ∀ bef aft, (length aft < fuel)%nat →
    plain (sub_from non_letter (λ _, "") None fuel bef aft).
Proof.
  induction fuel as [|fuel IH]; intros bef aft Hlen; [lia|].
  destruct aft as [|c t]; simpl.
  - constructor.
  - destruct (negb (Py.is_ascii_letter c)) eqn:Hc; simpl.
    + rewrite (proj2 (Nat.ltb_lt _ _)) by lia.
      apply IH. simpl in Hlen. lia.
    + apply plain_cons.
      * unfold key_char. apply negb_false_iff in Hc. by rewrite Hc.
      * apply IH. simpl in Hlen. lia.
Qed.

Lemma clean_last_name_plain s : plain (clean_last_name s).
Proof.
  unfold clean_last_name, sub. apply clean_last_name_from_plain.
  unfold Py.to_list. rewrite <- (of_list_to_list s) at 2.
  unfold Py.of_list, Py.to_list.
  induction (list_ascii_of_string s) as [|c l IH]; simpl; lia.
Qed.

Lemma base_key_plain authors year base :
  base_key_of authors year = Some base → plain base.
Proof.
  destruct authors as [|a l]; simpl.
  - intros [= <-]. apply plain_app; [|apply str_of_int_plain].
    by repeat (apply plain_cons; [done|]); constructor.
  - destruct (last_name_of a) as [n|]; simpl; [|done].
    intros [= <-]. apply plain_app;
      [apply clean_last_name_plain | apply str_of_int_plain].
Qed.

Lemma generated_key_plain authors year existing_keys key :
  generate_bibtex_key authors year existing_keys = Some key → plain key.
Proof.
  destruct (base_key_of_total authors year) as [base Hb].
  rewrite (generate_bibtex_key_find _ _ _ _ Hb).
  pose proof (base_key_plain _ _ _ Hb) as Hp.
  destruct (find _ _) as [k|] eqn:Hf; simpl; intros [= <-].
  - apply find_some in Hf as [Hin _]. unfold candidates in Hin.
    apply in_inv in Hin as [<-|Hin]; [done|].
    apply list_elem_of_In, list_elem_of_fmap in Hin as (c & -> & Hc).
    apply plain_app; [done|]. apply plain_cons; [|constructor].
    revert c Hc. apply Forall_forall.
    apply (bool_decide_unpack _). by vm_compute.
  - unfold fallback_key. apply plain_app; [done|].
    apply plain_cons; [done|]. apply str_of_len_plain.
Qed.

Lemma generated_key_has_no_backslash authors year existing_keys key :
  generate_bibtex_key authors year existing_keys = Some key →
  Py.contains "\" key = false.
Proof.
  intros H%generated_key_plain. unfold Py.contains, plain in *.
  induction H as [|c l Hc _ IH]; simpl; [done|].
  rewrite IH, orb_false_r.
  destruct c as [[] [] [] [] [] [] [] []]; try discriminate Hc; reflexivity.
Qed.

End GeneratedKeys.

(** * Further properties of the code *)

(** ** More on the key generator *)

Section KeyGeneratorMore.
Implicit Types (E : gset string).

(** The characters of a base key: no underscore among them. *)
Definition base_char (c : ascii) : bool :=
  Py.is_ascii_letter c || Py.isdecimal c || Ascii.eqb c "-".

Definition chars_in (P : ascii → bool) (s : string) : Prop :=
  Forall (λ c, P c = true) (Py.to_list s).

Lemma chars_in_app P s1 s2 :
  chars_in P s1 → chars_in P s2 → chars_in P (s1 +:+ s2).
Proof. unfold chars_in. rewrite to_list_app. apply Forall_app_2. Qed.

Lemma chars_in_cons P c s :
  P c = true → chars_in P s → chars_in P (String c s).
Proof. intros Hc Hs. by apply Forall_cons. Qed.

Lemma chars_in_nil P : chars_in P "".
Proof. constructor. Qed.

Section Chars.
Variable P : ascii → bool.
Hypothesis P_digit : ∀ c, Py.isdecimal c = true → P c = true.
Hypothesis P_letter : ∀ c, Py.is_ascii_letter c = true → P c = true.
Hypothesis P_dash : P "-" = true.

Lemma pretty_N_go_chars x :
  ∀ s, chars_in P s → chars_in P (pretty_N_go x s).
Proof.
  induction (N.lt_wf_0 x) as [x _ IH]; intros s Hs.
  assert (x = 0 ∨ 0 < x)%N as [->|Hx] by lia.
  - by rewrite pretty_N_go_0.
  - rewrite pretty_N_go_step by done. apply IH.
    + by apply N.div_lt.
    + apply chars_in_cons; [|done]. apply P_digit.
      unfold pretty_N_char. by repeat case_match.
Qed.

Lemma pretty_N_chars (x : N) : chars_in P (pretty x).
Proof.
  unfold pretty, pretty_N. case_decide.
  - apply chars_in_cons; [by apply P_digit | apply chars_in_nil].
  - apply pretty_N_go_chars, chars_in_nil.
Qed.

Lemma str_of_int_chars n : chars_in P (Py.str_of_int n).
Proof.
  unfold Py.str_of_int, pretty, pretty_Z. destruct n as [|p|p].
  - apply chars_in_cons; [by apply P_digit | apply chars_in_nil].
  - apply pretty_N_chars.
  - apply chars_in_cons; [done | apply pretty_N_chars].
Qed.

Lemma clean_last_name_from_chars fuel :
  ∀ bef aft, (length aft < fuel)%nat →
    chars_in P (sub_from non_letter (λ _, "") None fuel bef aft).
Proof.
  induction fuel as [|fuel IH]; intros bef aft Hlen; [lia|].
  destruct aft as [|c t]; simpl.
  - constructor.
  - destruct (negb (Py.is_ascii_letter c)) eqn:Hc; simpl.
    + rewrite (proj2 (Nat.ltb_lt _ _)) by lia.
      apply IH. simpl in Hlen. lia.
    + apply chars_in_cons.
      * apply P_letter. by apply negb_false_iff in Hc.
      * apply IH. simpl in Hlen. lia.
Qed.

Lemma clean_last_name_chars s : chars_in P (clean_last_name s).
Proof.
  unfold clean_last_name, sub. apply clean_last_name_from_chars.
  unfold Py.to_list. rewrite <- (of_list_to_list s) at 2.
  unfold Py.of_list, Py.to_list.
  induction (list_ascii_of_string s) as [|c l IH]; simpl; lia.
Qed.

Lemma base_key_chars authors year base :
  base_key_of authors year = Some base → chars_in P base.
Proof.
  destruct authors as [|a l]; simpl.
  - intros [= <-]. apply chars_in_app; [|apply str_of_int_chars].
    repeat (apply chars_in_cons; [by apply P_letter|]). apply chars_in_nil.
  - destruct (last_name_of a) as [n|]; simpl; [|done].
    intros [= <-]. apply chars_in_app;
      [apply clean_last_name_chars | apply str_of_int_chars].
Qed.

End Chars.

Lemma base_key_no_underscore authors year base :
  base_key_of authors year = Some base → Py.contains "_" base = false.
Proof.
  intros H. apply (base_key_chars base_char) in H; try done.
  - unfold Py.contains, chars_in in *.
    induction H as [|c l Hc _ IH]; simpl; [done|].
    rewrite IH, orb_false_r.
    destruct c as [[] [] [] [] [] [] [] []]; try discriminate Hc; reflexivity.
  - intros c Hc. unfold base_char. by rewrite Hc, orb_true_r.
  - intros c Hc. unfold base_char. by rewrite Hc.
Qed.

End KeyGeneratorMore.

Section KeySequences.
Implicit Types (E : gset string).

(** Every count-based key [base_n] of the set has its number below the
    size of the set.  True of the empty set, and of every set that grew
    from it by adding the keys the generator returned. *)
Definition count_keys_in_range (E : gset string) : Prop :=
  ∀ base n,
    Py.contains "_" base = false →
    base +:+ "_" +:+ Py.str_of_len n ∈ E → (n < size E)%nat.

Lemma count_keys_in_range_empty : count_keys_in_range ∅.
Proof. intros base n _ H. by apply not_elem_of_empty in H. Qed.

Lemma contains_app c s1 s2 :
  Py.contains c (s1 +:+ s2) = Py.contains c s1 || Py.contains c s2.
Proof. unfold Py.contains. by rewrite to_list_app, existsb_app. Qed.

Lemma to_list_inj s1 s2 : Py.to_list s1 = Py.to_list s2 → s1 = s2.
Proof.
  intros H. rewrite <- (of_list_to_list s1), <- (of_list_to_list s2).
  by rewrite H.
Qed.

Lemma split_at_first (c : ascii) (l1 : list ascii) :
  ∀ l2 r1 r2,
    existsb (Ascii.eqb c) l1 = false → existsb (Ascii.eqb c) l2 = false →
    l1 ++ c :: r1 = l2 ++ c :: r2 → l1 = l2 ∧ r1 = r2.
Proof.
  induction l1 as [|a l1 IH]; intros [|b l2] r1 r2 H1 H2 H; simpl in *.
  - by injection H as ->.
  - injection H as <- _. by rewrite Ascii.eqb_refl in H2.
  - injection H as -> _. by rewrite Ascii.eqb_refl in H1.
  - injection H as -> H.
    apply orb_false_iff in H1 as [_ H1], H2 as [_ H2].
    destruct (IH _ _ _ H1 H2 H) as [-> ->]. done.
Qed.

Lemma count_key_inj base1 base2 (n1 n2 : nat) :
  Py.contains "_" base1 = false → Py.contains "_" base2 = false →
  base1 +:+ "_" +:+ Py.str_of_len n1 = base2 +:+ "_" +:+ Py.str_of_len n2 →
  base1 = base2 ∧ n1 = n2.
Proof.
  intros H1 H2 H. apply (f_equal Py.to_list) in H.
  rewrite !to_list_app in H.
  change (Py.to_list ("_" +:+ ?s)) with ("_"%char :: Py.to_list s) in H.
  apply split_at_first in H as [Hb Hn]; [|done..].
  apply to_list_inj in Hb, Hn. split; [done|].
  by apply (inj pretty) in Hn.
Qed.

Lemma count_key_has_underscore base x :
  Py.contains "_" (base +:+ "_" +:+ x) = true.
Proof.
  rewrite contains_app.
  change (Py.contains "_" ("_" +:+ x)) with true. apply orb_true_r.
Qed.

Lemma candidate_no_underscore base key :
  Py.contains "_" base = false → key ∈ candidates base →
  Py.contains "_" key = false.
Proof.
  intros Hb. unfold candidates.
  rewrite elem_of_cons, list_elem_of_fmap.
  intros [-> | (c & -> & Hc)]; [done|].
  unfold suffixed. rewrite contains_app, Hb. simpl.
  revert c Hc. apply Forall_forall.
  apply (bool_decide_unpack _). by vm_compute.
Qed.

(** X2. On a set where every count-based key has its number below the
    size of the set, the key returned is not in the set, and the set
    with the key added is such a set again. *)
Theorem returned_key_is_new_on_grown_sets authors year E key :
  count_keys_in_range E →
  generate_bibtex_key authors year E = Some key →
  (key ∉ E) ∧ count_keys_in_range ({[key]} ∪ E).
Proof.
  intros HE Hk.
  destruct (base_key_of_total authors year) as [base Hb].
  pose proof (base_key_no_underscore _ _ _ Hb) as Hu.
  rewrite (generate_bibtex_key_find _ _ _ _ Hb) in Hk.
  assert ((key ∉ E)
          ∧ (Py.contains "_" key = false ∨ key = fallback_key base E))
    as [Hnew Hshape].
  { destruct (find (free E) (candidates base)) as [k|] eqn:Hf;
      simpl in Hk; injection Hk as <-.
    - apply find_some in Hf as [Hin Hfree].
      apply list_elem_of_In in Hin.
      split; [by apply bool_decide_eq_true in Hfree|].
      left. by eapply candidate_no_underscore.
    - split; [|by right].
      intros Hin. apply (HE base (size E) Hu) in Hin. lia. }
  split; [done|].
  intros b n Hbu Hin.
  rewrite size_union by set_solver. rewrite size_singleton.
  apply elem_of_union in Hin as [Hin%elem_of_singleton|Hin].
  - destruct Hshape as [Hno|Hfb].
    + by rewrite <- Hin, count_key_has_underscore in Hno.
    + rewrite Hfb in Hin. unfold fallback_key in Hin.
      apply count_key_inj in Hin as [_ ->]; [lia|done..].
  - apply HE in Hin; [lia|done].
Qed.

(** A set where the letters ran out once before: the base key, its
    variants [a] .. [y], and the count-based key of that time. *)
Definition grown_keys : gset string :=
  list_to_set ("Smith2024" :: "Smith2024_26"
               :: (suffixed "Smith2024" <$> tested_letters)).

Lemma size_grown_keys : size grown_keys = 27%nat.
Proof.
  unfold grown_keys. rewrite size_list_to_set; [reflexivity|].
  apply (bool_decide_unpack _). by vm_compute.
Qed.

Lemma grown_keys_in_range : count_keys_in_range grown_keys.
Proof.
  intros base n Hb Hin. rewrite size_grown_keys.
  unfold grown_keys in Hin. rewrite elem_of_list_to_set in Hin.
  pose proof (count_key_has_underscore base (Py.str_of_len n)) as Hu.
  apply elem_of_cons in Hin as [Hin|Hin].
  { rewrite Hin in Hu. by vm_compute in Hu. }
  apply elem_of_cons in Hin as [Hin|Hin].
  { change "Smith2024_26" with ("Smith2024" +:+ "_" +:+ Py.str_of_len 26) in Hin.
    apply count_key_inj in Hin as [_ ->]; [lia|done|by vm_compute]. }
  assert (Py.contains "_" (base +:+ "_" +:+ Py.str_of_len n) = false) as Hno.
  { apply (candidate_no_underscore "Smith2024"); [by vm_compute|].
    unfold candidates. by apply elem_of_cons; right. }
  congruence.
Qed.

Lemma returned_key_is_new_on_grown_sets_witness :
  count_keys_in_range grown_keys
  ∧ generate_bibtex_key ["Smith, John"] 2024 grown_keys = Some "Smith2024_27"
  ∧ (("Smith2024_27" ∉ grown_keys)
     ∧ count_keys_in_range ({["Smith2024_27"]} ∪ grown_keys)).
Proof.
  assert (generate_bibtex_key ["Smith, John"] 2024 grown_keys
          = Some "Smith2024_27") as Hk by (by vm_compute).
  split; [apply grown_keys_in_range|]. split; [exact Hk|].
  apply (returned_key_is_new_on_grown_sets ["Smith, John"] 2024 grown_keys
           "Smith2024_27").
  - apply grown_keys_in_range.
  - exact Hk.
Defined.

(** X1. The generator in closed form: the key returned is the first key
    not in [existing_keys] among the base key and the base key followed by
    one of [a] .. [y], in that order, and the base key followed by [_] and
    the size of [existing_keys] when all of these are taken. *)
Theorem key_is_first_free_candidate authors year E :
  ∃ base,
    base_key_of authors year = Some base
    ∧ generate_bibtex_key authors year E
      = Some (default (base +:+ "_" +:+ Py.str_of_len (size E))
                (find (λ key, bool_decide (key ∉ E))
                   (base :: ((λ c, base +:+ String c "")
                             <$> Py.to_list "abcdefghijklmnopqrstuvwxy")))).
Proof.
  destruct (base_key_of_total authors year) as [base Hb].
  exists base. split; [done|].
  by rewrite (generate_bibtex_key_find _ _ _ _ Hb).
Qed.

End KeySequences.

Section AuthorFormats.

Definition letters_only (s : string) : Prop :=
  Forall (λ c, Py.is_ascii_letter c = true) (Py.to_list s).

Lemma letter_not_space c : Py.is_ascii_letter c = true → Py.isspace c = false.
Proof. destruct c as [[] [] [] [] [] [] [] []]; vm_compute; congruence. Qed.

Lemma letter_not_comma c :
  Py.is_ascii_letter c = true → Ascii.eqb c "," = false.
Proof. destruct c as [[] [] [] [] [] [] [] []]; vm_compute; congruence. Qed.

Lemma space_not_comma c : Py.isspace c = true → Ascii.eqb "," c = false.
Proof. destruct c as [[] [] [] [] [] [] [] []]; vm_compute; congruence. Qed.

(** Removing the non-letters of a name made of letters changes nothing. *)
Lemma clean_letters_from fuel :
  ∀ bef aft, (length aft < fuel)%nat →
    Forall (λ c, Py.is_ascii_letter c = true) aft →
    sub_from non_letter (λ _, "") None fuel bef aft = Py.of_list aft.
Proof.
  induction fuel as [|fuel IH]; intros bef aft Hlen Hl; [lia|].
  destruct aft as [|c t]; simpl; [done|].
  apply Forall_cons in Hl as [Hc Ht]. rewrite Hc. simpl.
  rewrite IH; [done| simpl in Hlen; lia | done].
Qed.

Lemma clean_last_name_letters s : letters_only s → clean_last_name s = s.
Proof.
  intros H. unfold clean_last_name, sub.
  rewrite clean_letters_from; [apply of_list_to_list| |done].
  unfold Py.to_list. rewrite <- (of_list_to_list s) at 2.
  unfold Py.of_list, Py.to_list.
  induction (list_ascii_of_string s) as [|c l IH]; simpl; lia.
Qed.

Lemma lstrip_by_none p l :
  match l with c :: _ => p c = false | [] => True end →
  Py.lstrip_by p l = l.
Proof. destruct l as [|c t]; simpl; [done|]. by intros ->. Qed.

Lemma strip_letters s : letters_only s → Py.strip s = s.
Proof.
  unfold letters_only, Py.strip, Py.rstrip_by. intros H.
  rewrite (lstrip_by_none _ (Py.to_list s)).
  - rewrite lstrip_by_none; [by rewrite rev_involutive, of_list_to_list|].
    apply Forall_rev in H.
    destruct (rev (Py.to_list s)) as [|c t]; [done|].
    apply Forall_cons in H as [Hc _]. by apply letter_not_space.
  - destruct (Py.to_list s) as [|c t]; [done|].
    apply Forall_cons in H as [Hc _]. by apply letter_not_space.
Qed.

(** [s.split(',')[0]] when [s] starts with a comma-free [w] and a comma. *)
Lemma split_on_first_field w rest :
  ∀ cur,
    Forall (λ c, Ascii.eqb c "," = false) w →
    Py.split_on "," cur (w ++ ","%char :: rest) !! 0%nat
    = Some (Py.of_list (rev cur ++ w)).
Proof.
  induction w as [|c w IH]; intros cur Hw; simpl.
  - by rewrite app_nil_r.
  - apply Forall_cons in Hw as [Hc Hw]. rewrite Hc.
    rewrite IH by done. simpl. by rewrite <- app_assoc.
Qed.

(** [s.split()] on a run of non-space characters. *)
Lemma words_go_word w :
  ∀ cur,
    Forall (λ c, Py.isspace c = false) w → rev cur ++ w ≠ [] →
    Py.words_go cur w = [Py.of_list (rev cur ++ w)].
Proof.
  induction w as [|c w IH]; intros cur Hw Hne; simpl.
  - rewrite app_nil_r in *. destruct cur; [done|]. done.
  - apply Forall_cons in Hw as [Hc Hw]. rewrite Hc.
    rewrite IH; [|done|simpl; by destruct (rev cur)].
    simpl. by rewrite <- app_assoc.
Qed.

(** [s.split()[-1]] when [s] ends with a space and a word [w]. *)
Lemma words_go_last l w :
  ∀ cur,
    Forall (λ c, Py.isspace c = false) w → w ≠ [] →
    last (Py.words_go cur (l ++ " "%char :: w)) = Some (Py.of_list w).
Proof.
  induction l as [|c l IH]; intros cur Hw Hne; simpl.
  - rewrite (words_go_word w []) by done. simpl.
    by destruct cur.
  - destruct (Py.isspace c).
    + destruct cur; [by apply IH|].
      rewrite last_cons, IH by done. done.
    + by apply IH.
Qed.

(** X3. "Last, First" and "First Last" give the same base key: for a
    surname made of ASCII letters and given names without a comma, both
    forms of the first author yield the surname followed by the year. *)
Theorem author_formats_give_same_base_key surname given year :
  surname ≠ "" → letters_only surname → Py.contains "," given = false →
  base_key_of [surname +:+ ", " +:+ given] year
  = Some (surname +:+ Py.str_of_int year)
  ∧ base_key_of [given +:+ " " +:+ surname] year
    = Some (surname +:+ Py.str_of_int year).
Proof.
  intros Hne Hl Hg.
  assert (Forall (λ c, Ascii.eqb c "," = false) (Py.to_list surname)) as Hnc.
  { eapply Forall_impl; [exact Hl|]. apply letter_not_comma. }
  assert (Forall (λ c, Py.isspace c = false) (Py.to_list surname)) as Hns.
  { eapply Forall_impl; [exact Hl|]. apply letter_not_space. }
  assert (Py.contains "," surname = false) as Hsc.
  { unfold Py.contains. clear -Hnc.
    induction Hnc as [|c l Hc _ IH]; cbn [existsb]; [done|].
    rewrite IH, orb_false_r. by rewrite Ascii.eqb_sym. }
  split; unfold base_key_of, last_name_of.
  - rewrite contains_app.
    change (Py.contains "," (", " +:+ given)) with true.
    rewrite orb_true_r. unfold Py.split.
    rewrite to_list_app.
    change (Py.to_list (", " +:+ given))
      with (","%char :: " "%char :: Py.to_list given).
    rewrite split_on_first_field by done. simpl.
    by rewrite of_list_to_list, strip_letters, clean_last_name_letters.
  - rewrite !contains_app, Hg, Hsc. simpl.
    unfold Py.split_ws. rewrite to_list_app.
    change (Py.to_list (" " +:+ surname))
      with (" "%char :: Py.to_list surname).
    assert (Py.to_list surname ≠ []) as Hne'.
    { intros H. apply Hne. rewrite <- (of_list_to_list surname). by rewrite H. }
    pose proof (words_go_last (Py.to_list given) (Py.to_list surname) []
                  Hns Hne') as Hlast.
    destruct (Py.words_go [] _) as [|p ps] eqn:Hw; [done|].
    unfold Py.last_item. rewrite Hlast. simpl.
    by rewrite of_list_to_list, clean_last_name_letters.
Qed.

Lemma author_formats_give_same_base_key_witness :
  "Smith" ≠ "" ∧ letters_only "Smith" ∧ Py.contains "," "John" = false
  ∧ (base_key_of ["Smith" +:+ ", " +:+ "John"] 2024
     = Some ("Smith" +:+ Py.str_of_int 2024)
     ∧ base_key_of ["John" +:+ " " +:+ "Smith"] 2024
       = Some ("Smith" +:+ Py.str_of_int 2024)).
Proof.
  split; [by vm_compute|].
  split; [apply (bool_decide_unpack _); by vm_compute|].
  split; [by vm_compute|].
  apply (author_formats_give_same_base_key "Smith" "John" 2024).
  - by vm_compute.
  - apply (bool_decide_unpack _). by vm_compute.
  - by vm_compute.
Defined.

Lemma words_go_spaces l :
  Forall (λ c, Py.isspace c = true) l → Py.words_go [] l = [].
Proof.
  induction 1 as [|c l Hc _ IH]; simpl; [done|]. by rewrite Hc.
Qed.

(** X5. A first author made of white space only (the empty string too)
    counts as no author: the base key is the one of an empty authors
    list, ["Unknown"] followed by the year. *)
Theorem blank_author_counts_as_unknown first_author others year :
  Forall (λ c, Py.isspace c = true) (Py.to_list first_author) →
  base_key_of (first_author :: others) year = base_key_of [] year.
Proof.
  intros H. unfold base_key_of, last_name_of.
  assert (Py.contains "," first_author = false) as ->.
  { unfold Py.contains.
    induction H as [|c l Hc _ IH]; cbn [existsb]; [done|].
    by rewrite IH, orb_false_r, space_not_comma. }
  unfold Py.split_ws. rewrite words_go_spaces by done. simpl.
  by vm_compute.
Qed.

Lemma blank_author_counts_as_unknown_witness :
  Forall (λ c, Py.isspace c = true) (Py.to_list "  ")
  ∧ base_key_of ["  "; "Jane Doe"] 1999 = base_key_of [] 1999.
Proof.
  split; [apply (bool_decide_unpack _); by vm_compute|].
  apply (blank_author_counts_as_unknown "  " ["Jane Doe"] 1999).
  apply (bool_decide_unpack _). by vm_compute.
Defined.

End AuthorFormats.

Section KeyShape.

Lemma pretty_N_go_length x :
  ∀ s, (String.length s ≤ String.length (pretty_N_go x s))%nat.
Proof.
  induction (N.lt_wf_0 x) as [x _ IH]; intros s.
  assert (x = 0 ∨ 0 < x)%N as [->|Hx] by lia.
  - by rewrite pretty_N_go_0.
  - rewrite pretty_N_go_step by done.
    etrans; [|apply IH; by apply N.div_lt]. simpl. lia.
Qed.

Lemma pretty_N_nonempty (x : N) : (0 < String.length (pretty x))%nat.
Proof.
  unfold pretty, pretty_N. case_decide; [simpl; lia|].
  rewrite pretty_N_go_step by lia.
  eapply Nat.lt_le_trans; [|apply pretty_N_go_length]. simpl. lia.
Qed.

Lemma str_of_int_nonempty n : (0 < String.length (Py.str_of_int n))%nat.
Proof.
  unfold Py.str_of_int, pretty, pretty_Z. destruct n as [|p|p].
  - simpl. lia.
  - apply pretty_N_nonempty.
  - change (0 < S (String.length (pretty (Npos p))))%nat. lia.
Qed.

Lemma base_key_nonempty authors year base :
  base_key_of authors year = Some base → (0 < String.length base)%nat.
Proof.
  pose proof (str_of_int_nonempty year).
  destruct authors as [|a l]; simpl.
  - intros [= <-]. rewrite string_length_app. lia.
  - destruct (last_name_of a) as [n|]; simpl; [|done].
    intros [= <-]. rewrite string_length_app. lia.
Qed.

Lemma generated_key_nonempty authors year E key :
  generate_bibtex_key authors year E = Some key →
  (0 < String.length key)%nat.
Proof.
  destruct (base_key_of_total authors year) as [base Hb].
  rewrite (generate_bibtex_key_find _ _ _ _ Hb).
  pose proof (base_key_nonempty _ _ _ Hb) as Hn.
  destruct (find _ _) as [k|] eqn:Hf; simpl; intros [= <-].
  - apply find_some in Hf as [Hin _]. unfold candidates in Hin.
    apply in_inv in Hin as [<-|Hin]; [done|].
    apply list_elem_of_In, list_elem_of_fmap in Hin as (c & -> & Hc).
    unfold suffixed. rewrite string_length_app. lia.
  - unfold fallback_key. rewrite string_length_app. lia.
Qed.

(** X4. The generator always returns a key, the key is not empty, and
    it is made of ASCII letters, digits, [_] and [-] only, whatever the
    author strings hold. *)
Theorem generated_key_is_plain_and_not_empty authors year E :
  ∃ key,
    generate_bibtex_key authors year E = Some key
    ∧ key ≠ ""
    ∧ Forall (λ c, Py.is_ascii_letter c || Py.isdecimal c
                   || Ascii.eqb c "_" || Ascii.eqb c "-" = true)
        (Py.to_list key).
Proof.
  destruct (generate_bibtex_key_total authors year E) as [key Hk].
  exists key. split; [done|]. split.
  - intros ->. apply generated_key_nonempty in Hk. simpl in Hk. lia.
  - by apply generated_key_plain in Hk.
Qed.

End KeyShape.

(** ** Greedy repetition of a character class *)

Section GreedyStar.

Definition stops_at (p : ascii → bool) (rest : list ascii) : Prop :=
  match rest with
  | c :: _ => p c = false
  | [] => True
  end.

Lemma star_run_chr_step {A} p fuel b a t g (k : pos → option A) :
  p a = true →
  star_run (run (Chr p)) (S fuel) (MkPos b (a :: t) g) k
  = match star_run (run (Chr p)) fuel (MkPos (a :: b) t g) k with
    | Some x => Some x
    | None => k (MkPos b (a :: t) g)
    end.
Proof.
  intros Ha. simpl. rewrite Ha. simpl.
  by rewrite (proj2 (Nat.ltb_lt (length t) (S (length t)))) by lia.
Qed.

Lemma star_run_chr_greedy {A} p l :
  ∀ b rest g fuel (k : pos → option A) x,
    Forall (λ c, p c = true) l → stops_at p rest →
    (length (l ++ rest) ≤ fuel)%nat →
    k (MkPos (rev l ++ b) rest g) = Some x →
    star_run (run (Chr p)) fuel (MkPos b (l ++ rest) g) k = Some x.
Proof.
  induction l as [|a l IH]; intros b rest g fuel k x Hl Hstop Hf Hk.
  - simpl in *. destruct fuel as [|fuel]; simpl; [done|].
    destruct rest as [|c rest]; simpl; [done|].
    simpl in Hstop. by rewrite Hstop.
  - apply Forall_cons in Hl as [Ha Hl].
    destruct fuel as [|fuel]; simpl in Hf; [lia|].
    change ((a :: l) ++ rest) with (a :: (l ++ rest)).
    rewrite star_run_chr_step by done.
    rewrite (IH (a :: b) rest g fuel k x); [done|done|done|lia|].
    simpl in Hk. by rewrite <- app_assoc in Hk.
Qed.

(** [p+], greedy, over a run of [p] characters that ends the subject or
    is followed by a character outside [p]. *)
Lemma run_plus_chr {A} p c l b rest g (k : pos → option A) x :
  p c = true → Forall (λ c, p c = true) l → stops_at p rest →
  k (MkPos (rev (c :: l) ++ b) rest g) = Some x →
  run (plus (Chr p)) (MkPos b (c :: l ++ rest) g) k = Some x.
Proof.
  intros Hc Hl Hstop Hk. unfold plus. simpl. rewrite Hc.
  apply star_run_chr_greedy; [done|done|simpl; lia|].
  simpl in Hk. by rewrite <- app_assoc in Hk.
Qed.

Lemma run_lit {A} c b t g (k : pos → option A) :
  run (lit c) (MkPos b (c :: t) g) k = k (MkPos (c :: b) t g).
Proof. unfold lit. simpl. by rewrite Ascii.eqb_refl. Qed.

Lemma run_lit_fails {A} c b a t g (k : pos → option A) :
  a ≠ c → run (lit c) (MkPos b (a :: t) g) k = None.
Proof.
  intros H. unfold lit. simpl.
  destruct (Ascii.eqb c a) eqn:He; [|done].
  apply Ascii.eqb_eq in He. congruence.
Qed.

(** The characters a repetition of a class went over are in the class. *)
Lemma star_chr_consumed p s e :
  matches (Star (Chr p)) s e →
  ∃ l, Forall (λ c, p c = true) l
       ∧ after s = l ++ after e ∧ before e = rev l ++ before s
       ∧ group1 e = group1 s.
Proof.
  intros H. remember (Star (Chr p)) as r eqn:Hr.
  induction H as [| | | | |r s|r s s1 e H1 _ Hlt H2 IH| | |];
    try discriminate Hr.
  - by exists [].
  - injection Hr as ->. destruct (IH eq_refl) as (l & Hl & Ha & Hb & Hg).
    inversion H1 as [|p' c t b g Hp| | | | | | | |]; subst. simpl in *.
    exists (c :: l). split; [by constructor|].
    rewrite Ha, Hb, Hg. simpl. by rewrite <- app_assoc.
Qed.

End GreedyStar.

(** ** The key written in a BibTeX text, and its replacement *)

Section KeyReadBack.

(** A text with an entry header: [prefix], then [@], the entry type, [{],
    the key, a comma, and the rest. *)
Definition header (prefix typ key rest : list ascii) : list ascii :=
  prefix ++ "@"%char :: typ ++ "{"%char :: key ++ ","%char :: rest.

Definition entry_text (prefix typ key rest : string) : string :=
  prefix +:+ "@" +:+ typ +:+ "{" +:+ key +:+ "," +:+ rest.

Record header_ok (prefix typ key : list ascii) : Prop := {
  prefix_no_at : Forall (λ c, c ≠ "@"%char) prefix;
  typ_not_empty : typ ≠ [];
  typ_word : Forall (λ c, isword c = true) typ;
  key_not_empty : key ≠ [];
  key_no_comma : Forall (λ c, negb (Ascii.eqb c ",") = true) key
}.

Lemma to_list_entry_text prefix typ key rest :
  Py.to_list (entry_text prefix typ key rest)
  = header (Py.to_list prefix) (Py.to_list typ) (Py.to_list key)
      (Py.to_list rest).
Proof.
  unfold entry_text, header.
  rewrite to_list_app.
  change ("@" +:+ typ +:+ "{" +:+ key +:+ "," +:+ rest)
    with (String "@" (typ +:+ "{" +:+ key +:+ "," +:+ rest)).
  change (Py.to_list (String "@" ?s)) with ("@"%char :: Py.to_list s).
  rewrite to_list_app.
  change ("{" +:+ key +:+ "," +:+ rest)
    with (String "{" (key +:+ "," +:+ rest)).
  change (Py.to_list (String "{" ?s)) with ("{"%char :: Py.to_list s).
  rewrite to_list_app.
  reflexivity.
Qed.

(** The key pattern at the [@] of a header. *)
Lemma run_key_pattern_at bef typ key rest :
  typ ≠ [] → Forall (λ c, isword c = true) typ →
  key ≠ [] → Forall (λ c, negb (Ascii.eqb c ",") = true) key →
  run key_pattern
    (MkPos bef ("@"%char :: typ ++ "{"%char :: key ++ ","%char :: rest) None)
    Some
  = Some (MkPos (","%char :: rev key ++ "{"%char :: rev typ ++ "@"%char :: bef)
            rest
            (Some (length bef, length ("{"%char :: rev typ ++ "@"%char :: bef)))).
Proof.
  intros Ht Htw Hk Hkc.
  destruct typ as [|t typ]; [done|]. destruct key as [|k key]; [done|].
  apply Forall_cons in Htw as [Htc Htw]. apply Forall_cons in Hkc as [Hkc0 Hkc].
  unfold key_pattern. cbn [run]. rewrite run_lit.
  change ((t :: typ) ++ ?x) with (t :: typ ++ x).
  apply run_plus_chr; [done|done|done|].
  rewrite run_lit. cbn [before after offset].
  change ((k :: key) ++ ?x) with (k :: key ++ x).
  apply run_plus_chr; [done|done|done|].
  rewrite run_lit. reflexivity.
Qed.

Lemma run_key_pattern_not_at bef c rest :
  c ≠ "@"%char → run key_pattern (MkPos bef (c :: rest) None) Some = None.
Proof.
  intros Hc. unfold key_pattern. cbn [run]. by apply run_lit_fails.
Qed.

Lemma search_key_pattern prefix typ key rest :
  header_ok prefix typ key →
  ∀ bef,
    search_from key_pattern bef (header prefix typ key rest)
    = Some (MkMatch (length (rev prefix ++ bef))
              (MkPos (","%char :: rev key ++ "{"%char :: rev typ
                      ++ "@"%char :: rev prefix ++ bef)
                 rest
                 (Some (length (rev prefix ++ bef),
                        length ("{"%char :: rev typ ++ "@"%char
                                :: rev prefix ++ bef))))).
Proof.
  intros [Hp Ht Htw Hk Hkc]. unfold header.
  induction Hp as [|c prefix Hc _ IH]; intros bef.
  - simpl app. rewrite search_from_unfold.
    by rewrite run_key_pattern_at.
  - change ((c :: prefix) ++ ?x) with (c :: prefix ++ x).
    rewrite search_from_unfold, run_key_pattern_not_at by done.
    rewrite IH. simpl. by rewrite <- !app_assoc.
Qed.

Lemma length_rev_app {A} (l b : list A) :
  length (rev l ++ b) = (length l + length b)%nat.
Proof. by rewrite length_app, length_rev. Qed.

(** Reading a span of the subject back from a position. *)
Lemma span_between e (pre mid : list ascii) :
  ∀ post, rev (before e) ++ after e = pre ++ mid ++ post →
  span e (length pre) (length pre + length mid) = Py.of_list mid.
Proof.
  intros post H. unfold span. rewrite H.
  rewrite drop_app_length.
  replace (length pre + length mid - length pre)%nat with (length mid) by lia.
  by rewrite take_app_length.
Qed.

(** Reading the key of a header gives the key. *)
Lemma embedded_key_of_header prefix typ key rest :
  header_ok prefix typ key →
  embedded_key (Py.of_list (header prefix typ key rest))
  = Some (Py.of_list key).
Proof.
  intros Hok. unfold embedded_key, search.
  rewrite to_list_of_list, (search_key_pattern _ _ _ _ Hok).
  cbn [m_end group1]. f_equal. unfold offset. cbn [before].
  set (pre := prefix ++ "@"%char :: typ ++ ["{"%char]).
  assert (length ("{"%char :: rev typ ++ "@"%char :: rev prefix ++ [])
          = length pre) as ->.
  { unfold pre. simpl. rewrite !length_app. simpl.
    rewrite !length_app, !length_rev. simpl. lia. }
  assert (length (","%char :: rev key ++ "{"%char :: rev typ
                  ++ "@"%char :: rev prefix ++ []) - 1
          = length pre + length key)%nat as ->.
  { unfold pre. simpl. rewrite !length_app. simpl.
    rewrite !length_app, !length_rev. simpl.
    rewrite ?length_app, ?length_rev. simpl. lia. }
  apply (span_between _ pre key (","%char :: rest)).
  unfold pre. simpl.
  rewrite !rev_app_distr. simpl. rewrite !rev_app_distr. simpl.
  rewrite ?rev_involutive, ?app_nil_r, <- ?app_assoc. simpl.
  by rewrite ?rev_involutive, <- ?app_assoc.
Qed.

Lemma length_of_list l : String.length (Py.of_list l) = length l.
Proof. induction l as [|c l IH]; simpl; [done | by rewrite IH]. Qed.

Lemma sub_key_pattern_skip repl prefix :
  ∀ bef fuel rest,
    Forall (λ c, c ≠ "@"%char) prefix →
    sub_from key_pattern repl (Some 1%nat) (length prefix + fuel) bef
      (prefix ++ rest)
    = Py.of_list prefix
      +:+ sub_from key_pattern repl (Some 1%nat) fuel (rev prefix ++ bef) rest.
Proof.
  induction prefix as [|c prefix IH]; intros bef fuel rest Hp; [done|].
  apply Forall_cons in Hp as [Hc Hp].
  change (length (c :: prefix) + fuel)%nat with (S (length prefix + fuel)).
  change ((c :: prefix) ++ rest) with (c :: (prefix ++ rest)).
  cbn [sub_from]. rewrite run_key_pattern_not_at by done.
  rewrite IH by done. simpl. by rewrite <- app_assoc.
Qed.

(** Replacing the key of a header puts the new key in its place and
    leaves the rest of the text as it was. *)
Lemma replace_key_of_header prefix typ key rest new_key :
  header_ok prefix typ key →
  _replace_bibtex_key (Py.of_list (header prefix typ key rest)) new_key
  = Py.of_list (header prefix typ (Py.to_list new_key) rest).
Proof.
  intros Hok. pose proof Hok as [Hp Ht Htw Hk Hkc].
  unfold _replace_bibtex_key, sub.
  rewrite to_list_of_list, length_of_list.
  unfold header at 1 2.
  replace (S (length (prefix ++ "@"%char :: typ ++ "{"%char :: key
                      ++ ","%char :: rest)))
    with (length prefix
          + S (length ("@"%char :: typ ++ "{"%char :: key ++ ","%char :: rest)))%nat
    by (rewrite length_app; lia).
  rewrite sub_key_pattern_skip by done.
  cbn [sub_from]. rewrite run_key_pattern_at by done.
  cbn [after before fmap option_fmap option_map pred].
  assert ((length rest
           <? length ("@"%char :: typ ++ "{"%char :: key ++ ","%char :: rest))%nat
          = true) as ->.
  { apply Nat.ltb_lt. simpl. rewrite !length_app. simpl.
    rewrite length_app. simpl. lia. }
  assert (∀ f b, sub_from key_pattern
                   (λ m, default "" (group_1 m) +:+ new_key +:+ ",")
                   (Some 0%nat) f b rest = Py.of_list rest) as ->.
  { by intros [|f] b. }
  unfold group_1. cbn [m_end group1].
  assert (length (rev prefix ++ []) = length prefix) as ->
    by (rewrite length_rev_app; simpl; lia).
  assert (length ("{"%char :: rev typ ++ "@"%char :: rev prefix ++ [])
          = length prefix + length ("@"%char :: typ ++ ["{"%char]))%nat as ->.
  { simpl. rewrite !length_app. simpl.
    rewrite ?length_app, ?length_rev. simpl. lia. }
  rewrite (span_between _ prefix ("@"%char :: typ ++ ["{"%char])
             (key ++ ","%char :: rest)).
  - apply to_list_inj. rewrite !to_list_app, !to_list_of_list.
    cbn [default id]. rewrite to_list_of_list.
    unfold header. simpl. by rewrite <- !app_assoc.
  - simpl. rewrite ?rev_app_distr. simpl.
    rewrite ?rev_app_distr, ?rev_involutive. simpl.
    rewrite ?rev_app_distr, ?rev_involutive, <- ?app_assoc. simpl.
    by rewrite ?rev_involutive, ?app_nil_r, <- ?app_assoc.
Qed.

Lemma contains_false_forall c s :
  Py.contains c s = false → Forall (λ x, x ≠ c) (Py.to_list s).
Proof.
  unfold Py.contains. induction (Py.to_list s) as [|a l IH]; cbn [existsb].
  - constructor.
  - intros [Ha Hl]%orb_false_iff. constructor; [|by apply IH].
    intros ->. by rewrite Ascii.eqb_refl in Ha.
Qed.

Lemma string_not_empty s : s ≠ "" → Py.to_list s ≠ [].
Proof.
  intros Hs H. apply Hs. rewrite <- (of_list_to_list s). by rewrite H.
Qed.

Lemma header_ok_strings prefix typ key :
  Py.contains "@" prefix = false →
  typ ≠ "" → Forall (λ c, isword c = true) (Py.to_list typ) →
  key ≠ "" → Py.contains "," key = false →
  header_ok (Py.to_list prefix) (Py.to_list typ) (Py.to_list key).
Proof.
  intros Hp Ht Htw Hk Hkc. split.
  - by apply contains_false_forall.
  - by apply string_not_empty.
  - done.
  - by apply string_not_empty.
  - eapply Forall_impl; [by apply contains_false_forall|].
    intros c Hc. apply negb_true_iff.
    destruct (Ascii.eqb c ",") eqn:He; [|done].
    by apply Ascii.eqb_eq in He.
Qed.

Lemma entry_text_of_list prefix typ key rest :
  entry_text prefix typ key rest
  = Py.of_list (header (Py.to_list prefix) (Py.to_list typ) (Py.to_list key)
                  (Py.to_list rest)).
Proof.
  apply to_list_inj. by rewrite to_list_entry_text, to_list_of_list.
Qed.

(** X6. On a text made of a part without [@], then [@type{key,] and any
    rest, where the type is made of word characters and the key holds no
    comma: the key read from the text is [key]; replacing it by a new key
    that holds neither a comma nor a backslash changes the key and
    nothing else; and the key read from the result is the new key. *)
Theorem replaced_key_reads_back prefix typ old_key rest new_key :
  Py.contains "@" prefix = false →
  typ ≠ "" → Forall (λ c, isword c = true) (Py.to_list typ) →
  old_key ≠ "" → Py.contains "," old_key = false →
  new_key ≠ "" → Py.contains "," new_key = false →
  Py.contains "\" new_key = false →
  embedded_key (entry_text prefix typ old_key rest) = Some old_key
  ∧ _replace_bibtex_key (entry_text prefix typ old_key rest) new_key
    = entry_text prefix typ new_key rest
  ∧ embedded_key
      (_replace_bibtex_key (entry_text prefix typ old_key rest) new_key)
    = Some new_key.
Proof.
  intros Hp Ht Htw Hk Hkc Hn Hnc _.
  pose proof (header_ok_strings _ _ _ Hp Ht Htw Hk Hkc) as Hold.
  pose proof (header_ok_strings _ _ _ Hp Ht Htw Hn Hnc) as Hnew.
  assert (_replace_bibtex_key (entry_text prefix typ old_key rest) new_key
          = entry_text prefix typ new_key rest) as Hrep.
  { rewrite !entry_text_of_list. by apply replace_key_of_header. }
  split; [|split; [done|]].
  - rewrite entry_text_of_list, embedded_key_of_header by done.
    by rewrite of_list_to_list.
  - rewrite Hrep, entry_text_of_list, embedded_key_of_header by done.
    by rewrite of_list_to_list.
Qed.

Lemma replaced_key_reads_back_witness :
  Py.contains "@" " " = false
  ∧ "article" ≠ ""
  ∧ Forall (λ c, isword c = true) (Py.to_list "article")
  ∧ "Old_2020" ≠ "" ∧ Py.contains "," "Old_2020" = false
  ∧ "Smith2020" ≠ "" ∧ Py.contains "," "Smith2020" = false
  ∧ Py.contains "\" "Smith2020" = false
  ∧ (embedded_key (entry_text " " "article" "Old_2020" " title={T}}")
     = Some "Old_2020"
     ∧ _replace_bibtex_key
         (entry_text " " "article" "Old_2020" " title={T}}") "Smith2020"
       = entry_text " " "article" "Smith2020" " title={T}}"
     ∧ embedded_key
         (_replace_bibtex_key
            (entry_text " " "article" "Old_2020" " title={T}}") "Smith2020")
       = Some "Smith2020").
Proof.
  split; [by vm_compute|]. split; [by vm_compute|].
  split; [apply (bool_decide_unpack _); by vm_compute|].
  split; [by vm_compute|]. split; [by vm_compute|].
  split; [by vm_compute|]. split; [by vm_compute|].
  split; [by vm_compute|].
  apply (replaced_key_reads_back " " "article" "Old_2020" " title={T}}"
           "Smith2020");
    try (by vm_compute).
  apply (bool_decide_unpack _). by vm_compute.
Defined.

(** A generated key has no comma. *)
Lemma generated_key_no_comma authors year E key :
  generate_bibtex_key authors year E = Some key →
  Py.contains "," key = false.
Proof.
  intros H%generated_key_plain. unfold Py.contains, plain in *.
  induction H as [|c l Hc _ IH]; cbn [existsb]; [done|].
  rewrite IH, orb_false_r.
  destruct c as [[] [] [] [] [] [] [] []]; try discriminate Hc; reflexivity.
Qed.

(** The key read from an entry the module writes for a generated key. *)
Lemma created_entry_key_reads_back authors year E key title auths y kwargs :
  generate_bibtex_key authors year E = Some key →
  embedded_key (_create_bibtex_entry "article" key title auths y kwargs)
  = Some key.
Proof.
  intros Hk.
  destruct (created_entry_starts_with_key "article" key title auths y kwargs)
    as [rest ->].
  change ("@" +:+ "article" +:+ "{" +:+ key +:+ "," +:+ rest)
    with (entry_text "" "article" key rest).
  rewrite entry_text_of_list, embedded_key_of_header.
  - by rewrite of_list_to_list.
  - apply header_ok_strings; try done.
    + apply (bool_decide_unpack _). by vm_compute.
    + intros ->. apply generated_key_nonempty in Hk. simpl in Hk. lia.
    + by eapply generated_key_no_comma.
Qed.

End KeyReadBack.

(** ** What holds of every record the extractor returns *)

Section Records.
Variable w : world.
Variable self : MetadataExtractor.

(** The strategies that write the BibTeX text themselves. *)
Definition writes_entry (m : ExtractionMethod) : bool :=
  match m with
  | ARXIV | PDF_METADATA | PARSED => true
  | _ => false
  end.

(** The methods a returned record can carry. *)
Definition returning_method (m : ExtractionMethod) : bool :=
  match m with
  | PDF2BIB | CROSSREF | ARXIV | PDF_METADATA | PARSED => true
  | PUBMED | MANUAL => false
  end.

Definition record_inv (existing_keys : gset string) (r : PaperMetadata)
  : Prop :=
  generate_bibtex_key (authors r) (year r) existing_keys
  = Some (bibtex_key r)
  ∧ returning_method (extraction_method r) = true
  ∧ (∀ d, doi r = Some d → url r = Some ("https://doi.org/" +:+ d))
  ∧ (writes_entry (extraction_method r) = true →
     ∃ kwargs,
       bibtex_entry r
       = _create_bibtex_entry "article" (bibtex_key r) (title r)
           (authors r) (year r) kwargs)
  ∧ (extraction_method r = PDF_METADATA →
     title r ≠ "" ∧ (∃ a, authors r = [a] ∧ a ≠ "") ∧ year r ≠ 0%Z
     ∧ doi r = None ∧ url r = None).

Lemma truthy_some s : truthy (Some s) = true → s ≠ "".
Proof. simpl. intros H ->. done. Qed.

Lemma pdf2bib_record_inv pdf_path existing_keys md :
  pdf2bib_result w pdf_path existing_keys = Some md →
  record_inv existing_keys md.
Proof.
  unfold pdf2bib_result, pdf2bib_body.
  assert (∀ pdf_result,
    default None
      (let identifier := p_identifier pdf_result in
       if negb (truthy identifier) then Some None else
       let identifier_type := default "unknown" (p_identifier_type pdf_result) in
       let bibtex_entry := p_bibtex pdf_result in
       if negb (truthy bibtex_entry) then Some None else
       let bibtex_entry := default "" bibtex_entry in
       match _parse_bibtex_entry w bibtex_entry with
       | None => Some None
       | Some parsed =>
           match generate_bibtex_key (e_authors parsed) (e_year parsed)
                   existing_keys with
           | None => None
           | Some bibtex_key =>
               let bibtex_entry := _replace_bibtex_key bibtex_entry bibtex_key in
               let doi :=
                 or_else (e_doi parsed)
                   (if String.eqb identifier_type "doi" then identifier
                    else None) in
               let url_link :=
                 if truthy doi then
                   Some ("https://doi.org/" +:+ default "" doi)
                 else if String.eqb identifier_type "arxiv" then
                   Some ("https://arxiv.org/abs/" +:+ default "" identifier)
                 else p_url pdf_result in
               Some (Some (MkPaper (e_title parsed) (e_authors parsed)
                 (e_year parsed) bibtex_key bibtex_entry
                 (e_journal parsed) (e_volume parsed) (e_pages parsed)
                 doi url_link None (e_publisher parsed) PDF2BIB))
           end
       end) = Some md → record_inv existing_keys md) as Hbody.
  { intros pdf_result. cbv zeta.
    destruct (truthy (p_identifier pdf_result)) eqn:Hid; simpl; [|done].
    destruct (truthy (p_bibtex pdf_result)) eqn:Hbib; simpl; [|done].
    destruct (_parse_bibtex_entry w _) as [parsed|]; simpl; [|done].
    destruct (generate_bibtex_key _ _ _) as [key|] eqn:Hk; simpl; [|done].
    intros [= <-]. unfold record_inv. simpl.
    split; [done|]. split; [done|]. split; [|split; done].
    intros d Hd.
    assert (truthy (Some d) = true) as Ht.
    { unfold or_else in Hd.
      destruct (truthy (e_doi parsed)) eqn:He; [by rewrite <- Hd|].
      destruct (String.eqb _ "doi"); [by rewrite <- Hd|done]. }
    rewrite Hd, Ht. done. }
  destruct (pdf2bib_call w pdf_path) as [| |r|[r|]|]; try done;
    apply Hbody.
Qed.

Lemma crossref_loop_record_inv doi existing_keys attempts :
  ∀ s md,
    (crossref_loop w self doi existing_keys attempts s).1 = Some (Some md) →
    record_inv existing_keys md ∧ Extractor.doi md = Some doi
    ∧ extraction_method md = CROSSREF.
Proof.
  induction attempts as [|j rest IH]; intros s md; [done|].
  cbn [crossref_loop]. unfold bind, http_get.
  set (s1 := MkState (trace s ++ [HttpGet (crossref_url doi)])
                     (S (requests s))).
  destruct (session_get w (requests s) (crossref_url doi))
    as [status_code text|].
  - destruct (status_code =? 200)%Z.
    + destruct (_parse_bibtex_entry w text) as [parsed|]; [|apply IH].
      unfold ret, crossref_record. cbn [fst].
      destruct (generate_bibtex_key _ _ _) as [key|] eqn:Hk; [|done].
      simpl. intros [= <-].
      unfold record_inv. simpl. repeat split; try done.
      by intros d [= <-].
    + destruct (status_code =? 404)%Z; [done|apply IH].
  - destruct (Z.of_nat j <? max_retries self - 1)%Z; [|apply IH].
    unfold time_sleep. destruct (Qle_bool 0 (backoff self j)); [apply IH|done].
Qed.

Lemma crossref_record_inv doi existing_keys s md :
  (_get_metadata_from_crossref w self doi existing_keys s).1 = Some (Some md) →
  record_inv existing_keys md ∧ Extractor.doi md = Some doi
  ∧ extraction_method md = CROSSREF.
Proof. apply crossref_loop_record_inv. Qed.

Lemma arxiv_record_inv arxiv_id existing_keys s md :
  (_get_metadata_from_arxiv w arxiv_id existing_keys s).1 = Some md →
  record_inv existing_keys md.
Proof.
  unfold _get_metadata_from_arxiv, bind, http_get, ret. simpl.
  unfold arxiv_body.
  destruct (session_get _ _ _) as [status_code content|]; simpl; [|done].
  destruct (status_code =? 200)%Z; simpl; [|done].
  destruct (arxiv_feed w content) as [[entry|]|]; simpl; try done.
  destruct (a_title entry); simpl; [|done].
  destruct (a_authors entry); simpl; [|done].
  destruct (a_published entry); simpl; [|done].
  destruct (Py.int_of_str _); simpl; [|done].
  destruct (a_summary entry); simpl; [|done].
  destruct (generate_bibtex_key _ _ _) eqn:Hk; simpl; [|done].
  intros [= <-]. unfold record_inv. simpl.
  repeat split; try done. intros _. by eexists.
Qed.

Lemma pdf_metadata_record_inv pdf_path existing_keys md :
  _extract_from_pdf_metadata w pdf_path existing_keys = Some md →
  record_inv existing_keys md.
Proof.
  unfold _extract_from_pdf_metadata, pdf_metadata_body.
  destruct (fitz_metadata w pdf_path) as [[metadata|]|]; simpl; try done.
  destruct (truthy (d_creationDate metadata)); [|done].
  destruct (Py.int_of_str _) as [y|]; [|done].
  destruct (truthy (d_title metadata)) eqn:Ht; simpl; [|done].
  destruct (truthy (d_author metadata)) eqn:Ha; simpl; [|done].
  destruct (y =? 0)%Z eqn:Hy; simpl; [done|].
  destruct (generate_bibtex_key _ _ _) eqn:Hk; simpl; [|done].
  intros [= <-]. unfold record_inv. simpl.
  destruct (d_title metadata) as [t|]; [|done].
  destruct (d_author metadata) as [a|]; [|done]. simpl in *.
  split; [done|]. split; [done|]. split; [done|].
  split; [intros _; by eexists|]. intros _.
  split; [by apply truthy_some|].
  split; [exists a; split; [done|by apply truthy_some]|].
  split; [by apply Z.eqb_neq|done].
Qed.

Lemma parsed_record_inv text pdf_path existing_keys md :
  _parse_metadata_from_text text pdf_path existing_keys = Some md →
  record_inv existing_keys md.
Proof.
  destruct (parse_metadata_from_text_spec text pdf_path existing_keys)
    as (key & Hk & ->).
  intros [= <-]. unfold record_inv. simpl.
  repeat split; try done. intros _. by eexists.
Qed.

(** Whatever holds of the records of each strategy holds of the record
    the cascade returns. *)
Lemma attempt_returns (P : PaperMetadata → Prop) m run next :
  (∀ s md, (run s).1 = Some (Some md) → P md) →
  (∀ s r, (next s).1 = Some r → P r) →
  ∀ s r, (attempt m run next s).1 = Some r → P r.
Proof.
  intros Hrun Hnext s r. unfold attempt, bind, emit.
  set (s0 := MkState (trace s ++ [Call m]) (requests s)).
  specialize (Hrun s0). destruct (run s0) as [[[md|]|] s1]; simpl in *.
  - intros [= <-]. by apply Hrun.
  - apply Hnext.
  - done.
Qed.

Lemma cascade_returns (P : PaperMetadata → Prop)
    pdf_path first_pages_text existing_keys :
  (∀ md, pdf2bib_result w pdf_path existing_keys = Some md → P md) →
  (∀ doi s md,
     truthy (Some doi) = true →
     (_get_metadata_from_crossref w self doi existing_keys s).1
     = Some (Some md) → P md) →
  (∀ id s md,
     (_get_metadata_from_arxiv w id existing_keys s).1 = Some md → P md) →
  (∀ md, _extract_from_pdf_metadata w pdf_path existing_keys = Some md → P md) →
  (∀ text md,
     _parse_metadata_from_text text pdf_path existing_keys = Some md → P md) →
  ∀ s r,
    (cascade w self pdf_path first_pages_text existing_keys s).1 = Some r →
    P r.
Proof.
  intros H1 H2 H3 H5 H6. unfold cascade.
  assert (∀ s r, (parse_text pdf_path first_pages_text existing_keys s).1
                 = Some r → P r) as Ht.
  { intros s r. unfold parse_text, bind, emit.
    destruct (_parse_metadata_from_text _ _ _) as [md|] eqn:Hp; simpl;
      [|done].
    intros [= <-]. by eapply H6. }
  assert (∀ s r, (try_pdf_metadata w pdf_path existing_keys
                    (parse_text pdf_path first_pages_text existing_keys) s).1
                 = Some r → P r) as Hm.
  { unfold try_pdf_metadata. apply attempt_returns; [|done].
    intros s md [= Hmd]. by apply H5. }
  assert (∀ next, (∀ s r, (next s).1 = Some r → P r) →
            ∀ s r, (try_pubmed first_pages_text existing_keys next s).1
                   = Some r → P r) as Hp.
  { intros next Hn. unfold try_pubmed.
    destruct (truthy first_pages_text); [|done].
    destruct (truthy _); [|done].
    apply attempt_returns; [|done]. by intros s md. }
  assert (∀ next, (∀ s r, (next s).1 = Some r → P r) →
            ∀ s r, (try_arxiv w first_pages_text existing_keys next s).1
                   = Some r → P r) as Ha.
  { intros next Hn. unfold try_arxiv.
    destruct (truthy first_pages_text); [|done].
    destruct (truthy _); [|done].
    apply attempt_returns; [|done].
    intros s md. unfold bind.
    destruct (_get_metadata_from_arxiv _ _ _ _) as [res s'] eqn:Hr.
    simpl. intros [= ->]. eapply H3. by rewrite Hr. }
  assert (∀ next, (∀ s r, (next s).1 = Some r → P r) →
            ∀ s r, (try_crossref w self first_pages_text existing_keys next s).1
                   = Some r → P r) as Hc.
  { intros next Hn. unfold try_crossref.
    destruct (truthy first_pages_text); [|done].
    destruct (extract_doi_from_text _) as [doi|] eqn:Hd; [|done].
    destruct (truthy (Some doi)) eqn:Htr; [|done].
    apply attempt_returns; [|done]. intros s md. by apply H2. }
  unfold try_pdf2bib. destruct (PDF2BIB_AVAILABLE w).
  - apply attempt_returns; [by intros s md [= Hmd]; apply H1|].
    by apply Hc, Ha, Hp.
  - by apply Hc, Ha, Hp.
Qed.

Lemma extract_metadata_record_inv
    pdf_path first_pages_text existing_keys s r :
  (extract_metadata w self pdf_path first_pages_text existing_keys s).1
  = Some r →
  record_inv (default ∅ existing_keys) r.
Proof.
  unfold extract_metadata. cbv zeta.
  apply (cascade_returns (record_inv (default ∅ existing_keys))).
  - apply pdf2bib_record_inv.
  - intros doi s' md _ H. by apply crossref_record_inv in H as [H _].
  - intros id s' md. apply arxiv_record_inv.
  - apply pdf_metadata_record_inv.
  - intros text md. apply parsed_record_inv.
Qed.

End Records.

Section RecordProperties.
Variable w : world.
Variable self : MetadataExtractor.
Variable pdf_path : string.
Variable first_pages_text : option string.
Variable existing_keys : option (gset string).
Variable s : state.

(** A record is returned when the delay is not negative: with a negative
    one [time.sleep] can raise out of [extract_metadata]. *)
Hypothesis delay_not_negative : (0 <= retry_delay self)%Q.

Lemma extract_metadata_returns :
  ∃ r,
    (extract_metadata w self pdf_path first_pages_text existing_keys s).1
    = Some r
    ∧ record_inv (default ∅ existing_keys) r.
Proof.
  destruct (cascade_is_ok w self delay_not_negative pdf_path first_pages_text
              (default ∅ existing_keys) s) as (r & _ & _ & _ & Hr & _).
  exists r. split; [exact Hr|].
  by eapply extract_metadata_record_inv.
Qed.

(** X7. For a delay that is not negative, [extract_metadata] returns a
    record, and the key of the record is the key the
    generator gives for the record's own authors and year and the keys
    passed in (none, when [existing_keys] is [None]), whichever strategy
    produced the record. *)
Theorem record_key_is_generated_from_record :
  ∃ r,
    (extract_metadata w self pdf_path first_pages_text existing_keys s).1
    = Some r
    ∧ generate_bibtex_key (authors r) (year r) (default ∅ existing_keys)
      = Some (bibtex_key r).
Proof.
  destruct extract_metadata_returns as (r & Hr & Hk & _).
  by exists r.
Qed.

(** X8. For a delay that is not negative, [extract_metadata] returns a
    record, and in that record a DOI never comes without its link: when [doi] is set, [url] is [https://doi.org/]
    followed by that DOI. *)
Theorem record_doi_has_its_url :
  ∃ r,
    (extract_metadata w self pdf_path first_pages_text existing_keys s).1
    = Some r
    ∧ ∀ d, doi r = Some d → url r = Some ("https://doi.org/" +:+ d).
Proof.
  destruct extract_metadata_returns as (r & Hr & _ & _ & Hd & _).
  by exists r.
Qed.

(** X9. For a delay that is not negative, [extract_metadata] returns a
    record, and the record is never marked as coming from PubMed or as
    manual: the PubMed strategy returns nothing, whatever identifier was
    found. *)
Theorem record_is_never_from_pubmed :
  ∃ r,
    (extract_metadata w self pdf_path first_pages_text existing_keys s).1
    = Some r
    ∧ extraction_method r ≠ PUBMED ∧ extraction_method r ≠ MANUAL.
Proof.
  destruct extract_metadata_returns as (r & Hr & _ & Hm & _).
  exists r. split; [done|].
  by destruct (extraction_method r).
Qed.

(** X10. For a delay that is not negative, [extract_metadata] returns a
    record; when it comes from the arXiv, PDF-properties or
    text-heuristic strategy, the key read from its BibTeX text is the key
    of the record. *)
Theorem written_entry_carries_record_key :
  ∃ r,
    (extract_metadata w self pdf_path first_pages_text existing_keys s).1
    = Some r
    ∧ (extraction_method r = ARXIV ∨ extraction_method r = PDF_METADATA
       ∨ extraction_method r = PARSED →
       embedded_key (bibtex_entry r) = Some (bibtex_key r)).
Proof.
  destruct extract_metadata_returns as (r & Hr & Hk & _ & _ & Hw & _).
  exists r. split; [done|]. intros Hm.
  destruct Hw as [kwargs ->].
  { by destruct Hm as [->|[->| ->]]. }
  by eapply created_entry_key_reads_back.
Qed.

(** X11. For a delay that is not negative, [extract_metadata] returns a
    record; a record from the PDF-properties strategy has a title that is
    not empty, exactly one author, not empty either, a year other than
    0, and neither DOI nor URL. *)
Theorem pdf_properties_record_is_complete :
  ∃ r,
    (extract_metadata w self pdf_path first_pages_text existing_keys s).1
    = Some r
    ∧ (extraction_method r = PDF_METADATA →
       title r ≠ "" ∧ (∃ a, authors r = [a] ∧ a ≠ "") ∧ year r ≠ 0%Z
       ∧ doi r = None ∧ url r = None).
Proof.
  destruct extract_metadata_returns as (r & Hr & _ & _ & _ & _ & Hp).
  by exists r.
Qed.

End RecordProperties.

(** A world where the PDF carries its properties and nothing else helps. *)
Definition properties_world : world :=
  MkWorld false (λ _, Pdf2bibNotDict) (λ _ _, RequestException)
    (λ _, None) (λ _, None)
    (λ _, Some (Some (MkProps (Some "A Title") (Some "Jane Smith")
                        (Some "D:20200101120000")))).

Lemma record_key_is_generated_from_record_witness :
  ∃ r,
    (extract_metadata crossref_answers default_extractor "/papers/a.pdf"
       (Some "doi:10.1234/abc") (Some {["Smith2020"]}) start).1 = Some r
    ∧ generate_bibtex_key (authors r) (year r) (default ∅ (Some {["Smith2020"]}))
      = Some (bibtex_key r).
Proof.
  apply (record_key_is_generated_from_record crossref_answers
           default_extractor).
  by vm_compute.
Defined.

Lemma record_doi_has_its_url_witness :
  ∃ r,
    (extract_metadata crossref_answers default_extractor "/papers/a.pdf"
       (Some "doi:10.1234/abc") None start).1 = Some r
    ∧ ∀ d, doi r = Some d → url r = Some ("https://doi.org/" +:+ d).
Proof.
  apply (record_doi_has_its_url crossref_answers default_extractor).
  by vm_compute.
Defined.

Lemma record_is_never_from_pubmed_witness :
  ∃ r,
    (extract_metadata flaky_world default_extractor "/papers/a.pdf"
       (Some "PMID: 12345678") None start).1 = Some r
    ∧ extraction_method r ≠ PUBMED ∧ extraction_method r ≠ MANUAL.
Proof.
  apply (record_is_never_from_pubmed flaky_world default_extractor).
  by vm_compute.
Defined.

Lemma written_entry_carries_record_key_witness :
  ∃ r,
    (extract_metadata properties_world default_extractor "/papers/a.pdf"
       (Some "A Title") (Some {["Smith2020"]}) start).1 = Some r
    ∧ (extraction_method r = ARXIV ∨ extraction_method r = PDF_METADATA
       ∨ extraction_method r = PARSED →
       embedded_key (bibtex_entry r) = Some (bibtex_key r)).
Proof.
  apply (written_entry_carries_record_key properties_world
           default_extractor).
  by vm_compute.
Defined.

Lemma pdf_properties_record_is_complete_witness :
  ∃ r,
    (extract_metadata properties_world default_extractor "/papers/a.pdf"
       None None start).1 = Some r
    ∧ (extraction_method r = PDF_METADATA →
       title r ≠ "" ∧ (∃ a, authors r = [a] ∧ a ≠ "") ∧ year r ≠ 0%Z
       ∧ doi r = None ∧ url r = None).
Proof.
  apply (pdf_properties_record_is_complete properties_world
           default_extractor).
  by vm_compute.
Defined.

(** ** Requests sent by one resolution *)

Section Requests.
Variable w : world.
Variable self : MetadataExtractor.

Definition sends_at_most {A} (b : nat) (c : M A) : Prop :=
  ∀ s, (length (gets (trace (c s).2)) ≤ length (gets (trace s)) + b)%nat.

Lemma gets_app a b : gets (a ++ b) = gets a ++ gets b.
Proof. apply omap_app. Qed.

Lemma sends_at_most_weaken {A} b b' (c : M A) :
  (b ≤ b')%nat → sends_at_most b c → sends_at_most b' c.
Proof. intros Hb H s. specialize (H s). lia. Qed.

Lemma attempt_sends m run next b1 b2 :
  sends_at_most b1 run → sends_at_most b2 next →
  sends_at_most (b1 + b2) (attempt m run next).
Proof.
  intros Hrun Hnext s. unfold attempt, bind, emit.
  set (s0 := MkState (trace s ++ [Call m]) (requests s)).
  specialize (Hrun s0).
  assert (length (gets (trace s0)) = length (gets (trace s))) as Hs0.
  { unfold s0. simpl. rewrite gets_app. simpl. by rewrite app_nil_r. }
  destruct (run s0) as [[[md|]|] s1]; simpl in *.
  - rewrite gets_app. simpl. rewrite app_nil_r. lia.
  - set (s2 := MkState (trace s1 ++ [Return m false]) (requests s1)).
    specialize (Hnext s2).
    assert (length (gets (trace s2)) = length (gets (trace s1))) as Hs2.
    { unfold s2. simpl. rewrite gets_app. simpl. by rewrite app_nil_r. }
    lia.
  - lia.
Qed.

Lemma pure_sends {A} (a : A) : sends_at_most 0 (ret a).
Proof. intros s. simpl. lia. Qed.

Lemma pdf2bib_sends pdf_path existing_keys :
  sends_at_most 0
    (bind (_get_metadata_from_pdf2bib w pdf_path existing_keys)
          (λ r, ret (Some r))).
Proof.
  intros s. unfold _get_metadata_from_pdf2bib, bind, emit, ret. simpl.
  rewrite gets_app. simpl. rewrite app_nil_r. lia.
Qed.

Lemma crossref_loop_sends doi existing_keys attempts :
  sends_at_most (length attempts)
    (crossref_loop w self doi existing_keys attempts).
Proof.
  induction attempts as [|j rest IH]; intros s; [simpl; lia|].
  cbn [crossref_loop length]. unfold bind, http_get.
  set (s1 := MkState (trace s ++ [HttpGet (crossref_url doi)])
                     (S (requests s))).
  assert (length (gets (trace s1)) = S (length (gets (trace s)))) as Hs1.
  { unfold s1. cbn [trace]. rewrite gets_app, length_app. simpl. lia. }
  assert (∀ s2, length (gets (trace s2)) = length (gets (trace s1)) →
            (length (gets (trace (crossref_loop w self doi existing_keys
                                    rest s2).2))
             ≤ length (gets (trace s)) + S (length rest))%nat) as Hgo.
  { intros s2 Hs2. specialize (IH s2). lia. }
  destruct (session_get w (requests s) (crossref_url doi))
    as [status_code text|].
  - destruct (status_code =? 200)%Z.
    + destruct (_parse_bibtex_entry w text); [|by apply Hgo].
      unfold ret. cbn [snd]. lia.
    + destruct (status_code =? 404)%Z; [|by apply Hgo].
      unfold ret. cbn [snd]. lia.
  - destruct (Z.of_nat j <? max_retries self - 1)%Z; [|by apply Hgo].
    unfold time_sleep. destruct (Qle_bool 0 (backoff self j)).
    + apply Hgo. cbn [trace]. rewrite gets_app. simpl. by rewrite app_nil_r.
    + unfold ret. cbn [snd]. lia.
Qed.

Lemma crossref_sends doi existing_keys :
  sends_at_most (Z.to_nat (max_retries self))
    (_get_metadata_from_crossref w self doi existing_keys).
Proof.
  unfold _get_metadata_from_crossref.
  pose proof (crossref_loop_sends doi existing_keys
                (seq 0 (Z.to_nat (max_retries self)))) as H.
  by rewrite length_seq in H.
Qed.

Lemma arxiv_sends arxiv_id existing_keys :
  sends_at_most 1
    (bind (_get_metadata_from_arxiv w arxiv_id existing_keys)
          (λ r, ret (Some r))).
Proof.
  intros s. unfold _get_metadata_from_arxiv, bind, http_get, ret. simpl.
  rewrite gets_app, length_app. simpl. lia.
Qed.

Lemma parse_text_sends pdf_path first_pages_text existing_keys :
  sends_at_most 0 (parse_text pdf_path first_pages_text existing_keys).
Proof.
  intros s. unfold parse_text, bind, emit.
  destruct (_parse_metadata_from_text _ _ _); simpl;
    rewrite ?gets_app; simpl; rewrite ?gets_app; simpl;
    rewrite ?app_nil_r; lia.
Qed.

(** X12. One call of [extract_metadata] calls [self.session.get] at
    most [max_retries + 1] times: the requests of the CrossRef lookup and
    the single one of the arXiv lookup.  What pdf2bib sends on its own
    does not go through the session and is not counted. *)
Theorem extract_metadata_session_get_bound
    pdf_path first_pages_text existing_keys s :
  (length (gets (trace (extract_metadata w self pdf_path first_pages_text
                          existing_keys s).2))
   ≤ length (gets (trace s)) + (Z.to_nat (max_retries self) + 1))%nat.
Proof.
  unfold extract_metadata. cbv zeta. revert s.
  change (sends_at_most (Z.to_nat (max_retries self) + 1)
            (cascade w self pdf_path first_pages_text
               (default ∅ existing_keys))).
  set (keys := default ∅ existing_keys).
  set (m := Z.to_nat (max_retries self)).
  pose proof (parse_text_sends pdf_path first_pages_text keys) as H6.
  assert (sends_at_most 0
            (try_pdf_metadata w pdf_path keys
               (parse_text pdf_path first_pages_text keys))) as H5.
  { apply (attempt_sends _ _ _ 0 0); [apply pure_sends|done]. }
  assert (sends_at_most 0
            (try_pubmed first_pages_text keys
               (try_pdf_metadata w pdf_path keys
                  (parse_text pdf_path first_pages_text keys)))) as H4.
  { unfold try_pubmed. repeat case_match; try done.
    apply (attempt_sends _ _ _ 0 0); [apply pure_sends|done]. }
  assert (sends_at_most 1
            (try_arxiv w first_pages_text keys
               (try_pubmed first_pages_text keys
                  (try_pdf_metadata w pdf_path keys
                     (parse_text pdf_path first_pages_text keys))))) as H3.
  { unfold try_arxiv.
    repeat case_match; try (eapply sends_at_most_weaken; [|exact H4]; lia).
    apply (attempt_sends _ _ _ 1 0); [apply arxiv_sends|done]. }
  assert (sends_at_most (m + 1)
            (try_crossref w self first_pages_text keys
               (try_arxiv w first_pages_text keys
                  (try_pubmed first_pages_text keys
                     (try_pdf_metadata w pdf_path keys
                        (parse_text pdf_path first_pages_text keys))))))
    as H2.
  { unfold try_crossref.
    repeat case_match; try (eapply sends_at_most_weaken; [|exact H3]; lia).
    apply (attempt_sends _ _ _ m 1); [apply crossref_sends|done]. }
  unfold cascade, try_pdf2bib. case_match; [|done].
  apply (attempt_sends _ _ _ 0 (m + 1)); [apply pdf2bib_sends|done].
Qed.

(** X13. Without first-page text ([None] or the empty string)
    [extract_metadata] never calls [self.session.get]: the CrossRef and
    arXiv lookups are skipped.  What pdf2bib sends on its own does not go
    through the session and is not counted. *)
Theorem no_text_no_session_get pdf_path existing_keys s :
  gets (trace (extract_metadata w self pdf_path None existing_keys s).2)
  = gets (trace s)
  ∧ gets (trace (extract_metadata w self pdf_path (Some "") existing_keys s).2)
    = gets (trace s).
Proof.
  assert (∀ text, truthy text = false →
            gets (trace (extract_metadata w self pdf_path text
                           existing_keys s).2) = gets (trace s)) as H.
  { intros text Ht. unfold extract_metadata, cascade. cbv zeta.
    unfold try_crossref, try_arxiv, try_pubmed. rewrite Ht.
    unfold try_pdf2bib, try_pdf_metadata, attempt, parse_text, bind, emit, ret.
    repeat (case_match; simpl); simplify_eq/=;
      rewrite ?gets_app; simpl; rewrite ?gets_app; simpl;
      rewrite ?gets_app; simpl; rewrite ?gets_app; simpl;
      by rewrite ?app_nil_r. }
  split; by apply H.
Qed.

End Requests.

(** ** Hashing a file and hashing its content *)

Section Hashing.
Variable H : hasher.
Hypothesis update_nil : ∀ h, update H h [] = h.
Hypothesis update_app :
  ∀ h a b, update H (update H h a) b = update H h (a ++ b).

Lemma read_blocks_all fuel :
  ∀ rest h, (length rest < fuel)%nat →
    read_blocks H fuel rest h = Some (update H h rest).
Proof.
  induction fuel as [|fuel IH]; intros rest h Hlen; [lia|].
  cbn [read_blocks].
  destruct (take 4096 rest) as [|c block] eqn:Hb.
  - destruct rest as [|c t]; [by rewrite update_nil | done].
  - rewrite IH.
    + by rewrite update_app, <- Hb, take_drop.
    + destruct rest as [|c' t]; [done|].
      rewrite length_drop. simpl in *. lia.
Qed.

Lemma file_hash_of_content content :
  compute_file_hash H (Some content)
  = Some (compute_hash_from_bytes H content).
Proof.
  unfold compute_file_hash, compute_hash_from_bytes.
  cbn [mbind option_bind].
  by rewrite (read_blocks_all (S (length content))) by lia.
Qed.

End Hashing.

(** X14. For a hash whose [update] does nothing on an empty block and
    gives on two blocks in turn what it gives on both at once (as
    [hashlib] documents), the digest of a file read in blocks of 4096
    bytes is the digest of its content hashed in one piece. *)
Theorem file_hash_is_hash_of_bytes (H : hasher) (content : list ascii) :
  (∀ h, update H h [] = h) →
  (∀ h a b, update H (update H h a) b = update H h (a ++ b)) →
  compute_file_hash H (Some content)
  = Some (compute_hash_from_bytes H content).
Proof. intros H0 H1. by apply file_hash_of_content. Qed.

Lemma file_hash_is_hash_of_bytes_witness :
  let H := MkHasher (list ascii) [] (λ h block, h ++ block) Py.of_list in
  let content := repeat "a"%char 5000 in
  compute_file_hash H (Some content)
  = Some (compute_hash_from_bytes H content).
Proof.
  intros H content. apply (file_hash_is_hash_of_bytes H content).
  - intros h. simpl. apply app_nil_r.
  - intros h a b. simpl. symmetry. apply app_assoc.
Defined.

(** ** File names *)

Section FileNames.

Definition replace_chars (p : ascii → bool) (r : string) (l : list ascii)
  : list ascii :=
  flat_map (λ c, if p c then Py.to_list r else [c]) l.

Lemma sub_from_chr p r fuel :
  ∀ bef aft, (length aft < fuel)%nat →
    Py.to_list (sub_from (Chr p) (λ _, r) None fuel bef aft)
    = replace_chars p r aft.
Proof.
  induction fuel as [|fuel IH]; intros bef aft Hlen; [lia|].
  destruct aft as [|c t]; [done|].
  cbn [sub_from run after before group1 fmap option_fmap option_map].
  simpl in Hlen.
  destruct (p c) eqn:Hc.
  - cbn [after length].
    replace (length t <? S (length t))%nat with true
      by (symmetry; apply Nat.ltb_lt; lia).
    rewrite to_list_app, IH by lia.
    unfold replace_chars. cbn [flat_map]. by rewrite Hc.
  - change (Py.to_list (String c ?x)) with (c :: Py.to_list x).
    rewrite IH by lia.
    unfold replace_chars. cbn [flat_map]. by rewrite Hc.
Qed.

Lemma sub_chr p r text :
  Py.to_list (sub (Chr p) (λ _, r) None text)
  = replace_chars p r (Py.to_list text).
Proof.
  unfold sub. apply sub_from_chr.
  rewrite <- (of_list_to_list text) at 2. rewrite length_of_list. lia.
Qed.

Lemma replace_chars_none p r l :
  Forall (λ c, p c = false) l → replace_chars p r l = l.
Proof.
  unfold replace_chars.
  induction 1 as [|c l Hc _ IH]; cbn [flat_map]; [done|].
  by rewrite Hc, IH.
Qed.

Lemma replace_chars_forall (P : ascii → Prop) p r l :
  Forall P (Py.to_list r) → (∀ c, p c = false → P c) →
  Forall P (replace_chars p r l).
Proof.
  intros Hr HP. unfold replace_chars.
  induction l as [|c l IH]; cbn [flat_map]; [constructor|].
  apply Forall_app_2; [|done].
  destruct (p c) eqn:Hc; [done|]. constructor; [by apply HP | constructor].
Qed.

Lemma lstrip_by_suffix p l : ∃ x, l = x ++ Py.lstrip_by p l.
Proof.
  induction l as [|c l [x Hx]]; simpl; [by exists []|].
  destruct (p c).
  - exists (c :: x). simpl. by f_equal.
  - by exists [].
Qed.

Lemma lstrip_by_forall (P : ascii → Prop) p l :
  Forall P l → Forall P (Py.lstrip_by p l).
Proof.
  intros Hl. destruct (lstrip_by_suffix p l) as [x Hx].
  rewrite Hx in Hl. by apply Forall_app in Hl as [_ ?].
Qed.

Lemma rstrip_by_forall (P : ascii → Prop) p l :
  Forall P l → Forall P (Py.rstrip_by p l).
Proof.
  intros Hl. unfold Py.rstrip_by.
  apply Forall_rev, lstrip_by_forall, Forall_rev, Hl.
Qed.

Lemma lstrip_by_first p l c t : Py.lstrip_by p l = c :: t → p c = false.
Proof.
  induction l as [|a l IH]; simpl; [done|].
  destruct (p a) eqn:Ha; [done|]. by intros [= <- _].
Qed.

Lemma rstrip_by_none p l :
  Forall (λ c, p c = false) l → Py.rstrip_by p l = l.
Proof.
  intros Hl. unfold Py.rstrip_by.
  rewrite lstrip_by_none; [apply rev_involutive|].
  apply Forall_rev in Hl. destruct (rev l) as [|c t]; [done|].
  by apply Forall_cons in Hl as [? _].
Qed.

End FileNames.

Section SanitizedNames.

Definition dot_or_space (c : ascii) : bool := Py.contains c ". ".

Lemma strip_first p l c t :
  Py.rstrip_by p (Py.lstrip_by p l) = c :: t → p c = false.
Proof.
  destruct (Py.lstrip_by p l) as [|c' t'] eqn:Hl; [done|].
  pose proof (lstrip_by_first _ _ _ _ Hl) as Hc.
  pose proof (rstrip_by_app p [] c' t' Hc) as Hr. simpl in Hr.
  rewrite Hr. by intros [= <- _].
Qed.

Lemma sanitize_filename_list filename :
  Py.to_list (sanitize_filename filename)
  = take 255
      (Py.rstrip_by dot_or_space
         (Py.lstrip_by dot_or_space
            (replace_chars forbidden_in_filename "_" (Py.to_list filename)))).
Proof.
  unfold sanitize_filename, Py.strip_chars, Py.prefix_of. cbv zeta.
  rewrite sub_chr, length_of_list, !to_list_of_list.
  fold dot_or_space.
  set (l := Py.rstrip_by _ _).
  destruct (255 <? length l)%nat eqn:Hlen.
  - by rewrite to_list_of_list.
  - apply Nat.ltb_ge in Hlen. by rewrite to_list_of_list, take_ge by lia.
Qed.

Lemma key_char_in_names c :
  key_char c = true →
  forbidden_in_filename c = false ∧ dot_or_space c = false.
Proof. destruct c as [[] [] [] [] [] [] [] []]; vm_compute; by intros. Qed.

Lemma sanitize_plain key :
  plain key → (String.length key ≤ 255)%nat → sanitize_filename key = key.
Proof.
  intros Hp Hlen.
  rewrite <- (of_list_to_list (sanitize_filename key)), sanitize_filename_list.
  rewrite <- (of_list_to_list key) in Hlen. rewrite length_of_list in Hlen.
  assert (Forall (λ c, forbidden_in_filename c = false) (Py.to_list key)) as Hf.
  { eapply Forall_impl; [exact Hp|]. intros c Hc. by apply key_char_in_names. }
  assert (Forall (λ c, dot_or_space c = false) (Py.to_list key)) as Hd.
  { eapply Forall_impl; [exact Hp|]. intros c Hc. by apply key_char_in_names. }
  rewrite replace_chars_none by done.
  rewrite (lstrip_by_none _ (Py.to_list key)).
  - rewrite rstrip_by_none by done.
    by rewrite take_ge, of_list_to_list by lia.
  - destruct (Py.to_list key) as [|c t]; [done|].
    by apply Forall_cons in Hd as [? _].
Qed.

End SanitizedNames.

(** X15. The name [sanitize_filename] returns has at most 255
    characters, holds none of the characters the pattern replaces, and
    does not begin with a dot or a space. *)
Theorem sanitized_name_is_safe filename :
  (String.length (sanitize_filename filename) ≤ 255)%nat
  ∧ Forall (λ c, forbidden_in_filename c = false)
      (Py.to_list (sanitize_filename filename))
  ∧ (∀ t, sanitize_filename filename ≠ String "." t)
  ∧ (∀ t, sanitize_filename filename ≠ String " " t).
Proof.
  pose proof (sanitize_filename_list filename) as Hl.
  set (l := Py.rstrip_by _ _) in Hl.
  assert (Forall (λ c, forbidden_in_filename c = false) l) as Hf.
  { apply rstrip_by_forall, lstrip_by_forall, replace_chars_forall.
    - by repeat constructor.
    - done. }
  assert (∀ c t, take 255 l = c :: t → dot_or_space c = false) as Hd.
  { intros c t Ht. destruct l as [|c' t'] eqn:El; [done|].
    simpl in Ht. injection Ht as <- _.
    by apply (strip_first _ _ _ _ El). }
  rewrite <- (of_list_to_list (sanitize_filename filename)), Hl.
  rewrite length_of_list, to_list_of_list. repeat split.
  - rewrite length_take. lia.
  - by apply Forall_take.
  - intros t Ht. apply (f_equal Py.to_list) in Ht.
    rewrite to_list_of_list in Ht. by apply Hd in Ht.
  - intros t Ht. apply (f_equal Py.to_list) in Ht.
    rewrite to_list_of_list in Ht. by apply Hd in Ht.
Qed.

(** X16. A key returned by [generate_bibtex_key], when it has at most
    255 characters, is left as it is by [sanitize_filename]: the PDF and
    the BibTeX file are named by the key itself followed by [.pdf] and
    [.bib], the names under which the files are looked up again. *)
Theorem generated_key_names_its_files authors year existing_keys key :
  generate_bibtex_key authors year existing_keys = Some key →
  (String.length key ≤ 255)%nat →
  sanitize_filename key = key
  ∧ pdf_file_name key = key +:+ ".pdf"
  ∧ bib_file_name key = key +:+ ".bib".
Proof.
  intros Hk Hlen. apply generated_key_plain in Hk.
  unfold pdf_file_name, bib_file_name.
  by rewrite sanitize_plain.
Qed.

Lemma generated_key_names_its_files_witness :
  sanitize_filename "Smith2024a" = "Smith2024a"
  ∧ pdf_file_name "Smith2024a" = "Smith2024a.pdf"
  ∧ bib_file_name "Smith2024a" = "Smith2024a.bib".
Proof.
  apply (generated_key_names_its_files ["Smith, Jane"] 2024 {["Smith2024"]}).
  - by vm_compute.
  - vm_compute. lia.
Defined.

(** ** Text cleaned for embedding *)

Section CleanedText.

Lemma plus_chr_consumes p s e :
  matches (plus (Chr p)) s e → (length (after e) < length (after s))%nat.
Proof.
  unfold plus. intros Hm.
  inversion Hm as [| |r1 r2 s0 s1 s2 H1 H2| | | | | | |]; subst.
  inversion H1 as [|p' c t b g Hp| | | | | | | |]; subst.
  apply matches_consumed in H2 as (l & Ha & _). simpl in *.
  rewrite Ha, length_app. lia.
Qed.

Lemma plus_chr_starts p bef c t :
  run (plus (Chr p)) (MkPos bef (c :: t) None) Some = None → p c = false.
Proof.
  intros Hr. destruct (p c) eqn:Hc; [|done].
  assert (matches (plus (Chr p)) (MkPos bef (c :: t) None)
            (MkPos (c :: bef) t None)) as Hm.
  { unfold plus. eapply M_cat; [by apply M_chr | apply M_star_0]. }
  by apply (run_complete _ _ _ Hr) in Hm.
Qed.

Lemma sub_from_plus_chr_forall (P : ascii → Prop) p r fuel :
  Forall P (Py.to_list r) → (∀ c, p c = false → P c) →
  ∀ bef aft, (length aft < fuel)%nat →
    Forall P (Py.to_list (sub_from (plus (Chr p)) (λ _, r) None fuel bef aft)).
Proof.
  intros Hr HP.
  induction fuel as [|fuel IH]; intros bef aft Hlen; [lia|].
  cbn [sub_from].
  destruct (run (plus (Chr p)) (MkPos bef aft None) Some) as [e|] eqn:Hrun.
  - apply run_sound in Hrun as (e' & Hm & [= ->]).
    apply plus_chr_consumes in Hm. simpl in Hm.
    replace (length (after e) <? length aft)%nat with true
      by (symmetry; apply Nat.ltb_lt; lia).
    rewrite to_list_app. apply Forall_app_2; [done|]. apply IH. lia.
  - destruct aft as [|c t]; [constructor|].
    change (Py.to_list (String c ?x)) with (c :: Py.to_list x).
    constructor.
    + apply HP. by apply (plus_chr_starts _ _ _ _ Hrun).
    + apply IH. simpl in Hlen. lia.
Qed.

Lemma replace_chars_forall_in (P Q : ascii → Prop) p r l :
  Forall P (Py.to_list r) → Forall Q l → (∀ c, Q c → p c = false → P c) →
  Forall P (replace_chars p r l).
Proof.
  intros Hr Hl HP. unfold replace_chars.
  induction Hl as [|c l Hc _ IH]; cbn [flat_map]; [constructor|].
  apply Forall_app_2; [|done].
  destruct (p c) eqn:Hpc; [done|]. constructor; [by apply HP | constructor].
Qed.

Definition clean_char (c : ascii) : Prop :=
  control_char c = false ∧ (Py.isspace c = true → c = " "%char).

Lemma clean_text_for_embedding_list text :
  ∃ l,
    Forall clean_char l
    ∧ Py.to_list (clean_text_for_embedding text)
      = Py.rstrip_by Py.isspace (Py.lstrip_by Py.isspace l).
Proof.
  unfold clean_text_for_embedding, Py.strip. cbv zeta.
  eexists. split; [|by rewrite to_list_of_list].
  rewrite sub_chr.
  eapply (replace_chars_forall_in _ (λ c, Py.isspace c = true → c = " "%char)).
  - constructor.
  - unfold sub. apply sub_from_plus_chr_forall.
    + by repeat constructor.
    + intros c Hc. by rewrite Hc.
    + rewrite <- (of_list_to_list text) at 2. rewrite length_of_list. lia.
  - intros c Hc Hctl. by split.
Qed.

End CleanedText.

(** X17. The text [clean_text_for_embedding] returns holds no control
    character of the removed ranges, no white space other than the space
    character, and neither begins nor ends with a space. *)
Theorem cleaned_text_shape text :
  Forall (λ c, control_char c = false
               ∧ (Py.isspace c = true → c = " "%char))
    (Py.to_list (clean_text_for_embedding text))
  ∧ (∀ t, clean_text_for_embedding text ≠ String " " t)
  ∧ (∀ t, clean_text_for_embedding text ≠ t +:+ " ").
Proof.
  destruct (clean_text_for_embedding_list text) as (l & Hl & E).
  split; [|split].
  - rewrite E. by apply rstrip_by_forall, lstrip_by_forall.
  - intros t Ht. rewrite Ht in E.
    change (Py.to_list (String " " t)) with (" "%char :: Py.to_list t) in E.
    symmetry in E. by apply strip_first in E.
  - intros t Ht. rewrite Ht, to_list_app in E.
    symmetry in E. by apply rstrip_by_last in E.
Qed.

(** ** The identifiers read from the text *)

Section Identifiers.

(** A match from [s] to [e] went over the characters [l]. *)
Definition over (s e : pos) (l : list ascii) : Prop :=
  after s = l ++ after e ∧ before e = rev l ++ before s.

Lemma over_nil s : over s s [].
Proof. by split. Qed.

Lemma over_app s s1 e l1 l2 :
  over s s1 l1 → over s1 e l2 → over s e (l1 ++ l2).
Proof.
  intros [A1 B1] [A2 B2]. split.
  - by rewrite A1, A2, app_assoc.
  - by rewrite B2, B1, rev_app_distr, app_assoc.
Qed.

Lemma chr_over p s e :
  matches (Chr p) s e → ∃ c, over s e [c] ∧ p c = true.
Proof.
  intros H. inversion H as [|p' c t b g Hp| | | | | | | |]; subst.
  exists c. by repeat split.
Qed.

Lemma exactly_chr_over p n :
  ∀ s e, matches (exactly n (Chr p)) s e →
    ∃ l, over s e l ∧ length l = n ∧ Forall (λ c, p c = true) l.
Proof.
  induction n as [|n IH]; intros s e H; cbn [exactly] in H.
  - inversion H; subst. exists []. split; [apply over_nil | by split].
  - inversion H as [| |r1 r2 s0 s1 s2 H1 H2| | | | | | |]; subst.
    apply chr_over in H1 as (c & Hc & Hp).
    apply IH in H2 as (l & Hl & Hn & Hf).
    exists ([c] ++ l). split; [by eapply over_app|].
    split; [simpl; lia | by constructor].
Qed.

Lemma at_most_chr_over p n :
  ∀ s e, matches (at_most n (Chr p)) s e →
    ∃ l, over s e l ∧ (length l ≤ n)%nat ∧ Forall (λ c, p c = true) l.
Proof.
  induction n as [|n IH]; intros s e H; cbn [at_most] in H.
  - inversion H; subst. exists []. split; [apply over_nil | by split].
  - inversion H as [| | |r1 r2 s0 e0 H1|r1 r2 s0 e0 H1| | | | |]; subst.
    + inversion H1 as [| |r1 r2 s0 s1 s2 H2 H3| | | | | | |]; subst.
      apply chr_over in H2 as (c & Hc & Hp).
      apply IH in H3 as (l & Hl & Hn & Hf).
      exists ([c] ++ l). split; [by eapply over_app|].
      split; [simpl; lia | by constructor].
    + inversion H1; subst. exists []. split; [apply over_nil|].
      split; [simpl; lia | constructor].
Qed.

Lemma rep_chr_over p n m s e :
  (n ≤ m)%nat → matches (rep n m (Chr p)) s e →
  ∃ l, over s e l ∧ (n ≤ length l ≤ m)%nat ∧ Forall (λ c, p c = true) l.
Proof.
  intros Hnm H. unfold rep in H.
  inversion H as [| |r1 r2 s0 s1 s2 H1 H2| | | | | | |]; subst.
  apply exactly_chr_over in H1 as (l1 & O1 & N1 & F1).
  apply at_most_chr_over in H2 as (l2 & O2 & N2 & F2).
  exists (l1 ++ l2). split; [by eapply over_app|].
  split; [rewrite length_app; lia | by apply Forall_app_2].
Qed.

Lemma star_chr_over p s e :
  matches (Star (Chr p)) s e →
  ∃ l, over s e l ∧ Forall (λ c, p c = true) l.
Proof.
  intros (l & Hl & Ha & Hb & _)%star_chr_consumed. exists l. by repeat split.
Qed.

Lemma at_least_chr_over p n :
  ∀ s e, matches (at_least n (Chr p)) s e →
    ∃ l, over s e l ∧ (n ≤ length l)%nat ∧ Forall (λ c, p c = true) l.
Proof.
  induction n as [|n IH]; intros s e H; cbn [at_least] in H.
  - apply star_chr_over in H as (l & Hl & Hf). exists l.
    split; [done|]. split; [lia | done].
  - inversion H as [| |r1 r2 s0 s1 s2 H1 H2| | | | | | |]; subst.
    apply chr_over in H1 as (c & Hc & Hp).
    apply IH in H2 as (l & Hl & Hn & Hf).
    exists ([c] ++ l). split; [by eapply over_app|].
    split; [simpl; lia | by constructor].
Qed.

(** What a group that ends the pattern holds: the characters its body
    went over. *)
Lemma group_at_end r s e st :
  matches (Grp r) s e →
  ∃ e', matches r s e'
        ∧ ∀ l, over s e' l → group_1 (MkMatch st e) = Some (Py.of_list l).
Proof.
  intros H. inversion H as [| | | | | | | | |r' s' e' Hm]; subst.
  exists e'. split; [done|]. intros l [_ Hb].
  unfold group_1. cbn [m_end group1]. f_equal.
  exact (group0_consumed (before s) l
           (MkPos (before e') (after e') (Some (offset s, offset e'))) Hb).
Qed.

Lemma cat_inv r1 r2 s e :
  matches (Cat r1 r2) s e → ∃ s1, matches r1 s s1 ∧ matches r2 s1 e.
Proof. intros H. inversion H; subst. by eexists. Qed.

(** The result of either pattern is what a match of the group's body
    went over. *)
Lemma first_group_of (p1 p2 p3 body : regex) text id :
  match first_match [Cat p1 (Cat p2 (Grp body)); Cat p3 (Grp body)] text with
  | Some m => group_1 m
  | None => None
  end = Some id →
  ∃ s e, matches body s e ∧ ∀ l, over s e l → id = Py.of_list l.
Proof.
  cbn [first_match]. unfold search.
  destruct (search_from (Cat p1 _) [] _) as [[st e]|] eqn:H1.
  - apply search_from_sound in H1 as (b & a & _ & _ & Hm & _).
    cbn [m_end] in Hm.
    apply cat_inv in Hm as (s1 & _ & Hm). apply cat_inv in Hm as (s2 & _ & Hm).
    apply (group_at_end _ _ _ st) in Hm as (e' & Hm & Hg).
    intros Hid. exists s2, e'. split; [done|]. intros l Hl.
    rewrite (Hg l Hl) in Hid. by injection Hid.
  - destruct (search_from (Cat p3 _) [] _) as [[st e]|] eqn:H2; [|done].
    apply search_from_sound in H2 as (b & a & _ & _ & Hm & _).
    cbn [m_end] in Hm.
    apply cat_inv in Hm as (s1 & _ & Hm).
    apply (group_at_end _ _ _ st) in Hm as (e' & Hm & Hg).
    intros Hid. exists s1, e'. split; [done|]. intros l Hl.
    rewrite (Hg l Hl) in Hid. by injection Hid.
Qed.

End Identifiers.

Section IdentifierShapes.

Lemma of_list_app l1 l2 :
  Py.of_list (l1 ++ l2) = Py.of_list l1 +:+ Py.of_list l2.
Proof. induction l1 as [|c l1 IH]; [done|]. simpl. by rewrite IH. Qed.

Lemma lit_i_slash c :
  Ascii.eqb (Py.lower c) (Py.lower "/") = true → c = "/"%char.
Proof.
  destruct c as [[] [] [] [] [] [] [] []]; vm_compute; intros;
    congruence.
Qed.

(** Every match of the core pattern went over [10.], four digits or more,
    a slash and one character or more, none of them white space. *)
Lemma doi_core_over s e :
  matches doi_core s e →
  ∃ registrant suffix,
    over s e (Py.to_list "10." ++ registrant ++ "/"%char :: suffix)
    ∧ (4 ≤ length registrant)%nat
    ∧ Forall (λ c, Py.isdecimal c = true) registrant
    ∧ Forall (λ c, Py.isspace c = false) suffix.
Proof.
  unfold doi_core. intros H.
  apply cat_inv in H as (s1 & H1 & H). apply cat_inv in H as (s2 & H2 & H).
  apply cat_inv in H as (s3 & H3 & H4).
  cbv [str_i lits_i lit_i Py.to_list list_ascii_of_string] in H1.
  apply cat_inv in H1 as (t1 & Ha & H1). apply cat_inv in H1 as (t2 & Hb & Hc).
  apply chr_over in Ha as (a & Oa & Ha). apply lit_i_one in Ha. subst a.
  apply chr_over in Hb as (b & Ob & Hb). apply lit_i_zero in Hb. subst b.
  apply chr_over in Hc as (c & Oc & Hc). apply lit_i_dot in Hc. subst c.
  unfold digit in H2. apply at_least_chr_over in H2 as (reg & Or & Nr & Fr).
  unfold lit_i in H3. apply chr_over in H3 as (d & Od & Hd).
  apply lit_i_slash in Hd. subst d.
  unfold plus, nonspace in H4. apply cat_inv in H4 as (s4 & H4 & H5).
  apply chr_over in H4 as (x & Ox & Hx).
  apply star_chr_over in H5 as (l & Ol & Fl).
  exists reg, ([x] ++ l). split; [|split; [done|split; [done|]]].
  - change (Py.to_list "10.") with (["1"] ++ ["0"] ++ ["."])%char.
    change ("/"%char :: [x] ++ l) with (["/"%char] ++ [x] ++ l).
    rewrite <- !app_assoc.
    repeat (eapply over_app; [eassumption|]). done.
  - constructor; [by apply negb_true_iff|].
    eapply Forall_impl; [exact Fl|]. intros c Hc. by apply negb_true_iff.
Qed.

End IdentifierShapes.

(** X18. An arXiv identifier read from the text has the new format: four
    decimal digits, a dot, and four or five decimal digits. *)
Theorem arxiv_id_has_new_format text id :
  extract_arxiv_id_from_text text = Some id →
  ∃ yymm number,
    id = yymm +:+ "." +:+ number
    ∧ String.length yymm = 4%nat
    ∧ (String.length number = 4%nat ∨ String.length number = 5%nat)
    ∧ chars_in Py.isdecimal yymm ∧ chars_in Py.isdecimal number.
Proof.
  unfold extract_arxiv_id_from_text, arxiv_patterns, arxiv_number.
  intros (s & e & Hm & Hid)%first_group_of.
  apply cat_inv in Hm as (s1 & H1 & Hm). apply cat_inv in Hm as (s2 & H2 & H3).
  unfold digit in *.
  apply exactly_chr_over in H1 as (y & Oy & Ny & Fy).
  unfold lit_i in H2. apply chr_over in H2 as (c & Oc & Hc).
  apply lit_i_dot in Hc. subst c.
  apply rep_chr_over in H3 as (n & On & Nn & Fn); [|lia].
  exists (Py.of_list y), (Py.of_list n).
  rewrite (Hid (y ++ ["."%char] ++ n))
    by (eapply over_app; [done | by eapply over_app]).
  rewrite !length_of_list. unfold chars_in. rewrite !to_list_of_list.
  split; [by rewrite !of_list_app|]. repeat split; try done. lia.
Qed.

Lemma arxiv_id_has_new_format_witness :
  ∃ yymm number,
    "2301.12345" = yymm +:+ "." +:+ number
    ∧ String.length yymm = 4%nat
    ∧ (String.length number = 4%nat ∨ String.length number = 5%nat)
    ∧ chars_in Py.isdecimal yymm ∧ chars_in Py.isdecimal number.
Proof.
  apply (arxiv_id_has_new_format "Preprint, arXiv: 2301.12345v2 [cs.CL]").
  by vm_compute.
Defined.

(** X19. A PubMed identifier read from the text is made of seven or
    eight decimal digits. *)
Theorem pubmed_id_is_seven_or_eight_digits text id :
  extract_pubmed_id_from_text text = Some id →
  (String.length id = 7%nat ∨ String.length id = 8%nat)
  ∧ chars_in Py.isdecimal id.
Proof.
  unfold extract_pubmed_id_from_text, pubmed_patterns, pubmed_number.
  intros (s & e & Hm & Hid)%first_group_of.
  unfold digit in *.
  apply rep_chr_over in Hm as (n & On & Nn & Fn); [|lia].
  rewrite (Hid n On), length_of_list. unfold chars_in.
  rewrite to_list_of_list. split; [lia | done].
Qed.

Lemma pubmed_id_is_seven_or_eight_digits_witness :
  (String.length "12345678" = 7%nat ∨ String.length "12345678" = 8%nat)
  ∧ chars_in Py.isdecimal "12345678".
Proof.
  apply (pubmed_id_is_seven_or_eight_digits "PMID: 123456789.").
  by vm_compute.
Defined.

(** X20. A DOI read from the text is [10.], a registrant code of four
    decimal digits or more, a slash, and a suffix without white space
    that does not end with one of [. , ; :]; the suffix can be empty. *)
Theorem doi_has_registrant_and_suffix text d :
  extract_doi_from_text text = Some d →
  ∃ registrant suffix,
    d = "10." +:+ registrant +:+ "/" +:+ suffix
    ∧ (4 ≤ String.length registrant)%nat
    ∧ chars_in Py.isdecimal registrant
    ∧ Forall (λ c, Py.isspace c = false) (Py.to_list suffix)
    ∧ (∀ x c, suffix = x +:+ String c "" → is_punct c = false).
Proof.
  intros (m & Hs & ->)%extract_doi_is_core_match.
  unfold search in Hs.
  apply search_from_sound in Hs as (bef' & aft' & _ & Hst & Hm & _).
  apply doi_core_over in Hm as (reg & suf & [_ Hb] & Nr & Fr & Fs).
  destruct m as [st e]. cbn [m_start m_end before] in *. subst st.
  rewrite (group0_consumed bef' _ e Hb).
  change (Py.to_list "10." ++ reg ++ "/"%char :: suf)
    with ("1"%char :: ("0" :: "." :: reg)%char ++ "/"%char :: suf).
  rewrite clean_doi_digits by done.
  change ("1"%char :: ("0" :: "." :: reg)%char ++ "/"%char :: suf)
    with (("1" :: "0" :: "." :: reg)%char ++ "/"%char :: suf).
  rewrite rstrip_by_app by done.
  exists (Py.of_list reg), (Py.of_list (Py.rstrip_by is_punct suf)).
  rewrite length_of_list. unfold chars_in. rewrite !to_list_of_list.
  split; [|split; [done|split; [done|split]]].
  - change ("1" :: "0" :: "." :: reg)%char
      with (Py.to_list "10." ++ reg).
    change ("/"%char :: Py.rstrip_by is_punct suf)
      with (["/"%char] ++ Py.rstrip_by is_punct suf).
    by rewrite !of_list_app.
  - by apply rstrip_by_forall.
  - intros x c Hx. apply (f_equal Py.to_list) in Hx.
    rewrite to_list_of_list, to_list_app in Hx.
    by apply rstrip_by_last in Hx.
Qed.

Lemma doi_has_registrant_and_suffix_witness :
  ∃ registrant suffix,
    "10.1234/" = "10." +:+ registrant +:+ "/" +:+ suffix
    ∧ (4 ≤ String.length registrant)%nat
    ∧ chars_in Py.isdecimal registrant
    ∧ Forall (λ c, Py.isspace c = false) (Py.to_list suffix)
    ∧ (∀ x c, suffix = x +:+ String c "" → is_punct c = false).
Proof.
  apply (doi_has_registrant_and_suffix "doi: 10.1234/.;").
  by vm_compute.
Defined.

(** ** The time spent waiting *)

Section Waiting.
Variable w : world.
Variable self : MetadataExtractor.
Hypothesis delay_not_negative : (0 <= retry_delay self)%Q.

(** The seconds slept along a trace. *)
Fixpoint slept (tr : list event) : Q :=
  match tr with
  | [] => 0
  | Sleep seconds :: rest => seconds + slept rest
  | _ :: rest => slept rest
  end%Q.

Lemma slept_app a b : (slept (a ++ b) == slept a + slept b)%Q.
Proof.
  induction a as [|e a IH]; simpl; [lra|].
  destruct e; lra.
Qed.

Lemma slept_quiet tr e :
  match e with Sleep _ => False | _ => True end →
  (slept (tr ++ [e]) == slept tr)%Q.
Proof.
  intros He. rewrite slept_app. destruct e; try done; simpl; lra.
Qed.

Definition sleeps_at_most {A} (b : Q) (c : M A) : Prop :=
  ∀ s, (slept (trace (c s).2) <= slept (trace s) + b)%Q.

Lemma sleeps_at_most_weaken {A} b b' (c : M A) :
  (b <= b')%Q → sleeps_at_most b c → sleeps_at_most b' c.
Proof. intros Hb H s. specialize (H s). lra. Qed.

Lemma attempt_sleeps m run next b1 b2 :
  (0 <= b2)%Q → sleeps_at_most b1 run → sleeps_at_most b2 next →
  sleeps_at_most (b1 + b2) (attempt m run next).
Proof.
  intros Hb Hrun Hnext s. unfold attempt, bind, emit.
  set (s0 := MkState (trace s ++ [Call m]) (requests s)).
  specialize (Hrun s0).
  assert (slept (trace s0) == slept (trace s))%Q as Hs0.
  { unfold s0. simpl. by apply slept_quiet. }
  destruct (run s0) as [[[md|]|] s1]; simpl in *.
  - pose proof (slept_quiet (trace s1) (Return m true) I). lra.
  - set (s2 := MkState (trace s1 ++ [Return m false]) (requests s1)).
    specialize (Hnext s2).
    assert (slept (trace s2) == slept (trace s1))%Q as Hs2.
    { unfold s2. simpl. by apply slept_quiet. }
    lra.
  - lra.
Qed.

Lemma pure_sleeps {A} (a : A) : sleeps_at_most 0 (ret a).
Proof. intros s. simpl. lra. Qed.

Lemma pdf2bib_sleeps pdf_path existing_keys :
  sleeps_at_most 0
    (bind (_get_metadata_from_pdf2bib w pdf_path existing_keys)
          (λ r, ret (Some r))).
Proof.
  intros s. unfold _get_metadata_from_pdf2bib, bind, emit, ret.
  cbn [fst snd trace].
  pose proof (slept_quiet (trace s) (Pdf2bibCall pdf_path) I). lra.
Qed.

(** The powers of two of the attempts that can be followed by a sleep. *)
Fixpoint planned (attempts : list nat) : Z :=
  match attempts with
  | [] => 0
  | attempt :: rest =>
      (if Z.of_nat attempt <? max_retries self - 1
       then 2 ^ Z.of_nat attempt else 0) + planned rest
  end%Z.

Lemma planned_not_negative attempts : (0 ≤ planned attempts)%Z.
Proof.
  induction attempts as [|j rest IH]; simpl; [lia|].
  destruct (_ <? _)%Z; [|lia].
  pose proof (Z.pow_nonneg 2 (Z.of_nat j)). lia.
Qed.

Lemma planned_seq m :
  ∀ k, (planned (seq k m)
        ≤ 2 ^ Z.max (max_retries self - 1) (Z.of_nat k) - 2 ^ Z.of_nat k)%Z.
Proof.
  induction m as [|m IH]; intros k; cbn [seq planned].
  - assert (2 ^ Z.of_nat k ≤ 2 ^ Z.max (max_retries self - 1) (Z.of_nat k))%Z
      by (apply Z.pow_le_mono_r; lia).
    lia.
  - specialize (IH (S k)).
    replace (Z.of_nat (S k)) with (Z.of_nat k + 1)%Z in IH by lia.
    rewrite Z.pow_add_r in IH by lia.
    destruct (Z.of_nat k <? max_retries self - 1)%Z eqn:Hk.
    + apply Z.ltb_lt in Hk.
      rewrite Z.max_l in IH by lia. rewrite Z.max_l by lia. lia.
    + apply Z.ltb_ge in Hk.
      rewrite Z.max_r in IH by lia. rewrite Z.max_r by lia.
      rewrite Z.pow_add_r in IH by lia. lia.
Qed.

Lemma crossref_loop_sleeps doi existing_keys attempts :
  sleeps_at_most (retry_delay self * inject_Z (planned attempts))
    (crossref_loop w self doi existing_keys attempts).
Proof.
  induction attempts as [|j rest IH]; intros s.
  { cbn [crossref_loop planned]. unfold ret. cbn [snd].
    change (inject_Z 0) with 0%Q. lra. }
  assert (0 <= retry_delay self * inject_Z (planned rest))%Q as Hrest.
  { apply Qmult_le_0_compat; [done|].
    change 0%Q with (inject_Z 0). rewrite <- Zle_Qle.
    apply planned_not_negative. }
  cbn [crossref_loop planned]. unfold bind, http_get.
  set (s1 := MkState (trace s ++ [HttpGet (crossref_url doi)])
                     (S (requests s))).
  assert (slept (trace s1) == slept (trace s))%Q as Hs1.
  { unfold s1. simpl. by apply slept_quiet. }
  rewrite inject_Z_plus.
  destruct (Z.of_nat j <? max_retries self - 1)%Z eqn:Hj.
  - assert (0 <= retry_delay self * inject_Z (2 ^ Z.of_nat j))%Q as Hpow.
    { apply Qmult_le_0_compat; [done|].
      change 0%Q with (inject_Z 0). rewrite <- Zle_Qle.
      apply Z.pow_nonneg. lia. }
    destruct (session_get w (requests s) (crossref_url doi))
      as [status_code text|].
    + destruct (status_code =? 200)%Z.
      * destruct (_parse_bibtex_entry w text).
        -- unfold ret. cbn [snd]. lra.
        -- specialize (IH s1). lra.
      * destruct (status_code =? 404)%Z.
        -- unfold ret. cbn [snd]. lra.
        -- specialize (IH s1). lra.
    + rewrite (time_sleep_backoff self delay_not_negative j s1).
      set (s2 := MkState (trace s1 ++ [Sleep (backoff self j)]) (requests s1)).
      specialize (IH s2).
      assert (slept (trace s2)
              == slept (trace s1) + retry_delay self * inject_Z (2 ^ Z.of_nat j))%Q
        as Hs2.
      { unfold s2. cbn [trace]. rewrite slept_app. unfold backoff.
        cbn [slept]. lra. }
      lra.
  - change (inject_Z 0) with 0%Q.
    destruct (session_get w (requests s) (crossref_url doi))
      as [status_code text|].
    + destruct (status_code =? 200)%Z.
      * destruct (_parse_bibtex_entry w text).
        -- unfold ret. cbn [snd]. lra.
        -- specialize (IH s1). lra.
      * destruct (status_code =? 404)%Z.
        -- unfold ret. cbn [snd]. lra.
        -- specialize (IH s1). lra.
    + unfold ret, bind. specialize (IH s1). lra.
Qed.

(** The longest the CrossRef lookup can wait. *)
Definition longest_wait : Q :=
  (retry_delay self * inject_Z (2 ^ Z.max (max_retries self - 1) 0 - 1))%Q.

Lemma crossref_sleeps doi existing_keys :
  sleeps_at_most longest_wait
    (_get_metadata_from_crossref w self doi existing_keys).
Proof.
  unfold _get_metadata_from_crossref, longest_wait.
  eapply sleeps_at_most_weaken; [|apply crossref_loop_sleeps].
  rewrite !(Qmult_comm (retry_delay self)).
  apply Qmult_le_compat_r; [|done].
  rewrite <- Zle_Qle.
  pose proof (planned_seq (Z.to_nat (max_retries self)) 0) as H.
  simpl in H. lia.
Qed.

Lemma longest_wait_not_negative : (0 <= longest_wait)%Q.
Proof.
  unfold longest_wait. apply Qmult_le_0_compat; [done|].
  change 0%Q with (inject_Z 0). rewrite <- Zle_Qle.
  assert (2 ^ 0 ≤ 2 ^ Z.max (max_retries self - 1) 0)%Z
    by (apply Z.pow_le_mono_r; lia).
  simpl in *. lia.
Qed.

Lemma arxiv_sleeps arxiv_id existing_keys :
  sleeps_at_most 0
    (bind (_get_metadata_from_arxiv w arxiv_id existing_keys)
          (λ r, ret (Some r))).
Proof.
  intros s. unfold _get_metadata_from_arxiv, bind, http_get, ret.
  cbn [fst snd trace].
  pose proof (slept_quiet (trace s) (HttpGet (arxiv_url arxiv_id)) I). lra.
Qed.

Lemma parse_text_sleeps pdf_path first_pages_text existing_keys :
  sleeps_at_most 0 (parse_text pdf_path first_pages_text existing_keys).
Proof.
  intros s. unfold parse_text, bind, emit, ret.
  destruct (_parse_metadata_from_text _ _ _); cbn [fst snd trace].
  - pose proof (slept_quiet (trace s) (Call PARSED) I) as H1.
    pose proof (slept_quiet (trace s ++ [Call PARSED]) (Return PARSED true) I).
    lra.
  - pose proof (slept_quiet (trace s) (Call PARSED) I) as H1.
    pose proof (slept_quiet (trace s ++ [Call PARSED]) (Return PARSED false) I).
    lra.
Qed.

Lemma cascade_sleeps pdf_path first_pages_text keys :
  sleeps_at_most longest_wait
    (cascade w self pdf_path first_pages_text keys).
Proof.
  pose proof longest_wait_not_negative as Hw.
  pose proof (parse_text_sleeps pdf_path first_pages_text keys) as H6.
  assert (sleeps_at_most 0
            (try_pdf_metadata w pdf_path keys
               (parse_text pdf_path first_pages_text keys))) as H5.
  { eapply sleeps_at_most_weaken;
      [|apply (attempt_sleeps _ _ _ 0 0); [lra|apply pure_sleeps|done]].
    lra. }
  assert (sleeps_at_most 0
            (try_pubmed first_pages_text keys
               (try_pdf_metadata w pdf_path keys
                  (parse_text pdf_path first_pages_text keys)))) as H4.
  { unfold try_pubmed. repeat case_match; try done.
    eapply sleeps_at_most_weaken;
      [|apply (attempt_sleeps _ _ _ 0 0); [lra|apply pure_sleeps|done]].
    lra. }
  assert (sleeps_at_most 0
            (try_arxiv w first_pages_text keys
               (try_pubmed first_pages_text keys
                  (try_pdf_metadata w pdf_path keys
                     (parse_text pdf_path first_pages_text keys))))) as H3.
  { unfold try_arxiv. repeat case_match; try done.
    eapply sleeps_at_most_weaken;
      [|apply (attempt_sleeps _ _ _ 0 0); [lra|apply arxiv_sleeps|done]].
    lra. }
  assert (sleeps_at_most longest_wait
            (try_crossref w self first_pages_text keys
               (try_arxiv w first_pages_text keys
                  (try_pubmed first_pages_text keys
                     (try_pdf_metadata w pdf_path keys
                        (parse_text pdf_path first_pages_text keys))))))
    as H2.
  { unfold try_crossref.
    repeat case_match; try (eapply sleeps_at_most_weaken; [|exact H3]; lra).
    eapply sleeps_at_most_weaken;
      [|apply (attempt_sleeps _ _ _ longest_wait 0);
        [lra|apply crossref_sleeps|done]].
    lra. }
  unfold cascade, try_pdf2bib. case_match; [|done].
  eapply sleeps_at_most_weaken;
    [|apply (attempt_sleeps _ _ _ 0 longest_wait);
      [done|apply pdf2bib_sleeps|done]].
  lra.
Qed.

End Waiting.

(** X21. When [retry_delay] is not negative, the seconds one call of
    [extract_metadata] spends in [time.sleep] are at most
    [retry_delay * (2 ** (max_retries - 1) - 1)] (nothing when
    [max_retries] is 1 or less): 3 seconds with the defaults. *)
Theorem extract_metadata_wait_bound
    w self pdf_path first_pages_text existing_keys s :
  (0 <= retry_delay self)%Q →
  (slept (trace (extract_metadata w self pdf_path first_pages_text
                   existing_keys s).2)
   <= slept (trace s)
      + retry_delay self
        * inject_Z (2 ^ Z.max (max_retries self - 1) 0 - 1))%Q
  ∧ (longest_wait default_extractor == 3)%Q.
Proof.
  intros Hd. split; [|done].
  unfold extract_metadata. cbv zeta.
  by apply cascade_sleeps.
Qed.

Lemma extract_metadata_wait_bound_witness :
  let w := MkWorld false (λ _, Pdf2bibNotDict) (λ _ _, RequestException)
             (λ _, None) (λ _, None) (λ _, None) in
  let run := extract_metadata w default_extractor "paper.pdf"
               (Some "doi:10.1234/abcd") None start in
  (slept (trace run.2) <= slept (trace start) + 1 * inject_Z (2 ^ 2 - 1))%Q
  ∧ (slept (trace run.2) == 3)%Q.
Proof.
  intros w run. split; [|by vm_compute].
  apply (extract_metadata_wait_bound w default_extractor "paper.pdf"
           (Some "doi:10.1234/abcd") None start).
  by vm_compute.
Defined.

(** ** The year the text heuristic finds *)

Section HeuristicYear.

Lemma century_range c1 c2 :
  century c1 c2 = true →
  (1900 ≤ 1000 * Py.digit_val c1 + 100 * Py.digit_val c2 ≤ 2000)%Z.
Proof.
  unfold century.
  intros [[H1 H2]%andb_true_iff|[H1 H2]%andb_true_iff]%orb_true_iff;
    apply Ascii.eqb_eq in H1, H2; subst; vm_compute; by split.
Qed.

Lemma digit_val_range c :
  Py.isdecimal c = true → (0 ≤ Py.digit_val c ≤ 9)%Z.
Proof.
  destruct c as [[] [] [] [] [] [] [] []]; vm_compute; intros;
    try congruence; by split.
Qed.

Lemma year_token_range bef aft y :
  year_token_at bef aft = Some y → (1900 ≤ y ≤ 2099)%Z.
Proof.
  unfold year_token_at.
  destruct aft as [|c1 [|c2 [|c3 [|c4 rest]]]]; try done.
  destruct (_ && _) eqn:H; [|done]. intros [= <-].
  apply andb_true_iff in H as [H _].
  apply andb_true_iff in H as [H H4]. apply andb_true_iff in H as [H H3].
  apply andb_true_iff in H as [_ H12].
  apply century_range in H12.
  apply digit_val_range in H3, H4. lia.
Qed.

Lemma first_year_token_range aft :
  ∀ bef y, first_year_token_from bef aft = Some y → (1900 ≤ y ≤ 2099)%Z.
Proof.
  induction aft as [|c t IH]; intros bef y;
    rewrite first_year_token_from_unfold.
  - destruct (year_token_at bef []) eqn:Hy; [|done].
    intros [= <-]. by eapply year_token_range.
  - destruct (year_token_at bef (c :: t)) eqn:Hy.
    + intros [= <-]. by eapply year_token_range.
    + apply IH.
Qed.

End HeuristicYear.

(** X22. The year of the record the text heuristic builds is always
    between 1900 and 2099: a number of the text outside this range is
    never taken for the year. *)
Theorem text_heuristic_year_in_range text pdf_path existing_keys :
  ∃ r,
    _parse_metadata_from_text text pdf_path existing_keys = Some r
    ∧ (1900 ≤ year r ≤ 2099)%Z.
Proof.
  destruct (parse_metadata_from_text_spec text pdf_path existing_keys)
    as (key & _ & H).
  eexists. split; [exact H|]. cbn [year].
  unfold first_year_token.
  destruct (first_year_token_from [] (Py.to_list text)) as [y|] eqn:Hy;
    cbn [default]; [|lia].
  by eapply first_year_token_range.
Qed.

(** ** Entries the module writes, checked by its validator *)

Section Validation.

Lemma star_chr_matches p l :
  ∀ b rest g,
    Forall (λ c, p c = true) l →
    matches (Star (Chr p)) (MkPos b (l ++ rest) g) (MkPos (rev l ++ b) rest g).
Proof.
  induction l as [|c l IH]; intros b rest g Hl; [apply M_star_0|].
  apply Forall_cons in Hl as [Hc Hl].
  change ((c :: l) ++ rest) with (c :: (l ++ rest)).
  eapply M_star_S; [by apply M_chr| |].
  - cbn [after length]. lia.
  - cbn [rev]. rewrite <- app_assoc. by apply IH.
Qed.

Lemma plus_chr_matches p c l b rest g :
  p c = true → Forall (λ c, p c = true) l →
  matches (plus (Chr p)) (MkPos b (c :: l ++ rest) g)
    (MkPos (rev l ++ c :: b) rest g).
Proof.
  intros Hc Hl. eapply M_cat; [by apply M_chr | by apply star_chr_matches].
Qed.

Lemma lit_matches c b rest g :
  matches (lit c) (MkPos b (c :: rest) g) (MkPos (c :: b) rest g).
Proof. apply M_chr. apply Ascii.eqb_refl. Qed.

Lemma lit_i_matches c b rest g :
  matches (lit_i c) (MkPos b (c :: rest) g) (MkPos (c :: b) rest g).
Proof. apply M_chr. apply Ascii.eqb_refl. Qed.

(** A match somewhere in the text is found by the search. *)
Lemma search_finds r pre aft e :
  matches r (MkPos (rev pre) aft None) e →
  is_Some (search r (Py.of_list (pre ++ aft))).
Proof.
  intros Hm. unfold search. rewrite to_list_of_list.
  destruct (search_from r [] (pre ++ aft)) as [m|] eqn:Hs; [by eexists|].
  exfalso. eapply (search_from_complete _ _ _ Hs); [|exact Hm].
  exists pre. by rewrite app_nil_r.
Qed.

Lemma search_finds_in r text pre aft e :
  Py.to_list text = pre ++ aft →
  matches r (MkPos (rev pre) aft None) e →
  is_Some (search r text).
Proof.
  intros E Hm. rewrite <- (of_list_to_list text), E. by eapply search_finds.
Qed.

Lemma match_at_start_finds r text e :
  matches r (MkPos [] (Py.to_list text) None) e →
  is_Some (match_at_start r text).
Proof.
  intros Hm. unfold match_at_start.
  destruct (run r _ Some) as [x|] eqn:Hr; [by eexists|].
  by apply (run_complete _ _ _ Hr) in Hm.
Qed.

Lemma up_to_split sep l rest :
  ∃ rest',
    l ++ sep :: rest = up_to sep l ++ sep :: rest'
    ∧ Forall (λ c, negb (Ascii.eqb c sep) = true) (up_to sep l).
Proof.
  induction l as [|c l (rest' & E & F)]; simpl.
  - exists rest. by split.
  - destruct (Ascii.eqb c sep) eqn:Hc.
    + apply Ascii.eqb_eq in Hc. subst c. exists (l ++ sep :: rest). by split.
    + exists rest'. split; [by rewrite E|]. constructor; [by rewrite Hc | done].
Qed.

Lemma entry_head_matches typ key rest :
  typ ≠ [] → Forall (λ c, isword c = true) typ →
  key ≠ [] → Forall (λ c, isword c || Ascii.eqb c "-" = true) key →
  ∃ e,
    matches entry_head
      (MkPos [] ("@"%char :: typ ++ "{"%char :: key ++ ","%char :: rest) None) e.
Proof.
  intros Ht Htw Hk Hkw.
  destruct typ as [|t typ]; [done|]. destruct key as [|k key]; [done|].
  apply Forall_cons in Htw as [Ht0 Htw]. apply Forall_cons in Hkw as [Hk0 Hkw].
  eexists. unfold entry_head.
  eapply M_cat; [apply lit_matches|].
  eapply M_cat; [by apply (plus_chr_matches isword)|].
  eapply M_cat; [apply lit_matches|].
  eapply M_cat; [by apply plus_chr_matches|].
  apply lit_matches.
Qed.

Lemma title_field_matches b c t rest :
  c ≠ "}"%char →
  ∃ e,
    matches title_field
      (MkPos b (Py.to_list "title = {" ++ c :: t ++ "}"%char :: rest) None) e.
Proof.
  intros Hc. destruct (up_to_split "}" t rest) as (rest' & -> & Hl).
  eexists. unfold title_field.
  cbv [str_i lits_i]. cbn [Py.to_list list_ascii_of_string app].
  eapply M_cat.
  { repeat (eapply M_cat; [apply lit_i_matches|]). apply lit_i_matches. }
  eapply M_cat; [apply (star_chr_matches Py.isspace [" "%char]); by repeat constructor|].
  eapply M_cat; [apply lit_i_matches|].
  eapply M_cat; [apply (star_chr_matches Py.isspace [" "%char]); by repeat constructor|].
  eapply M_cat; [apply lit_i_matches|].
  eapply M_cat; [|apply lit_i_matches].
  apply plus_chr_matches; [|done].
  apply negb_true_iff. destruct (Ascii.eqb c "}") eqn:He; [|done].
  by apply Ascii.eqb_eq in He.
Qed.

Lemma year_field_matches b d1 d2 d3 d4 rest :
  Forall (λ c, Py.isdecimal c = true) [d1; d2; d3; d4] →
  ∃ e,
    matches year_field
      (MkPos b (Py.to_list "year = {" ++ d1 :: d2 :: d3 :: d4 :: rest) None) e.
Proof.
  intros H. apply Forall_cons in H as [H1 H]. apply Forall_cons in H as [H2 H].
  apply Forall_cons in H as [H3 H]. apply Forall_cons in H as [H4 _].
  eexists. unfold year_field.
  cbv [str_i lits_i]. cbn [Py.to_list list_ascii_of_string app].
  eapply M_cat.
  { repeat (eapply M_cat; [apply lit_i_matches|]). apply lit_i_matches. }
  eapply M_cat; [apply (star_chr_matches Py.isspace [" "%char]); by repeat constructor|].
  eapply M_cat; [apply lit_i_matches|].
  eapply M_cat; [apply (star_chr_matches Py.isspace [" "%char]); by repeat constructor|].
  eapply M_cat.
  { cbn [at_most]. apply M_alt_l. eapply M_cat; [apply lit_i_matches|apply M_eps]. }
  eapply M_cat.
  { cbn [exactly]. unfold digit.
    repeat (eapply M_cat; [by apply M_chr|]). apply M_eps. }
  cbn [at_most]. apply M_alt_r, M_eps.
Qed.

End Validation.

Section ValidEntries.

Lemma pretty_N_four (x : N) :
  (1000 ≤ x)%N → (4 ≤ String.length (pretty x))%nat.
Proof.
  intros Hx. unfold pretty, pretty_N. case_decide; [lia|].
  assert (0 < x / 10)%N by (apply N.div_str_pos; lia).
  assert (0 < x / 10 / 10)%N.
  { rewrite N.Div0.div_div. apply N.div_str_pos. lia. }
  assert (0 < x / 10 / 10 / 10)%N.
  { rewrite !N.Div0.div_div. apply N.div_str_pos. lia. }
  rewrite !pretty_N_go_step by (done || lia).
  etrans; [|apply pretty_N_go_length]. simpl. lia.
Qed.

Lemma str_of_int_four year :
  (1000 ≤ year)%Z →
  ∃ d1 d2 d3 d4 rest,
    Py.to_list (Py.str_of_int year) = d1 :: d2 :: d3 :: d4 :: rest
    ∧ Forall (λ c, Py.isdecimal c = true) [d1; d2; d3; d4].
Proof.
  intros Hy. destruct year as [|p|p]; try lia.
  change (Py.str_of_int (Z.pos p)) with (pretty (N.pos p)).
  pose proof (pretty_N_four (N.pos p) ltac:(lia)) as Hlen.
  pose proof (pretty_N_chars Py.isdecimal (λ c H, H) (N.pos p)) as Hc.
  unfold chars_in in Hc.
  rewrite <- (of_list_to_list (pretty (N.pos p))), length_of_list in Hlen.
  destruct (Py.to_list (pretty (N.pos p))) as [|d1 [|d2 [|d3 [|d4 rest]]]];
    simpl in Hlen; try lia.
  exists d1, d2, d3, d4, rest. split; [done|].
  apply Forall_cons in Hc as [H1 Hc]. apply Forall_cons in Hc as [H2 Hc].
  apply Forall_cons in Hc as [H3 Hc]. apply Forall_cons in Hc as [H4 _].
  by repeat constructor.
Qed.

(** The first four lines of an entry the module writes. *)
Lemma created_entry_lines entry_type key title authors year kwargs :
  ∃ author_line rest,
    _create_bibtex_entry entry_type key title authors year kwargs
    = ("@" +:+ entry_type +:+ "{" +:+ key +:+ ",") +:+ String LF ""
      +:+ ("  title = {"
           +:+ (if String.eqb title "" then "Untitled" else title) +:+ "},")
      +:+ String LF "" +:+ author_line +:+ String LF ""
      +:+ ("  year = {" +:+ Py.str_of_int year +:+ "},") +:+ String LF ""
      +:+ rest.
Proof.
  unfold _create_bibtex_entry. cbv zeta. cbn [app].
  destruct (concat (optional_line <$> kwargs) ++ ["}"]) as [|x t] eqn:E.
  { by apply app_eq_nil in E as [_ ?]. }
  cbn [join]. eexists _, _.
  destruct (String.eqb title ""); reflexivity.
Qed.

Lemma key_char_in_head c :
  key_char c = true → isword c || Ascii.eqb c "-" = true.
Proof. destruct c as [[] [] [] [] [] [] [] []]; vm_compute; by intros. Qed.

End ValidEntries.

(** X23. An entry the module writes for a generated key passes the
    module's own validator, provided the year has four digits or more and
    the title does not begin with a closing brace. *)
Theorem created_entry_is_valid
    authors0 year0 existing_keys key title authors year kwargs :
  generate_bibtex_key authors0 year0 existing_keys = Some key →
  (1000 ≤ year)%Z →
  (∀ t, title ≠ String "}" t) →
  validate_bibtex_entry
    (_create_bibtex_entry "article" key title authors year kwargs) = true.
Proof.
  intros Hk Hy Ht. unfold validate_bibtex_entry.
  set (entry := _create_bibtex_entry "article" key title authors year kwargs).
  assert (is_Some (match_at_start entry_head entry)) as [m ->].
  { destruct (created_entry_starts_with_key "article" key title authors year
                kwargs) as [rest Hr].
    destruct (entry_head_matches (Py.to_list "article") (Py.to_list key)
                (Py.to_list rest)) as [e He].
    - done.
    - by repeat constructor.
    - intros Hnil. apply generated_key_nonempty in Hk.
      rewrite <- (of_list_to_list key), Hnil in Hk. simpl in Hk. lia.
    - eapply Forall_impl; [exact (generated_key_plain _ _ _ _ Hk)|].
      intros c. apply key_char_in_head.
    - apply (match_at_start_finds _ _ e). subst entry. rewrite Hr.
      change ("@" +:+ "article" +:+ "{" +:+ key +:+ "," +:+ rest)
        with (entry_text "" "article" key rest).
      by rewrite to_list_entry_text. }
  destruct (created_entry_lines "article" key title authors year kwargs)
    as (author_line & rest & Hl). fold entry in Hl.
  apply andb_true_iff. split; apply bool_decide_eq_true.
  - set (T := if String.eqb title "" then "Untitled" else title) in Hl.
    assert (∃ c t, Py.to_list T = c :: t ∧ c ≠ "}"%char) as (c & t & HT & Hc).
    { subst T. destruct title as [|c t]; simpl.
      - by exists "U"%char, (Py.to_list "ntitled").
      - exists c, (Py.to_list t). split; [done|]. intros ->. by apply (Ht t). }
    set (pre := Py.to_list (("@" +:+ "article" +:+ "{" +:+ key +:+ ",")
                            +:+ String LF "" +:+ "  ")).
    set (post := Py.to_list ("," +:+ String LF "" +:+ author_line
                             +:+ String LF ""
                             +:+ ("  year = {" +:+ Py.str_of_int year +:+ "},")
                             +:+ String LF "" +:+ rest)).
    destruct (title_field_matches (rev pre) c t post Hc) as [e He].
    refine (search_finds_in _ _ pre _ e _ He).
    subst pre post. rewrite Hl, !to_list_app, HT, <- !app_assoc. reflexivity.
  - destruct (str_of_int_four year Hy) as (d1 & d2 & d3 & d4 & ds & Hd & Hds).
    set (pre := Py.to_list (("@" +:+ "article" +:+ "{" +:+ key +:+ ",")
                            +:+ String LF ""
                            +:+ ("  title = {"
                                 +:+ (if String.eqb title "" then "Untitled"
                                      else title) +:+ "},")
                            +:+ String LF "" +:+ author_line
                            +:+ String LF "" +:+ "  ")).
    set (post := ds ++ Py.to_list ("}," +:+ String LF "" +:+ rest)).
    destruct (year_field_matches (rev pre) d1 d2 d3 d4 post Hds) as [e He].
    refine (search_finds_in _ _ pre _ e _ He).
    subst pre post. rewrite Hl, !to_list_app, Hd, <- !app_assoc. reflexivity.
Qed.

Lemma created_entry_is_valid_witness :
  validate_bibtex_entry
    (_create_bibtex_entry "article" "Smith2024" "A Title" ["Smith, Jane"] 2024
       [("doi", Some "10.1000/xyz")]) = true.
Proof.
  apply (created_entry_is_valid ["Smith, Jane"] 2024 ∅).
  - by vm_compute.
  - lia.
  - done.
Defined.

(** ** Where the identifiers of a record come from *)

Section RecordSources.
Variable w : world.
Variable self : MetadataExtractor.
Variable pdf_path : string.
Variable first_pages_text : option string.
Hypothesis delay_not_negative : (0 <= retry_delay self)%Q.

(** The identifier of a record found by a lookup is the one read from the
    first pages. *)
Definition from_text (r : PaperMetadata) : Prop :=
  (extraction_method r = CROSSREF →
   ∃ text d,
     first_pages_text = Some text ∧ extract_doi_from_text text = Some d
     ∧ doi r = Some d)
  ∧ (extraction_method r = ARXIV →
     ∃ text id,
       first_pages_text = Some text
       ∧ extract_arxiv_id_from_text text = Some id
       ∧ url r = Some ("https://arxiv.org/abs/" +:+ id)
       ∧ doi r = None).

Lemma other_method_from_text r :
  extraction_method r ≠ CROSSREF → extraction_method r ≠ ARXIV →
  from_text r.
Proof. intros H1 H2. by split. Qed.

Lemma pdf2bib_from_text existing_keys md :
  pdf2bib_result w pdf_path existing_keys = Some md →
  from_text md.
Proof.
  intros H.
  destruct (pdf2bib_ok w pdf_path existing_keys start)
    as (res & added & [= <-] & _ & _ & _ & Hm).
  apply other_method_from_text; by rewrite (Hm md H).
Qed.

Lemma pdf_metadata_from_text existing_keys md :
  _extract_from_pdf_metadata w pdf_path existing_keys = Some md →
  from_text md.
Proof.
  intros H.
  destruct (pdf_metadata_ok w pdf_path existing_keys start)
    as (res & added & [= <-] & _ & _ & _ & Hm).
  apply other_method_from_text; by rewrite (Hm md H).
Qed.

Lemma parsed_from_text text existing_keys md :
  _parse_metadata_from_text text pdf_path existing_keys = Some md →
  from_text md.
Proof.
  destruct (parse_metadata_from_text_spec text pdf_path existing_keys)
    as (key & _ & ->).
  intros [= <-]. by apply other_method_from_text.
Qed.

Lemma crossref_from_text text d existing_keys s md :
  first_pages_text = Some text → extract_doi_from_text text = Some d →
  (_get_metadata_from_crossref w self d existing_keys s).1 = Some (Some md) →
  from_text md.
Proof.
  intros Ht Hd H.
  apply crossref_record_inv in H as (_ & Hdoi & Hm).
  split; [|by rewrite Hm].
  intros _. by exists text, d.
Qed.

Lemma arxiv_from_text text id existing_keys s md :
  first_pages_text = Some text → extract_arxiv_id_from_text text = Some id →
  (_get_metadata_from_arxiv w id existing_keys s).1 = Some md →
  from_text md.
Proof.
  intros Ht Hid.
  unfold _get_metadata_from_arxiv, bind, http_get, ret. simpl.
  unfold arxiv_body.
  destruct (session_get _ _ _) as [status_code content|]; simpl; [|done].
  destruct (status_code =? 200)%Z; simpl; [|done].
  destruct (arxiv_feed w content) as [[entry|]|]; simpl; try done.
  destruct (a_title entry); simpl; [|done].
  destruct (a_authors entry); simpl; [|done].
  destruct (a_published entry); simpl; [|done].
  destruct (Py.int_of_str _); simpl; [|done].
  destruct (a_summary entry); simpl; [|done].
  destruct (generate_bibtex_key _ _ _); simpl; [|done].
  intros [= <-]. split; [done|]. intros _. by exists text, id.
Qed.

Lemma cascade_from_text existing_keys :
  ∀ s r,
    (cascade w self pdf_path first_pages_text existing_keys s).1 = Some r →
    from_text r.
Proof.
  unfold cascade.
  assert (∀ s r, (parse_text pdf_path first_pages_text existing_keys s).1
                 = Some r → from_text r) as Ht.
  { intros s r. unfold parse_text, bind, emit.
    destruct (_parse_metadata_from_text _ _ _) as [md|] eqn:Hp; simpl;
      [|done].
    intros [= <-]. by eapply parsed_from_text. }
  assert (∀ s r, (try_pdf_metadata w pdf_path existing_keys
                    (parse_text pdf_path first_pages_text existing_keys) s).1
                 = Some r → from_text r) as Hm.
  { unfold try_pdf_metadata. apply attempt_returns; [|done].
    intros s md [= Hmd]. by eapply pdf_metadata_from_text. }
  assert (∀ next, (∀ s r, (next s).1 = Some r → from_text r) →
            ∀ s r, (try_pubmed first_pages_text existing_keys next s).1
                   = Some r → from_text r) as Hp.
  { intros next Hn. unfold try_pubmed.
    destruct (truthy first_pages_text); [|done].
    destruct (truthy _); [|done].
    apply attempt_returns; [|done]. by intros s md. }
  assert (∀ next, (∀ s r, (next s).1 = Some r → from_text r) →
            ∀ s r, (try_arxiv w first_pages_text existing_keys next s).1
                   = Some r → from_text r) as Ha.
  { intros next Hn. unfold try_arxiv.
    destruct first_pages_text as [text|] eqn:Hft; [|done].
    destruct (truthy (Some text)); [|done].
    change (default "" (Some text)) with text.
    destruct (extract_arxiv_id_from_text text) as [id|] eqn:Hid;
      [|exact Hn].
    destruct (truthy (Some id)); [|done].
    apply attempt_returns; [|done].
    intros s md. unfold bind. change (default "" (Some id)) with id.
    destruct (_get_metadata_from_arxiv _ _ _ _) as [res s'] eqn:Hr.
    simpl. intros [= ->]. eapply (arxiv_from_text text id); try done.
    by rewrite Hr. }
  assert (∀ next, (∀ s r, (next s).1 = Some r → from_text r) →
            ∀ s r, (try_crossref w self first_pages_text existing_keys next s).1
                   = Some r → from_text r) as Hc.
  { intros next Hn. unfold try_crossref.
    destruct first_pages_text as [text|] eqn:Hft; [|done].
    destruct (truthy (Some text)); [|done].
    change (default "" (Some text)) with text.
    destruct (extract_doi_from_text text) as [d|] eqn:Hd; [|exact Hn].
    destruct (truthy (Some d)); [|done].
    apply attempt_returns; [|done]. intros s md.
    change (default "" (Some d)) with d.
    by apply (crossref_from_text text d). }
  unfold try_pdf2bib. destruct (PDF2BIB_AVAILABLE w).
  - apply attempt_returns.
    + intros s md [= Hmd]. by eapply pdf2bib_from_text.
    + by apply Hc, Ha, Hp.
  - by apply Hc, Ha, Hp.
Qed.

(** X24. For a delay that is not negative, [extract_metadata] returns a
    record, and in that record the identifier of a lookup is the one read
    from the first pages: a CrossRef record has as
    [doi] the DOI that [extract_doi_from_text] finds in the text, and an
    arXiv record has no [doi] and as [url] the abstract page of the
    identifier that [extract_arxiv_id_from_text] finds in the text. *)
Theorem record_identifier_is_read_from_text existing_keys s :
  ∃ r,
    (extract_metadata w self pdf_path first_pages_text existing_keys s).1
    = Some r
    ∧ (extraction_method r = CROSSREF →
       ∃ text d,
         first_pages_text = Some text ∧ extract_doi_from_text text = Some d
         ∧ doi r = Some d)
    ∧ (extraction_method r = ARXIV →
       ∃ text id,
         first_pages_text = Some text
         ∧ extract_arxiv_id_from_text text = Some id
         ∧ url r = Some ("https://arxiv.org/abs/" +:+ id)
         ∧ doi r = None).
Proof.
  destruct (extract_metadata_returns w self pdf_path first_pages_text
              existing_keys s delay_not_negative) as (r & Hr & _).
  exists r. split; [done|].
  unfold extract_metadata in Hr. cbv zeta in Hr.
  by apply cascade_from_text in Hr.
Qed.

End RecordSources.

Lemma record_identifier_is_read_from_text_witness :
  ∃ r,
    (extract_metadata crossref_answers default_extractor "/papers/a.pdf"
       (Some "doi:10.1234/abc") None start).1 = Some r
    ∧ (extraction_method r = CROSSREF →
       ∃ text d,
         Some "doi:10.1234/abc" = Some text
         ∧ extract_doi_from_text text = Some d
         ∧ doi r = Some d)
    ∧ (extraction_method r = ARXIV →
       ∃ text id,
         Some "doi:10.1234/abc" = Some text
         ∧ extract_arxiv_id_from_text text = Some id
         ∧ url r = Some ("https://arxiv.org/abs/" +:+ id)
         ∧ doi r = None).
Proof.
  apply (record_identifier_is_read_from_text crossref_answers
           default_extractor).
  by vm_compute.
Defined.

(** X25. The DOI is decided by the first pattern alone: it is the first
    match of the bare pattern with the closing punctuation stripped, and
    there is none when the bare pattern has no match.  The patterns with
    a [doi:] prefix never supply the match, and the removal of the prefix
    never changes it. *)
Theorem doi_is_decided_by_first_pattern text :
  extract_doi_from_text text
  = (λ m, Py.rstrip ".,;:" (group0 m)) <$> search doi_core text.
Proof.
  unfold extract_doi_from_text, doi_patterns, first_match.
  destruct (search doi_core text) as [m|] eqn:H1.
  - cbn [fmap option_fmap option_map]. f_equal.
    unfold search in H1.
    apply search_from_sound in H1 as (bef' & aft' & _ & Hst & Hm & _).
    apply doi_core_shape in Hm as (c & l & Hc & Hb).
    destruct m as [st e]. cbn [m_start m_end] in *. subst st.
    rewrite (group0_consumed bef' _ e Hb).
    rewrite clean_doi_digits by done.
    unfold Py.rstrip. by rewrite to_list_of_list.
  - destruct (search (Cat (str_i "doi:") _) text) as [m|] eqn:H2.
    { by apply prefixed_needs_core in H2. }
    destruct (search (Cat (str_i "DOI:") _) text) as [m|] eqn:H3.
    { by apply prefixed_needs_core in H3. }
    done.
Qed.

(** ** The DOI as a token of the text *)

Section DoiToken.

(** A token the bare pattern accepts: [10.], four decimal digits or more,
    a slash, and one character or more, none of them white space. *)
Definition doi_token (token : string) : Prop :=
  ∃ registrant suffix,
    token = "10." +:+ registrant +:+ "/" +:+ suffix
    ∧ (4 ≤ String.length registrant)%nat
    ∧ chars_in Py.isdecimal registrant
    ∧ suffix ≠ ""
    ∧ Forall (λ c, Py.isspace c = false) (Py.to_list suffix).

(** The search returns the end the matcher computes at the place it
    stops at. *)
Lemma search_from_run r :
  ∀ aft bef m,
    search_from r bef aft = Some m →
    ∃ bef' aft',
      later bef aft bef' aft'
      ∧ m_start m = length bef'
      ∧ run r (MkPos bef' aft' None) Some = Some (m_end m)
      ∧ (∀ b a, later bef aft b a → (length b < length bef')%nat →
                run r (MkPos b a None) Some = None).
Proof.
  induction aft as [|c t IH]; intros bef m; rewrite search_from_unfold;
    destruct (run r _ Some) as [e|] eqn:Hr.
  - intros [= <-]. exists bef, []. split; [apply later_refl|].
    split; [done|]. split; [done|]. intros b a Hl%later_length Hlt. lia.
  - done.
  - intros [= <-]. exists bef, (c :: t). split; [apply later_refl|].
    split; [done|]. split; [done|]. intros b a Hl%later_length Hlt. lia.
  - intros H. apply IH in H as (bef' & aft' & Hl & Hs & Hr' & Hleft).
    exists bef', aft'. split; [by apply later_step|].
    split; [done|]. split; [done|].
    intros b a [[-> ->]|Hb]%later_inv Hlt; [done|].
    by apply Hleft.
Qed.

Lemma lstrip_by_split p l :
  ∃ x, l = x ++ Py.lstrip_by p l ∧ Forall (λ c, p c = true) x.
Proof.
  induction l as [|c l (x & Hx & Fx)]; simpl; [by exists []|].
  destruct (p c) eqn:Hc.
  - exists (c :: x). split; [simpl; by f_equal | by constructor].
  - by exists [].
Qed.

Lemma lstrip_by_stops p l : stops_at p (Py.lstrip_by p l).
Proof.
  unfold stops_at. destruct (Py.lstrip_by p l) as [|c t] eqn:E; [done|].
  by apply lstrip_by_head in E.
Qed.

Lemma run_lit_i {A} c b t g (k : pos → option A) :
  run (lit_i c) (MkPos b (c :: t) g) k = k (MkPos (c :: b) t g).
Proof. unfold lit_i. simpl. by rewrite Ascii.eqb_refl. Qed.

Lemma run_at_least_chr {A} p n :
  ∀ l b rest g (k : pos → option A) x,
    (n ≤ length l)%nat → Forall (λ c, p c = true) l → stops_at p rest →
    k (MkPos (rev l ++ b) rest g) = Some x →
    run (at_least n (Chr p)) (MkPos b (l ++ rest) g) k = Some x.
Proof.
  induction n as [|n IH]; intros l b rest g k x Hn Hl Hstop Hk;
    cbn [at_least].
  - cbn [run after]. by apply star_run_chr_greedy.
  - destruct l as [|c l]; [simpl in Hn; lia|].
    apply Forall_cons in Hl as [Hc Hl].
    change ((c :: l) ++ rest) with (c :: (l ++ rest)).
    cbn [run after before group1]. rewrite Hc.
    apply IH; [simpl in Hn; lia|done|done|].
    cbn [rev] in Hk. by rewrite <- app_assoc in Hk.
Qed.

Lemma at_least_chr_matches p n :
  ∀ l b rest g,
    (n ≤ length l)%nat → Forall (λ c, p c = true) l →
    matches (at_least n (Chr p)) (MkPos b (l ++ rest) g)
      (MkPos (rev l ++ b) rest g).
Proof.
  induction n as [|n IH]; intros l b rest g Hn Hl; cbn [at_least].
  - by apply star_chr_matches.
  - destruct l as [|c l]; [simpl in Hn; lia|].
    apply Forall_cons in Hl as [Hc Hl].
    change ((c :: l) ++ rest) with (c :: (l ++ rest)).
    eapply M_cat; [by apply M_chr|].
    cbn [rev]. rewrite <- app_assoc. apply IH; [simpl in Hn; lia|done].
Qed.

Definition not_space (c : ascii) : bool := negb (Py.isspace c).

(** The bare pattern run on a token: it goes over the whole token and on
    to the first white space. *)
Lemma run_doi_core b registrant x taken rest :
  (4 ≤ length registrant)%nat →
  Forall (λ c, Py.isdecimal c = true) registrant →
  not_space x = true → Forall (λ c, not_space c = true) taken →
  stops_at not_space rest →
  ∃ e,
    run doi_core
      (MkPos b (Py.to_list "10." ++ registrant
                ++ "/"%char :: x :: taken ++ rest) None) Some
    = Some e
    ∧ after e = rest.
Proof.
  intros Hn Hr Hx Ht Hstop. unfold doi_core.
  cbv [str_i lits_i]. cbn [Py.to_list list_ascii_of_string app run].
  rewrite !run_lit_i.
  eexists. split.
  - unfold digit. apply run_at_least_chr; [done|done|done|].
    cbn [run]. rewrite run_lit_i.
    unfold nonspace. by apply (run_plus_chr not_space).
  - done.
Qed.

Lemma doi_token_matches b registrant suffix rest :
  (4 ≤ length registrant)%nat →
  Forall (λ c, Py.isdecimal c = true) registrant →
  suffix ≠ [] → Forall (λ c, Py.isspace c = false) suffix →
  ∃ e,
    matches doi_core
      (MkPos b (Py.to_list "10." ++ registrant ++ "/"%char :: suffix ++ rest)
         None) e.
Proof.
  intros Hn Hr Hne Hs. destruct suffix as [|x l]; [done|].
  apply Forall_cons in Hs as [Hx Hl].
  eexists. unfold doi_core.
  cbv [str_i lits_i]. cbn [Py.to_list list_ascii_of_string app].
  eapply M_cat.
  { repeat (eapply M_cat; [apply lit_i_matches|]). apply lit_i_matches. }
  eapply M_cat; [unfold digit; by apply at_least_chr_matches|].
  eapply M_cat; [apply lit_i_matches|].
  unfold nonspace. apply plus_chr_matches.
  - by rewrite Hx.
  - eapply Forall_impl; [exact Hl|]. intros c Hc. by rewrite Hc.
Qed.

(** A match of the bare pattern went over a token. *)
Lemma doi_core_token s e :
  matches doi_core s e →
  ∃ registrant x l,
    over s e (Py.to_list "10." ++ registrant ++ "/"%char :: x :: l)
    ∧ (4 ≤ length registrant)%nat
    ∧ Forall (λ c, Py.isdecimal c = true) registrant
    ∧ Forall (λ c, Py.isspace c = false) (x :: l).
Proof.
  unfold doi_core. intros H.
  apply cat_inv in H as (s1 & H1 & H). apply cat_inv in H as (s2 & H2 & H).
  apply cat_inv in H as (s3 & H3 & H4).
  cbv [str_i lits_i lit_i Py.to_list list_ascii_of_string] in H1.
  apply cat_inv in H1 as (t1 & Ha & H1). apply cat_inv in H1 as (t2 & Hb & Hc).
  apply chr_over in Ha as (a & Oa & Ha). apply lit_i_one in Ha. subst a.
  apply chr_over in Hb as (b & Ob & Hb). apply lit_i_zero in Hb. subst b.
  apply chr_over in Hc as (c & Oc & Hc). apply lit_i_dot in Hc. subst c.
  unfold digit in H2. apply at_least_chr_over in H2 as (reg & Or & Nr & Fr).
  unfold lit_i in H3. apply chr_over in H3 as (d & Od & Hd).
  apply lit_i_slash in Hd. subst d.
  unfold plus, nonspace in H4. apply cat_inv in H4 as (s4 & H4 & H5).
  apply chr_over in H4 as (x & Ox & Hx).
  apply star_chr_over in H5 as (l & Ol & Fl).
  exists reg, x, l. split; [|split; [done|split; [done|]]].
  - change (Py.to_list "10.") with (["1"] ++ ["0"] ++ ["."])%char.
    change ("/"%char :: x :: l) with (["/"%char] ++ [x] ++ l).
    rewrite <- !app_assoc.
    repeat (eapply over_app; [eassumption|]). done.
  - constructor; [by apply negb_true_iff|].
    eapply Forall_impl; [exact Fl|]. intros c Hc. by apply negb_true_iff.
Qed.

(** The DOI that is returned, as a part of the text. *)
Lemma doi_is_leftmost_token text d :
  extract_doi_from_text text = Some d →
  ∃ pre token post,
    text = pre +:+ token +:+ post
    ∧ doi_token token
    ∧ (∀ c post', post = String c post' → Py.isspace c = true)
    ∧ (∀ pre' token' post',
         text = pre' +:+ token' +:+ post' → doi_token token' →
         (String.length pre ≤ String.length pre')%nat)
    ∧ d = Py.rstrip ".,;:" token.
Proof.
  intros (m & Hs & ->)%extract_doi_is_core_match. unfold search in Hs.
  apply search_from_run in Hs as (bef' & aft' & Hl & Hst & Hrun & Hmin).
  destruct Hl as (pre & Htext & Hbef). rewrite app_nil_r in Hbef.
  destruct m as [st e]. cbn [m_start m_end] in *. subst st.
  pose proof Hrun as Hm. apply run_sound in Hm as (e0 & Hm & [= ->]).
  apply doi_core_token in Hm as (reg & x & l & [Ha Hb] & Hn & Hr & Hx).
  cbn [after before] in Ha, Hb.
  apply Forall_cons in Hx as [Hx Hxl].
  (* the matcher goes on to the first white space *)
  assert (stops_at not_space (after e)) as Hstop.
  { destruct (lstrip_by_split not_space (l ++ after e)) as (taken & Ht & Ft).
    destruct (run_doi_core bef' reg x taken
                (Py.lstrip_by not_space (l ++ after e)))
      as (e' & Hrun' & Hafter); try done.
    - unfold not_space. by rewrite Hx.
    - apply lstrip_by_stops.
    - rewrite <- Ht in Hrun'.
      assert (aft' = Py.to_list "10." ++ reg
                     ++ "/"%char :: x :: l ++ after e) as Haft
        by (rewrite Ha, <- !app_assoc; reflexivity).
      rewrite Haft, Hrun' in Hrun. injection Hrun as ->.
      rewrite Hafter at 1. apply lstrip_by_stops. }
  exists (Py.of_list pre),
    (Py.of_list (Py.to_list "10." ++ reg ++ "/"%char :: x :: l)),
    (Py.of_list (after e)).
  split.
  { rewrite <- !of_list_app, <- Ha, <- Htext. by rewrite of_list_to_list. }
  split.
  { exists (Py.of_list reg), (Py.of_list (x :: l)).
    rewrite length_of_list. unfold chars_in. rewrite !to_list_of_list.
    split.
    { change ("/"%char :: x :: l) with (["/"%char] ++ x :: l).
      by rewrite !of_list_app. }
    split; [done|]. split; [done|]. split; [done|]. by constructor. }
  split.
  { intros c post' Hp. apply (f_equal Py.to_list) in Hp.
    rewrite to_list_of_list in Hp.
    change (Py.to_list (String c post')) with (c :: Py.to_list post') in Hp.
    rewrite Hp in Hstop. simpl in Hstop. unfold not_space in Hstop.
    by apply negb_false_iff in Hstop. }
  split.
  { intros pre' token' post' Ht' (reg' & suf' & -> & Hn' & Hr' & Hne' & Hs').
    rewrite length_of_list.
    rewrite <- (of_list_to_list pre'), length_of_list.
    destruct (decide (length pre ≤ length (Py.to_list pre'))%nat) as [|Hlt];
      [done|]. exfalso.
    destruct (doi_token_matches (rev (Py.to_list pre')) (Py.to_list reg')
                (Py.to_list suf') (Py.to_list post')) as [e' He'].
    - by rewrite <- (of_list_to_list reg'), length_of_list in Hn'.
    - done.
    - intros Hnil. apply Hne'. by rewrite <- (of_list_to_list suf'), Hnil.
    - done.
    - assert (run doi_core
                (MkPos (rev (Py.to_list pre'))
                   (Py.to_list "10." ++ Py.to_list reg'
                    ++ "/"%char :: Py.to_list suf' ++ Py.to_list post') None)
                Some = None) as Hnone.
      { apply Hmin.
        - exists (Py.to_list pre'). rewrite app_nil_r. split; [|done].
          rewrite Ht', !to_list_app, <- !app_assoc. reflexivity.
        - rewrite Hbef, !length_rev. lia. }
      by apply (run_complete _ _ _ Hnone) in He'. }
  rewrite (group0_consumed bef' _ e Hb).
  change (Py.to_list "10." ++ reg ++ "/"%char :: x :: l)
    with ("1"%char :: ("0" :: "." :: reg)%char ++ "/"%char :: x :: l).
  rewrite clean_doi_digits by done.
  unfold Py.rstrip. by rewrite to_list_of_list.
Qed.

Lemma no_doi_no_token text :
  extract_doi_from_text text = None →
  ∀ pre token post, text = pre +:+ token +:+ post → ¬ doi_token token.
Proof.
  unfold extract_doi_from_text, doi_patterns, first_match.
  destruct (search doi_core text) as [m|] eqn:Hs; [done|]. intros _.
  intros pre token post Ht (reg & suf & -> & Hn & Hr & Hne & Hsuf).
  destruct (doi_token_matches (rev (Py.to_list pre)) (Py.to_list reg)
              (Py.to_list suf) (Py.to_list post)) as [e He].
  - by rewrite <- (of_list_to_list reg), length_of_list in Hn.
  - done.
  - intros Hnil. apply Hne. by rewrite <- (of_list_to_list suf), Hnil.
  - done.
  - unfold search in Hs.
    eapply (search_from_complete _ _ _ Hs); [|exact He].
    exists (Py.to_list pre). rewrite app_nil_r. split; [|done].
    rewrite Ht, !to_list_app, <- !app_assoc. reflexivity.
Qed.

End DoiToken.

(** C10. The text "See doi: 10.1234/abcd.5678." gives the DOI
    "10.1234/abcd.5678".  For every text, a DOI that is returned is read
    from the text: the text is a part [pre], a token and a part [post],
    where the token is [10.], four digits or more, a slash and characters
    that are not white space, it runs up to the next white space or the
    end of the text, no such token starts earlier in the text, and the
    DOI is the token with the characters [. , ; :] removed from its end.
    So the DOI starts with [10.] (a [doi:] or [DOI:] before the token is
    not part of it) and its last character is none of [. , ; :].  When
    nothing is returned the text holds no such token. *)
Theorem doi_prefix_and_punctuation_are_stripped :
  extract_doi_from_text "See doi: 10.1234/abcd.5678."
  = Some "10.1234/abcd.5678"
  ∧ (∀ text d,
      extract_doi_from_text text = Some d →
      (∃ rest, d = "10." +:+ rest)
      ∧ (∀ d' c, d = d' +:+ String c "" → is_punct c = false)
      ∧ ∃ pre token post,
          text = pre +:+ token +:+ post
          ∧ doi_token token
          ∧ (∀ c post', post = String c post' → Py.isspace c = true)
          ∧ (∀ pre' token' post',
               text = pre' +:+ token' +:+ post' → doi_token token' →
               (String.length pre ≤ String.length pre')%nat)
          ∧ d = Py.rstrip ".,;:" token)
  ∧ (∀ text,
      extract_doi_from_text text = None →
      ∀ pre token post, text = pre +:+ token +:+ post → ¬ doi_token token).
Proof.
  split; [by vm_compute|]. split; [|apply no_doi_no_token].
  intros text d Hd. split; [|split; [|by apply doi_is_leftmost_token]].
  - apply extract_doi_shape in Hd as (c & l & Hc & ->). by eexists.
  - apply extract_doi_shape in Hd as (c & l & Hc & ->).
    intros d' c' H. apply (f_equal Py.to_list) in H.
    rewrite to_list_of_list, to_list_app in H. simpl in H.
    destruct (Py.rstrip_by is_punct l) as [|r R] eqn:HR using rev_ind.
    + apply (app_inj_tail ["1"; "0"; "."]%char) in H as [_ <-].
      by apply decimal_not_punct.
    + change ("1" :: "0" :: "." :: c :: R ++ [r])%char
        with (("1" :: "0" :: "." :: c :: R) ++ [r])%char in H.
      apply app_inj_tail in H as [_ <-].
      by apply rstrip_by_last in HR.
Qed.
